(** * TorFleet: the probing-and-selection engine of [TorFleet.py]

    A shallow embedding of the [TorManager] methods that generate a torrc,
    resolve the exit identity, measure throughput, run the attempts of one
    instance and rank the fleet, together with the properties the
    specification states about them.

    Modelling conventions.
    - Python [str] values are Rocq strings (sequences of 8-bit characters);
      case mapping and whitespace are the ASCII ones.
    - Python [float] values (time stamps, durations, Mbps figures) are exact
      rationals [Q]: the rounding error of the binary64 operations is not
      modelled, [round(x, n)] rounds the exact value half-to-even as CPython
      does.  Numeric equality of Python ([==]) is [Qeq].
    - The outside world ([requests.get], [time.time], [subprocess],
      [random.randint], the file system) is an environment [Env] of oracles.
      Every interaction is appended to a log, and each oracle sees the log
      of everything that happened before, so a service may answer
      differently every time it is asked.  Console output is not modelled;
      file-system and process calls are taken not to raise.
    - A Python dict with fixed keys is a record; the JSON object returned by
      a geolocation service is a [gmap]; [self.instances] is the list of its
      items in insertion order, and a reference to an instance object is its
      position in that list.
    - A loop is a [Fixpoint] over the list it iterates; where a property
      speaks of one iteration, the body of the loop has a name of its own
      ([try_download], [launch] and [probe], [test_instance]).

    The embedding comes first, then the vocabulary the properties are
    stated in, then the properties. *)

From Stdlib Require Import ZArith QArith Qround Lqa Lia List String Ascii Bool.
From Stdlib Require Import Sorting.Sorted Sorting.Permutation.
From stdpp Require Import base gmap strings list pretty.

Set Warnings "-register-all,-clear-no-such-hyp".
Open Scope Z_scope.

(** ** Python strings *)

Module PyStr.

Definition nl : string := String "010"%char "".

(** [bool(s)] for a string: the empty string is falsy. *)
Definition truthy (s : string) : bool :=
  match s with EmptyString => false | String _ _ => true end.

(** [str.isspace] on the ASCII range: TAB, LF, VT, FF, CR, FS, GS, RS, US
    and the space. *)
Definition is_space (c : ascii) : bool :=
  let n := N_of_ascii c in
  (((9 <=? n) && (n <=? 13)) || ((28 <=? n) && (n <=? 32)))%N.

Fixpoint lstrip (s : string) : string :=
  match s with
  | EmptyString => EmptyString
  | String c t => if is_space c then lstrip t else s
  end.

Fixpoint rstrip (s : string) : string :=
  match s with
  | EmptyString => EmptyString
  | String c t =>
      match rstrip t with
      | EmptyString => if is_space c then EmptyString else String c EmptyString
      | t' => String c t'
      end
  end.

(** [s.strip()] *)
Definition strip (s : string) : string := rstrip (lstrip s).

Definition lower_char (c : ascii) : ascii :=
  let n := N_of_ascii c in
  if ((65 <=? n) && (n <=? 90))%N then ascii_of_N (n + 32) else c.

Definition upper_char (c : ascii) : ascii :=
  let n := N_of_ascii c in
  if ((97 <=? n) && (n <=? 122))%N then ascii_of_N (n - 32) else c.

Fixpoint map_chars (f : ascii -> ascii) (s : string) : string :=
  match s with
  | EmptyString => EmptyString
  | String c t => String (f c) (map_chars f t)
  end.

(** [s.lower()] and [s.upper()] *)
Definition lower : string -> string := map_chars lower_char.
Definition upper : string -> string := map_chars upper_char.

(** [s.split(sep)] for a one-character separator: never the empty list,
    [''.split(sep) = ['']]. *)
Fixpoint split (sep : ascii) (s : string) : list string :=
  match s with
  | EmptyString => [EmptyString]
  | String c t =>
      if Ascii.eqb c sep then EmptyString :: split sep t
      else match split sep t with
           | [] => [String c EmptyString]
           | w :: ws => String c w :: ws
           end
  end.

(** [s.startswith(p)] *)
Definition startswith (s p : string) : bool := String.prefix p s.

(** [needle in hay] *)
Fixpoint contains (needle hay : string) : bool :=
  String.prefix needle hay ||
  match hay with
  | EmptyString => false
  | String _ t => contains needle t
  end.

(** [template.format(ip=ip)] for a template whose only replacement field
    is [{ip}]; [skip] counts the characters of a field still to drop. *)
Fixpoint format_ip (ip : string) (skip : nat) (template : string) : string :=
  match template with
  | EmptyString => EmptyString
  | String c t =>
      match skip with
      | S k => format_ip ip k t
      | O => if String.prefix "{ip}" template
             then ip +:+ format_ip ip 3 t
             else String c (format_ip ip 0 t)
      end
  end.

(** [str(n)] for an integer, as an f-string formats it *)
Definition of_int (n : Z) : string := pretty n.

(** the characters of a string contain no line feed *)
Fixpoint no_nl (s : string) : bool :=
  match s with
  | EmptyString => true
  | String c t => negb (Ascii.eqb c "010"%char) && no_nl t
  end.

End PyStr.

(** ** Python numbers *)

Module PyNum.

(** [int(x)] of a float: truncation toward zero. *)
Definition int (x : Q) : Z := Z.quot (Qnum x) (Z.pos (Qden x)).

(** Nearest integer, ties to the even one. *)
Definition round_half_even (x : Q) : Z :=
  let f := Qfloor x in
  match Qcompare (x - inject_Z f) (1 # 2) with
  | Lt => f
  | Gt => f + 1
  | Eq => if Z.even f then f else f + 1
  end.

(** [round(x, ndigits)] *)
Definition round (x : Q) (ndigits : nat) : Q :=
  let scale := inject_Z (10 ^ Z.of_nat ndigits) in
  (inject_Z (round_half_even (x * scale)) / scale)%Q.

(** [a < b] and [a == b] on floats *)
Definition ltb (a b : Q) : bool := negb (Qle_bool b a).
Definition eqb (a b : Q) : bool := Qeq_bool a b.

(** [max(a, b)]: the first argument is kept unless the second is
    strictly greater. *)
Definition max (a b : Q) : Q := if ltb a b then b else a.

(** [sum(l)] *)
Definition sum (l : list Q) : Q := fold_left Qplus l 0%Q.

End PyNum.

(** ** The outside world *)

(** A decoded JSON document, as [response.json()] returns it. *)
Inductive JValue : Type :=
| JNull
| JBool (b : bool)
| JNum (q : Q)
| JStr (s : string)
| JArr (l : list JValue)
| JObj (m : gmap string JValue).

(** What the code reads of a [requests.Response]: [status_code], [text],
    [len(content)] and [json()] ([None] when decoding raises). *)
Record Response := {
  status_code : Z;
  text : string;
  content_len : Z;
  json : option JValue
}.

(** [requests.get] either raises (time-out, connection failure) or returns. *)
Inductive HttpOutcome :=
| Raised
| Returned (r : Response).

(** One interaction with the world, as logged. *)
Inductive Event :=
| EGet (url : string) (proxies : list (string * string)) (timeout : Z)
| EClock
| ESleep (secs : Z)
| ERun (cmd : string)
| EPopen (cmd : string)
| ERandint (lo hi : Z)
| EMkdir (path : string)
| EWrite (path content : string).

Definition Log := list Event.

Record Env := {
  requests_get : Log -> string -> list (string * string) -> Z -> HttpOutcome;
  time_time : Log -> Q;
  run_returncode : Log -> string -> Z;
  random_randint : Log -> Z -> Z -> Z
}.

(** Programs read the environment and extend the log. *)
Definition IO (A : Type) : Type := Env -> Log -> A * Log.

Definition ret {A} (a : A) : IO A := fun _ h => (a, h).

Definition bind {A B} (m : IO A) (k : A -> IO B) : IO B :=
  fun env h => let (a, h') := m env h in k a env h'.

Notation "x <- m ;; k" := (bind m (fun x => k))
  (at level 100, m at next level, right associativity).
Notation "m ;;; k" := (bind m (fun _ => k))
  (at level 100, right associativity).

(** [requests.get(url, proxies=proxies, timeout=timeout)] *)
Definition http_get (url : string) (proxies : list (string * string)) (timeout : Z)
  : IO HttpOutcome :=
  fun env h => (requests_get env h url proxies timeout, h ++ [EGet url proxies timeout]).

(** [time.time()] *)
Definition now : IO Q := fun env h => (time_time env h, h ++ [EClock]).

(** [time.sleep(secs)] *)
Definition sleep (secs : Z) : IO unit := fun _ h => (tt, h ++ [ESleep secs]).

(** [subprocess.run(cmd, shell=True, capture_output=True).returncode] *)
Definition run (cmd : string) : IO Z :=
  fun env h => (run_returncode env h cmd, h ++ [ERun cmd]).

(** [subprocess.Popen(cmd, shell=True, ...)] *)
Definition popen (cmd : string) : IO unit := fun _ h => (tt, h ++ [EPopen cmd]).

(** [random.randint(lo, hi)]: the oracle's draw, brought into [lo..hi]. *)
Definition randint (lo hi : Z) : IO Z :=
  fun env h => (lo + (random_randint env h lo hi) mod (hi - lo + 1), h ++ [ERandint lo hi]).

Definition mkdir (path : string) : IO unit := fun _ h => (tt, h ++ [EMkdir path]).

Definition write_file (path content : string) : IO unit :=
  fun _ h => (tt, h ++ [EWrite path content]).

(** ** Data model *)

(** The dict built for a successful attempt. *)
Record Result := {
  r_ip : string;
  r_country : string;
  r_city : JValue;
  r_ping : Z;
  r_speed : Q
}.

(** [class TorInstance] *)
Record TorInstance := {
  name : string;
  country : string;
  port : Z;
  data_dir : string;
  torrc : string;
  ip : option string;
  city : option JValue;
  ping : option Z;
  speed : option Q;
  bridge_type : option string;
  bridge_count : Z;
  best_results : list Result
}.

(** [self.bridge_data]: [None], or the bridge lines with their type. *)
Definition BridgeData : Type := option (list string * string).

(** ** IdentityResolver: [TorManager.get_ip_and_location] *)

Definition socks (port : Z) : string := "socks5://127.0.0.1:" +:+ PyStr.of_int port.

Definition ip_services : list string :=
  [ "http://api.ipify.org";
    "http://checkip.amazonaws.com";
    "http://icanhazip.com";
    "http://ipecho.net/plain";
    "http://myexternalip.com/raw" ].

Record LocationService := {
  url : string;
  country_key : string;
  city_key : string
}.

Definition location_services : list LocationService :=
  [ {| url := "http://ip-api.com/json/{ip}";
       country_key := "countryCode"; city_key := "city" |};
    {| url := "https://ipapi.co/{ip}/json/";
       country_key := "country_code"; city_key := "city" |};
    {| url := "http://ipwho.is/{ip}";
       country_key := "country_code"; city_key := "city" |};
    {| url := "http://www.geoplugin.net/json.gp?ip={ip}";
       country_key := "geoplugin_countryCode"; city_key := "geoplugin_city" |} ].

(** The test that ends the IP loop: [ip and len(ip.split('.')) == 4]. *)
Definition looks_like_ip (ip : string) : bool :=
  PyStr.truthy ip && (Z.of_nat (length (PyStr.split "."%char ip)) =? 4).

(** The first loop.  [ip] and [ping_time] are the loop-carried variables:
    a service that answers overwrites both, whether or not its answer
    passes the test; a service that raises leaves them as they are. *)
Fixpoint discover_ip (proxies : list (string * string)) (services : list string)
    (ip : option string) (ping_time : Z) : IO (option string * Z) :=
  match services with
  | [] => ret (ip, ping_time)
  | service :: rest =>
      start_time <- now ;;
      r <- http_get service proxies 15 ;;
      match r with
      | Raised => discover_ip proxies rest ip ping_time
      | Returned resp =>
          t <- now ;;
          let ping_time := PyNum.int ((t - start_time) * 1000)%Q in
          let ip := PyStr.strip (text resp) in
          if looks_like_ip ip then ret (Some ip, ping_time)
          else discover_ip proxies rest (Some ip) ping_time
      end
  end.

(** What the body of the second loop makes of one answer: the country and
    city it returns, or [None] when it goes on to the next service (the
    request raised, the status is not 200, [json()] raised, the document
    has no [get], the country is not a string, or it is not two characters
    long). *)
Definition geo_answer (service : LocationService) (o : HttpOutcome)
  : option (string * JValue) :=
  match o with
  | Raised => None
  | Returned location_r =>
      if status_code location_r =? 200 then
        match json location_r with
        | Some (JObj location_data) =>
            match default (JStr "") (location_data !! country_key service) with
            | JStr c =>
                let country := PyStr.upper c in
                let city := default (JStr "Unknown") (location_data !! city_key service) in
                if PyStr.truthy country && (Z.of_nat (String.length country) =? 2)
                then Some (country, city)
                else None
            | _ => None
            end
        | _ => None
        end
      else None
  end.

Definition geo_url (service : LocationService) (ip : string) : string :=
  PyStr.format_ip ip 0 (url service).

Fixpoint locate (services : list LocationService) (ip : string)
  : IO (option (string * JValue)) :=
  match services with
  | [] => ret None
  | service :: rest =>
      location_r <- http_get (geo_url service ip) [] 10 ;;
      match geo_answer service location_r with
      | Some found => ret (Some found)
      | None => locate rest ip
      end
  end.

Definition ip_proxies (port : Z) : list (string * string) :=
  [("http", socks port); ("https", socks port)].

(** [(ip, country, city, ping_time)] *)
Definition Identity : Type := option string * string * JValue * Z.

Definition get_ip_and_location (port : Z) : IO Identity :=
  found <- discover_ip (ip_proxies port) ip_services None 9999 ;;
  let '(ip, ping_time) := found in
  match ip with
  | None => ret (None, "Error", JStr "No IP", 9999)
  | Some ip =>
      if negb (PyStr.truthy ip) then ret (None, "Error", JStr "No IP", 9999)
      else
        loc <- locate location_services ip ;;
        match loc with
        | Some (country, city) => ret (Some ip, country, city, ping_time)
        | None => ret (Some ip, "Unknown", JStr "Unknown", ping_time)
        end
  end.

(** ** ThroughputProbe: [TorManager.test_speed] *)

Definition speed_proxies (port : Z) : list (string * string) :=
  [("http", socks port)].

Definition test_data : list (string * Z) :=
  [ ("http://httpbin.org/bytes/50000", 50000);
    ("http://httpbin.org/bytes/25000", 25000);
    ("http://speedtest.ftp.otenet.gr/files/test100k.db", 100000) ].

Definition status_url : string := "http://httpbin.org/status/200".

(** [round(bits_downloaded / (download_time * 1000000), 2)] *)
Definition mbps_of (actual_size : Z) (download_time : Q) : Q :=
  PyNum.round (inject_Z (actual_size * 8) / (download_time * 1000000))%Q 2.

(** The body of the download loop for one test URL: the measurement it
    returns, or [None] when the loop goes on. *)
Definition try_download (proxies : list (string * string)) (item : string * Z)
  : IO (option Q) :=
  let (test_url, expected_size) := item in
  start_time <- now ;;
  response <- http_get test_url proxies 12 ;;
  match response with
  | Raised => ret None
  | Returned response =>
      if status_code response =? 200 then
        t <- now ;;
        let download_time := (t - start_time)%Q in
        let actual_size := content_len response in
        if PyNum.ltb 0 download_time && (1000 <? actual_size)
        then ret (Some (mbps_of actual_size download_time))
        else ret None
      else ret None
  end.

Fixpoint download_loop (proxies : list (string * string)) (data : list (string * Z))
  : IO (option Q) :=
  match data with
  | [] => ret None
  | item :: rest =>
      m <- try_download proxies item ;;
      match m with
      | Some mbps => ret (Some mbps)
      | None => download_loop proxies rest
      end
  end.

(** The three status checks of the fallback.  The loop sits inside one
    [try]: a request that raises ends it, and the answer is [None]. *)
Fixpoint ping_loop (proxies : list (string * string)) (n : nat) (ping_times : list Q)
  : IO (option (list Q)) :=
  match n with
  | O => ret (Some ping_times)
  | S k =>
      start_time <- now ;;
      response <- http_get status_url proxies 8 ;;
      match response with
      | Raised => ret None
      | Returned response =>
          if status_code response =? 200 then
            t <- now ;;
            ping_loop proxies k (ping_times ++ [((t - start_time) * 1000)%Q])
          else ping_loop proxies k ping_times
      end
  end.

(** [sum(ping_times) / len(ping_times)] *)
Definition average (ping_times : list Q) : Q :=
  (PyNum.sum ping_times / inject_Z (Z.of_nat (length ping_times)))%Q.

(** [round(max(0.1, 10 / (avg_ping / 100)), 1)] *)
Definition estimate_of (avg_ping : Q) : Q :=
  PyNum.round (PyNum.max (1 # 10) (10 / (avg_ping / 100))%Q) 1.

(** The fallback: [None] stands for leaving the [try] without a [return]
    (a status check raised, none answered 200, or the division raised
    [ZeroDivisionError]). *)
Definition fallback (proxies : list (string * string)) : IO (option Q) :=
  pings <- ping_loop proxies 3 [] ;;
  match pings with
  | None => ret None
  | Some [] => ret None
  | Some ping_times =>
      let avg_ping := average ping_times in
      if PyNum.eqb (avg_ping / 100) 0 then ret None
      else ret (Some (estimate_of avg_ping))
  end.

Definition test_speed (port : Z) : IO Q :=
  let proxies := speed_proxies port in
  m <- download_loop proxies test_data ;;
  match m with
  | Some mbps => ret mbps
  | None =>
      e <- fallback proxies ;;
      match e with
      | Some estimated_mbps => ret estimated_mbps
      | None => ret 0%Q
      end
  end.

(** ** Bridges: [detect_bridge_type] and [parse_bridge_input] *)

(** The type of one bridge line; [None] for the empty line. *)
Definition detect_bridge_type (bridge_line : string) : option string :=
  if negb (PyStr.truthy bridge_line) then None
  else
    let bridge_lower := PyStr.lower bridge_line in
    if PyStr.contains "obfs4" bridge_lower then Some "obfs4"
    else if PyStr.contains "snowflake" bridge_lower then Some "snowflake"
    else if PyStr.contains "meek-azure" bridge_lower
            || PyStr.contains "meek_lite" bridge_lower then Some "meek-azure"
    else if PyStr.contains "webtunnel" bridge_lower then Some "webtunnel"
    else Some "unknown".

(** [[line.strip() for line in bridge_input.strip().split('\n') if line.strip()]] *)
Definition input_lines (bridge_input : string) : list string :=
  map PyStr.strip
    (List.filter (fun line => PyStr.truthy (PyStr.strip line))
       (PyStr.split "010"%char (PyStr.strip bridge_input))).

(** The line as it is stored: prefixed with [Bridge] unless it starts so. *)
Definition bridge_line_of (line : string) : string :=
  if negb (PyStr.startswith line "Bridge") then "Bridge " +:+ line else line.

(** The loop over the lines, carrying [bridge_lines] and [bridge_types]. *)
Fixpoint collect_bridges (lines : list string) (bridge_lines : list string)
    (bridge_types : gset string) : list string * gset string :=
  match lines with
  | [] => (bridge_lines, bridge_types)
  | line :: rest =>
      let line := bridge_line_of line in
      let bridge_lines := bridge_lines ++ [line] in
      match detect_bridge_type line with
      | Some bridge_type => collect_bridges rest bridge_lines ({[bridge_type]} ∪ bridge_types)
      | None => collect_bridges rest bridge_lines bridge_types
      end
  end.

Section ParseBridges.

(** [list(s)] for a set of strings: Python fixes no iteration order (it
    follows the string hashes, which change from run to run), so the
    order is a parameter. *)
Variable set_to_list : gset string -> list string.

(** [(None, None)], or the stored lines with the recorded type.  When
    more than one type was seen the code prints a warning and still
    returns [list(bridge_types)[0]]. *)
Definition parse_bridge_input (bridge_input : string)
  : option (list string) * option string :=
  if negb (PyStr.truthy (PyStr.strip bridge_input)) then (None, None)
  else
    let lines := input_lines bridge_input in
    let '(bridge_lines, bridge_types) := collect_bridges lines [] ∅ in
    if Z.of_nat (size bridge_types) =? 1
    then (Some bridge_lines, head (set_to_list bridge_types))
    else if 1 <? Z.of_nat (size bridge_types)
    then (Some bridge_lines, head (set_to_list bridge_types))
    else (Some bridge_lines, Some "unknown").

End ParseBridges.

(** ** ConfigBuilder: [TorManager.create_torrc] *)

Definition transport_plugin (bridge_type : string) : string :=
  if String.eqb bridge_type "obfs4"
  then "ClientTransportPlugin obfs4 exec /usr/bin/obfs4proxy" +:+ PyStr.nl
  else if String.eqb bridge_type "snowflake"
  then "ClientTransportPlugin snowflake exec /usr/bin/snowflake-client" +:+ PyStr.nl
  else if String.eqb bridge_type "meek-azure"
  then "ClientTransportPlugin meek_lite exec /usr/bin/meek-client" +:+ PyStr.nl
  else if String.eqb bridge_type "webtunnel"
  then "ClientTransportPlugin webtunnel exec /usr/bin/webtunnel-client" +:+ PyStr.nl
  else "".

(** [for bridge in bridge_lines: config += f"{bridge}\n"] *)
Fixpoint add_bridges (config : string) (bridge_lines : list string) : string :=
  match bridge_lines with
  | [] => config
  | bridge :: rest => add_bridges (config +:+ bridge +:+ PyStr.nl) rest
  end.

(** The text written to the torrc, for a drawn [circuit_period]. *)
Definition torrc_text (inst : TorInstance) (use_bridges : bool)
    (bridge_data : BridgeData) (circuit_period : Z) : string :=
  let config :=
    "SocksPort " +:+ PyStr.of_int (port inst) +:+ PyStr.nl +:+
    "DataDirectory " +:+ data_dir inst +:+ PyStr.nl in
  let config :=
    match use_bridges, bridge_data with
    | true, Some (bridge_lines, bridge_type) =>
        let config := config +:+ "UseBridges 1" +:+ PyStr.nl in
        let config := config +:+ transport_plugin bridge_type in
        add_bridges config bridge_lines
    | _, _ => config
    end in
  config +:+
  "ExitNodes {" +:+ country inst +:+ "}" +:+ PyStr.nl +:+
  "StrictNodes 1" +:+ PyStr.nl +:+
  "NewCircuitPeriod " +:+ PyStr.of_int circuit_period +:+ PyStr.nl +:+
  "MaxCircuitDirtiness 300" +:+ PyStr.nl +:+
  "CircuitBuildTimeout " +:+ (if use_bridges then "120" else "60") +:+ PyStr.nl +:+
  "LearnCircuitBuildTimeout 0" +:+ PyStr.nl +:+
  "NumEntryGuards 3" +:+ PyStr.nl +:+
  "UseEntryGuards 1" +:+ PyStr.nl.

(** [self.bridge_data is not None] *)
Definition bridges_active (bridge_data : BridgeData) : bool :=
  match bridge_data with Some _ => true | None => false end.

Definition create_torrc (bridge_data : BridgeData) (inst : TorInstance)
    (use_bridges : bool) : IO unit :=
  circuit_period <- randint 15 45 ;;
  mkdir (data_dir inst) ;;;
  write_file (torrc inst) (torrc_text inst use_bridges bridge_data circuit_period).

(** ** ProcessController: [stop_instance] and [check_instance_running] *)

Definition stop_instance (inst : TorInstance) : IO unit :=
  run ("pkill -f 'tor -f " +:+ torrc inst +:+ "'") ;;;
  sleep 2.

(** The command of the liveness check: [f"pgrep -f 'tor -f {inst.torrc}'"]. *)
Definition pgrep_command (inst : TorInstance) : string :=
  "pgrep -f 'tor -f " +:+ torrc inst +:+ "'".

Definition check_instance_running (inst : TorInstance) : IO bool :=
  returncode <- run (pgrep_command inst) ;;
  ret (returncode =? 0).

(** ** AttemptRunner and FleetOrchestrator *)

(** [inst.ip = ...; inst.city = ...; inst.ping = ...; inst.speed = ...] *)
Definition set_observed (inst : TorInstance) (ip' : string) (city' : JValue)
    (ping' : Z) (speed' : Q) : TorInstance :=
  {| name := name inst; country := country inst; port := port inst;
     data_dir := data_dir inst; torrc := torrc inst;
     ip := Some ip'; city := Some city'; ping := Some ping'; speed := Some speed';
     bridge_type := bridge_type inst; bridge_count := bridge_count inst;
     best_results := best_results inst |}.

(** [inst.best_results = results] *)
Definition set_best_results (inst : TorInstance) (results : list Result) : TorInstance :=
  {| name := name inst; country := country inst; port := port inst;
     data_dir := data_dir inst; torrc := torrc inst;
     ip := ip inst; city := city inst; ping := ping inst; speed := speed inst;
     bridge_type := bridge_type inst; bridge_count := bridge_count inst;
     best_results := results |}.

(** [30 if use_bridges and self.bridge_data and self.bridge_data[1] == 'obfs4' else 20] *)
Definition wait_time (use_bridges : bool) (bridge_data : BridgeData) : Z :=
  match use_bridges, bridge_data with
  | true, Some (_, bridge_type) => if String.eqb bridge_type "obfs4" then 30 else 20
  | _, _ => 20
  end.

(** The first half of one attempt: stop, write the torrc, clean the
    cache, start Tor and wait. *)
Definition launch (bridge_data : BridgeData) (inst : TorInstance) (use_bridges : bool)
  : IO unit :=
  stop_instance inst ;;;
  create_torrc bridge_data inst use_bridges ;;;
  run ("rm -rf " +:+ data_dir inst +:+ "/cached-*") ;;;
  run ("rm -rf " +:+ data_dir inst +:+ "/state") ;;;
  popen ("tor -f " +:+ torrc inst) ;;;
  sleep (wait_time use_bridges bridge_data).

(** [ip and country == inst.country] *)
Definition accepted (inst : TorInstance) (id : Identity) : bool :=
  let '(ip, country', _, _) := id in
  match ip with
  | Some ip => PyStr.truthy ip && String.eqb country' (country inst)
  | None => false
  end.

(** The second half: resolve the identity and, if it is accepted, measure
    the speed and append the result. *)
Definition probe (inst : TorInstance) (results : list Result) : IO (list Result) :=
  id <- get_ip_and_location (port inst) ;;
  let '(ip, country', city', ping') := id in
  results <-
    (if accepted inst id then
       speed' <- test_speed (port inst) ;;
       ret (results ++ [ {| r_ip := default "" ip; r_country := country';
                            r_city := city'; r_ping := ping'; r_speed := speed' |} ])
     else ret results) ;;
  sleep 2 ;;;
  ret results.

(** One iteration of the loop of [find_fastest_ip_for_instance]. *)
Definition attempt (bridge_data : BridgeData) (inst : TorInstance) (use_bridges : bool)
    (results : list Result) : IO (list Result) :=
  launch bridge_data inst use_bridges ;;;
  probe inst results.

(** [for attempt in range(max_attempts)] *)
Fixpoint attempts (bridge_data : BridgeData) (inst : TorInstance) (use_bridges : bool)
    (n : nat) (results : list Result) : IO (list Result) :=
  match n with
  | O => ret results
  | S k =>
      results <- attempt bridge_data inst use_bridges results ;;
      attempts bridge_data inst use_bridges k results
  end.

(** [max(results, key=...)] on a non-empty list: the first element whose
    key no later element exceeds. *)
Definition max_by {A} (key : A -> Q) (first : A) (rest : list A) : A :=
  fold_left (fun best x => if PyNum.ltb (key best) (key x) then x else best) rest first.

Definition find_fastest_ip_for_instance (bridge_data : BridgeData) (inst : TorInstance)
    (use_bridges : bool) (max_attempts : Z) : IO (option Result * TorInstance) :=
  results <- attempts bridge_data inst use_bridges (Z.to_nat max_attempts) [] ;;
  match results with
  | first :: rest =>
      let best := max_by r_speed first rest in
      let inst := set_observed inst (r_ip best) (r_city best) (r_ping best) (r_speed best) in
      let inst := set_best_results inst results in
      ret (Some best, inst)
  | [] => ret (None, inst)
  end.

(** *** [list.sort(key=lambda x: (-speed, ping))] *)

(** [a < b] on the key tuples: the first components that differ decide. *)
Definition key_lt (a b : Q * Z) : bool :=
  if PyNum.eqb (fst a) (fst b)
  then (if snd a =? snd b then false else snd a <? snd b)
  else PyNum.ltb (fst a) (fst b).

Section Sort.
Context {A : Type}.

Fixpoint insert_keyed (x : (Q * Z) * A) (l : list ((Q * Z) * A)) : list ((Q * Z) * A) :=
  match l with
  | [] => [x]
  | y :: l' => if key_lt (fst y) (fst x) then y :: insert_keyed x l' else x :: l
  end.

(** A stable sort that compares keys with [<] only, as CPython's
    [list.sort] is. *)
Fixpoint sort_keyed (l : list ((Q * Z) * A)) : list ((Q * Z) * A) :=
  match l with
  | [] => []
  | x :: l' => insert_keyed x (sort_keyed l')
  end.

(** [l.sort(key=key)]: the keys are computed first, one per element;
    [None] when a key cannot be computed (the call raises). *)
Definition list_sort (key : A -> option (Q * Z)) (l : list A) : option (list A) :=
  keyed ← mapM (fun x => k ← key x; Some (k, x)) l;
  Some (map snd (sort_keyed keyed)).
End Sort.

(** *** [start_all_instances_with_best_ips] *)

(** An entry of [successful]: [{'name': name, 'inst': inst, **result}]. *)
Record Ranked := {
  rk_name : string;
  rk_inst : nat;
  rk_result : Result
}.

Definition ranked_key (x : Ranked) : option (Q * Z) :=
  Some ((- r_speed (rk_result x))%Q, r_ping (rk_result x)).

(** The loop over [self.instances.items()], from position [i] on: the
    instances as they are left, and [successful]. *)
Fixpoint start_loop (bridge_data : BridgeData) (use_bridges : bool)
    (attempts_per_country : Z) (items : list (string * TorInstance)) (i : nat)
    (successful : list Ranked) : IO (list (string * TorInstance) * list Ranked) :=
  match items with
  | [] => ret ([], successful)
  | (name', inst) :: rest =>
      found <- find_fastest_ip_for_instance bridge_data inst use_bridges
                 attempts_per_country ;;
      let '(result, inst) := found in
      let successful :=
        match result with
        | Some result =>
            successful ++ [ {| rk_name := name'; rk_inst := i; rk_result := result |} ]
        | None => successful
        end in
      tail <- start_loop bridge_data use_bridges attempts_per_country rest (S i)
                successful ;;
      let '(rest, successful) := tail in
      ret ((name', inst) :: rest, successful)
  end.

(** The instances after the run and the sorted [successful] list (the
    ranking that is printed); [None] for the ranking when there is no
    instance, or when the sort raises. *)
Definition start_all_instances_with_best_ips (bridge_data : BridgeData)
    (attempts_per_country : Z) (instances : list (string * TorInstance))
  : IO (list (string * TorInstance) * option (list Ranked)) :=
  match instances with
  | [] => ret (instances, None)
  | _ =>
      let use_bridges := bridges_active bridge_data in
      done <- start_loop bridge_data use_bridges attempts_per_country instances 0 [] ;;
      let '(instances, successful) := done in
      ret (instances, list_sort ranked_key successful)
  end.

(** *** [test_all_instances] *)

(** The key of an instance object in the re-test ranking, read from the
    instance at position [i]: [(-x.speed, x.ping)]. *)
Definition retest_key (instances : list (string * TorInstance)) (i : nat)
  : option (Q * Z) :=
  entry ← instances !! i;
  s ← speed (snd entry);
  p ← ping (snd entry);
  Some ((- s)%Q, p).

(** The body of the loop for the instance object at position [i]:
    the instance as it is left, and [results], which holds the positions
    of the instances appended. *)
Definition test_instance (inst : TorInstance) (i : nat) (results : list nat)
  : IO (TorInstance * list nat) :=
  running <- check_instance_running inst ;;
  if running then
    id <- get_ip_and_location (port inst) ;;
    let '(ip, _, city', ping') := id in
    match ip with
    | Some ip =>
        if PyStr.truthy ip then
          speed' <- test_speed (port inst) ;;
          ret (set_observed inst ip city' ping' speed', results ++ [i])
        else ret (inst, results)
    | None => ret (inst, results)
    end
  else ret (inst, results).

(** The loop over [self.instances.items()], from position [i] on. *)
Fixpoint test_loop (items : list (string * TorInstance)) (i : nat) (results : list nat)
  : IO (list (string * TorInstance) * list nat) :=
  match items with
  | [] => ret ([], results)
  | (name', inst) :: rest =>
      step <- test_instance inst i results ;;
      let '(inst, results) := step in
      tail <- test_loop rest (S i) results ;;
      let '(rest, results) := tail in
      ret ((name', inst) :: rest, results)
  end.

(** The instances after the pass and the ranking (positions, sorted). *)
Definition test_all_instances (instances : list (string * TorInstance))
  : IO (list (string * TorInstance) * option (list nat)) :=
  done <- test_loop instances 0 [] ;;
  let '(instances, results) := done in
  match results with
  | [] => ret (instances, Some [])
  | _ => ret (instances, list_sort (retest_key instances) results)
  end.

(** ** The manager: its state, the console, the saved configuration

    The methods that talk to the user take the lines that are typed as a
    list: each [input()] takes the first line, without its line feed, and
    leaves the others.  A method returns the manager as it leaves it and
    the lines it has not read, or [None] when an exception leaves the
    method; [input()] at the end of the input raises [EOFError].  What is
    printed is not modelled. *)

(** The fields of [TorManager].  [instances] is the dict of the instances,
    in insertion order; [bridge_data] is [None] or the pair that
    [parse_bridge_input] returned. *)
Module Manager.
Record t := {
  instances : list (string * TorInstance);
  bridge_data : option (option (list string) * option string);
  max_country_retries : Z;
  test_schedule : option Q;
  attempts_per_country : Z
}.
End Manager.

(** [self.bridge_data = value] *)
Definition set_bridge_data (m : Manager.t)
    (value : option (option (list string) * option string)) : Manager.t :=
  {| Manager.instances := Manager.instances m;
     Manager.bridge_data := value;
     Manager.max_country_retries := Manager.max_country_retries m;
     Manager.test_schedule := Manager.test_schedule m;
     Manager.attempts_per_country := Manager.attempts_per_country m |}.




(** [TorInstance.to_dict] *)
Record InstanceDict := {
  d_name : string;
  d_country : string;
  d_port : Z;
  d_data_dir : string;
  d_torrc : string
}.

Definition to_dict (inst : TorInstance) : InstanceDict :=
  {| d_name := name inst; d_country := country inst; d_port := port inst;
     d_data_dir := data_dir inst; d_torrc := torrc inst |}.

(** The dict that [save_config] pickles. *)
Record Config := {
  c_instances : list (string * InstanceDict);
  c_bridge_data : option (option (list string) * option string);
  c_test_schedule : option Q;
  c_attempts_per_country : Z
}.

Definition config_of (m : Manager.t) : Config :=
  {| c_instances := map (fun item => (fst item, to_dict (snd item))) (Manager.instances m);
     c_bridge_data := Manager.bridge_data m;
     c_test_schedule := Manager.test_schedule m;
     c_attempts_per_country := Manager.attempts_per_country m |}.

(** The loop of [configure_bridges] over the lines that are typed, each
    as [input()] returns it: the text collected and the lines not read.
    [None] when the input ends before the loop does ([input()] raises
    [EOFError]). *)
Fixpoint read_bridges (typed : list string) (bridge_input : string)
  : option (string * list string) :=
  match typed with
  | [] => None
  | line :: rest =>
      if String.eqb (PyStr.strip line) "" then
        if PyStr.truthy (PyStr.strip bridge_input) then Some (bridge_input, rest)
        else read_bridges rest bridge_input
      else read_bridges rest (bridge_input +:+ line +:+ PyStr.nl)
  end.

Section ManagerCommands.

(** [CONFIG_FILE], which lies in the home directory; [pickle.dumps]; the
    order in which a set of strings is enumerated. *)
Variable config_file : string.
Variable pickle_dumps : Config -> string.
Variable set_to_list : gset string -> list string.

(** [with open(CONFIG_FILE, 'wb') as f: pickle.dump(config, f)] *)
Definition save_config (m : Manager.t) : IO unit :=
  write_file config_file (pickle_dumps (config_of m)).

(** [configure_bridges], for the lines typed: the manager as it is left
    and the lines not read; [None] when an exception leaves the method
    ([EOFError], or [bridge_type.upper()] on [None]). *)
Definition configure_bridges (m : Manager.t) (typed : list string)
  : IO (option (Manager.t * list string)) :=
  match read_bridges typed "" with
  | None => ret None
  | Some (bridge_input, typed) =>
      if PyStr.truthy (PyStr.strip bridge_input) then
        let parsed := parse_bridge_input set_to_list bridge_input in
        let m := set_bridge_data m (Some parsed) in
        match parsed with
        | (Some (_ :: _), bridge_type) =>
            save_config m ;;;
            match bridge_type with
            | Some _ => ret (Some (m, typed))
            | None => ret None
            end
        | _ => ret (Some (m, typed))
        end
      else
        let m := set_bridge_data m None in
        save_config m ;;;
        ret (Some (m, typed))
  end.


End ManagerCommands.

(** * Vocabulary of the properties

    Predicates on logs and on torrc texts, the relations that describe how
    a cascade runs against an environment, and the environments and
    instances of the scenarios the properties are checked on. *)

(** ** The order of a sorted list *)

Section SortOrder.
Context {A : Type}.

(** [y] need not move before [x]: the key of [y] is not less. *)
Definition keyed_le (x y : (Q * Z) * A) : Prop := key_lt (fst y) (fst x) = false.

(** Two neighbours of a sorted list, seen through the key function. *)
Definition key_sorted (key : A -> option (Q * Z)) (x y : A) : Prop :=
  exists kx ky, key x = Some kx /\ key y = Some ky /\ key_lt ky kx = false.

End SortOrder.

(** ** Identities and requests in the log *)

Definition id_ip (id : Identity) : option string := fst (fst (fst id)).
Definition id_country (id : Identity) : string := snd (fst (fst id)).
Definition id_city (id : Identity) : JValue := snd (fst id).
Definition id_ping (id : Identity) : Z := snd id.

(** A geolocation request: the only requests sent without a proxy. *)
Definition is_geolocation_request (e : Event) : bool :=
  match e with
  | EGet _ [] _ => true
  | _ => false
  end.

Definition speed_urls : list string := map fst test_data ++ [status_url].

(** A request of the throughput probe: a download or a status check. *)
Definition is_throughput_request (e : Event) : bool :=
  match e with
  | EGet url _ _ => existsb (String.eqb url) speed_urls
  | _ => false
  end.

(** [emits P m]: whatever the environment, [m] only appends events that
    satisfy [P] to the log. *)
Definition emits {A} (P : Event -> Prop) (m : IO A) : Prop :=
  forall env h, exists evs, snd (m env h) = h ++ evs /\ Forall P evs.

(** ** IdentityResolver: exhausted geolocation, scenarios *)

(** The geolocation loop runs over [services] from log [h] to log [h']
    without any service giving a usable answer for [ip']. *)
Inductive geo_exhausted (env : Env) (ip' : string)
  : list LocationService -> Log -> Log -> Prop :=
| geo_exhausted_nil h : geo_exhausted env ip' [] h h
| geo_exhausted_cons s rest h h' :
    geo_answer s (requests_get env h (geo_url s ip') [] 10) = None ->
    geo_exhausted env ip' rest (h ++ [EGet (geo_url s ip') [] 10]) h' ->
    geo_exhausted env ip' (s :: rest) h h'.

(** Every IP service is rate limited and answers 429 with a short text;
    the geolocation services cannot be reached. *)
Definition env_rate_limited : Env := {|
  requests_get := fun _ _ proxies _ =>
    match proxies with
    | [] => Raised
    | _ => Returned {| status_code := 429; text := "Too Many Requests";
                       content_len := 17; json := None |}
    end;
  time_time := fun h => (inject_Z (Z.of_nat (length h)) / 10)%Q;
  run_returncode := fun _ _ => 0;
  random_randint := fun _ _ _ => 0
|}.

(** The first IP service answers [203.0.113.7]; every geolocation service
    answers 200 with a document that has no country. *)
Definition env_geo_silent : Env := {|
  requests_get := fun _ _ proxies _ =>
    match proxies with
    | [] => Returned {| status_code := 200; text := "{}"; content_len := 2;
                        json := Some (JObj ∅) |}
    | _ => Returned {| status_code := 200; text := "203.0.113.7" +:+ PyStr.nl;
                       content_len := 12; json := None |}
    end;
  time_time := fun h => (inject_Z (Z.of_nat (length h)) * (3 # 10))%Q;
  run_returncode := fun _ _ => 0;
  random_randint := fun _ _ _ => 0
|}.

Definition log_geo_silent_ip : Log :=
  Eval vm_compute in snd (discover_ip (ip_proxies 9050) ip_services None 9999 env_geo_silent []).

Definition log_geo_silent : Log :=
  Eval vm_compute in snd (get_ip_and_location 9050 env_geo_silent []).

(** ** AttemptRunner: a US instance, an exit in France *)

Definition inst_us : TorInstance := {|
  name := "tor1"; country := "US"; port := 9050;
  data_dir := "/root/tor/tor1"; torrc := "/root/tor/tor1/torrc.conf";
  ip := None; city := None; ping := None; speed := None;
  bridge_type := None; bridge_count := 0; best_results := []
|}.

(** The exit is in France: the IP services answer [203.0.113.7], the
    geolocation services place it in Paris, every download works. *)
Definition env_france : Env := {|
  requests_get := fun _ _ proxies _ =>
    match proxies with
    | [] => Returned {| status_code := 200; text := ""; content_len := 40;
                        json := Some (JObj (<["countryCode" := JStr "FR"]>
                                             (<["city" := JStr "Paris"]> ∅))) |}
    | _ => Returned {| status_code := 200; text := "203.0.113.7";
                       content_len := 50000; json := None |}
    end;
  time_time := fun h => (inject_Z (Z.of_nat (length h)) * (1 # 4))%Q;
  run_returncode := fun _ _ => 0;
  random_randint := fun _ _ _ => 0
|}.

Definition log_france : Log :=
  Eval vm_compute in
    snd (get_ip_and_location 9050 env_france (snd (launch None inst_us false env_france []))).

(** ** ThroughputProbe: failed downloads, status checks, scenarios *)







(** The round-trip time, in milliseconds, the fallback measures for a
    status check started at log [h]. *)
Definition latency_ms (env : Env) (proxies : list (string * string)) (h : Log) : Q :=
  ((time_time env ((h ++ [EClock]) ++ [EGet status_url proxies 8]) - time_time env h)
   * 1000)%Q.


(** How long each request takes in the scenarios of the fallback: a
    download times out after 12 s, the status checks take 100, 120 and
    110 ms. *)
Fixpoint elapsed (h : Log) (checks : nat) : Q :=
  match h with
  | [] => 0%Q
  | EGet url _ _ :: h' =>
      if String.eqb url status_url
      then (nth checks [1 # 10; 12 # 100; 11 # 100] 0 + elapsed h' (S checks))%Q
      else (12 + elapsed h' checks)%Q
  | _ :: h' => elapsed h' checks
  end.

(** Every download times out; every status check is answered with 200. *)
Definition env_three_pings : Env := {|
  requests_get := fun _ url _ _ =>
    if String.eqb url status_url
    then Returned {| status_code := 200; text := ""; content_len := 0; json := None |}
    else Raised;
  time_time := fun h => (1700000000 + elapsed h 0)%Q;
  run_returncode := fun _ _ => 0;
  random_randint := fun _ _ _ => 0
|}.

Definition log_three_timeouts : Log :=
  Eval vm_compute in snd (download_loop (speed_proxies 9050) test_data env_three_pings []).


Definition latencies_three_pings : list Q :=
  let proxies := speed_proxies 9050 in
  let h1 := log_three_timeouts in
  let h2 := ((h1 ++ [EClock]) ++ [EGet status_url proxies 8]) ++ [EClock] in
  let h3 := ((h2 ++ [EClock]) ++ [EGet status_url proxies 8]) ++ [EClock] in
  [ latency_ms env_three_pings proxies h1;
    latency_ms env_three_pings proxies h2;
    latency_ms env_three_pings proxies h3 ].


(** ** FleetOrchestrator: a run of three attempts *)

(** The exit is in the US; three attempts measure different speeds. *)
Definition env_usa : Env := {|
  requests_get := fun h _ proxies _ =>
    match proxies with
    | [] => Returned {| status_code := 200; text := ""; content_len := 40;
                        json := Some (JObj (<["countryCode" := JStr "us"]>
                                             (<["city" := JStr "Dallas"]> ∅))) |}
    | [_] => Returned {| status_code := 200; text := "";
                         content_len := 50000 - 400 * Z.abs (Z.of_nat (length h) - 31);
                         json := None |}
    | _ => Returned {| status_code := 200; text := "203.0.113.7";
                       content_len := 12; json := None |}
    end;
  time_time := fun h => (inject_Z (Z.of_nat (length h)) * (1 # 4))%Q;
  run_returncode := fun _ _ => 0;
  random_randint := fun _ _ _ => 0
|}.

Definition results_usa : list Result :=
  Eval vm_compute in fst (attempts None inst_us false 3 [] env_usa []).

Definition log_usa : Log :=
  Eval vm_compute in snd (attempts None inst_us false 3 [] env_usa []).

(** ** FleetOrchestrator: the order of a ranking *)

(** [a] may stand directly before [b] in a ranking; both are pairs of
    speed and ping. *)
Definition ranked_before (a b : Q * Z) : Prop :=
  (fst b < fst a)%Q \/ ((fst a == fst b)%Q /\ snd a <= snd b).

(** The speed and ping of the instance object at position [i]. *)
Definition observed (instances : list (string * TorInstance)) (i : nat)
  : option (Q * Z) :=
  entry ← instances !! i;
  s ← speed (snd entry);
  p ← ping (snd entry);
  Some (s, p).


(** The order of the re-test ranking, read through the instance objects
    the ranking refers to. *)
Definition retest_before (instances : list (string * TorInstance)) (i j : nat) : Prop :=
  exists a b,
    observed instances i = Some a /\ observed instances j = Some b /\ ranked_before a b.

(** ** A fleet of three instances *)

Definition inst_us2 : TorInstance := {|
  name := "tor2"; country := "US"; port := 9051;
  data_dir := "/root/tor/tor2"; torrc := "/root/tor/tor2/torrc.conf";
  ip := None; city := None; ping := None; speed := None;
  bridge_type := None; bridge_count := 0; best_results := []
|}.

Definition inst_fr : TorInstance := {|
  name := "tor3"; country := "FR"; port := 9052;
  data_dir := "/root/tor/tor3"; torrc := "/root/tor/tor3/torrc.conf";
  ip := None; city := None; ping := None; speed := None;
  bridge_type := None; bridge_count := 0; best_results := []
|}.

Definition fleet : list (string * TorInstance) :=
  [("tor1", inst_us); ("tor2", inst_us2); ("tor3", inst_fr)].

(** Every exit is in the US; downloads through port 9050 bring 20000
    bytes in half a second, downloads through the other ports 40000. *)
Definition env_fleet : Env := {|
  requests_get := fun _ _ proxies _ =>
    match proxies with
    | [] => Returned {| status_code := 200; text := ""; content_len := 40;
                        json := Some (JObj (<["countryCode" := JStr "us"]>
                                             (<["city" := JStr "Dallas"]> ∅))) |}
    | [(_, proxy)] =>
        Returned {| status_code := 200; text := "";
                    content_len := if String.eqb proxy (socks 9050) then 20000 else 40000;
                    json := None |}
    | _ => Returned {| status_code := 200; text := "203.0.113.7";
                       content_len := 12; json := None |}
    end;
  time_time := fun h => (inject_Z (Z.of_nat (length h)) * (1 # 4))%Q;
  run_returncode := fun _ _ => 0;
  random_randint := fun _ _ _ => 0
|}.

(** ** The re-test pass: scenario *)

Definition log_france_retest : Log :=
  Eval vm_compute in
    snd (get_ip_and_location 9050 env_france ([] ++ [ERun (pgrep_command inst_us)])).

(** ** Bridges and the torrc *)

(** The types the stored bridge lines imply. *)
Definition detected_types (bridge_lines : list string) : gset string :=
  list_to_set (omap detect_bridge_type bridge_lines).

Definition mixed_bridges : string :=
  "obfs4 192.95.36.142:443 CDF2E852BF539B82BD549E1A2AC8D80FE2162864" +:+ PyStr.nl +:+
  "Bridge snowflake 192.0.2.3:80 2B280B23E1107BB62ABFC40DDCC8824814F80A72" +:+ PyStr.nl.

(** *** Lines of a text *)

(** The text made of the given lines, each closed by a line feed. *)
Fixpoint unlines (lines : list string) : string :=
  match lines with
  | [] => ""
  | line :: rest => line +:+ PyStr.nl +:+ unlines rest
  end.

(** *** The torrc, line by line *)

(** The transport-plugin directive of a bridge type, if it has one. *)
Definition plugin_lines (bridge_type : string) : list string :=
  if String.eqb bridge_type "obfs4"
  then ["ClientTransportPlugin obfs4 exec /usr/bin/obfs4proxy"]
  else if String.eqb bridge_type "snowflake"
  then ["ClientTransportPlugin snowflake exec /usr/bin/snowflake-client"]
  else if String.eqb bridge_type "meek-azure"
  then ["ClientTransportPlugin meek_lite exec /usr/bin/meek-client"]
  else if String.eqb bridge_type "webtunnel"
  then ["ClientTransportPlugin webtunnel exec /usr/bin/webtunnel-client"]
  else [].

Definition bridge_section (use_bridges : bool) (bridge_data : BridgeData) : list string :=
  match use_bridges, bridge_data with
  | true, Some (bridge_lines, bridge_type) =>
      ["UseBridges 1"] ++ plugin_lines bridge_type ++ bridge_lines
  | _, _ => []
  end.

Definition head_lines (inst : TorInstance) : list string :=
  [ "SocksPort " +:+ PyStr.of_int (port inst);
    "DataDirectory " +:+ data_dir inst ].

Definition tail_lines (inst : TorInstance) (use_bridges : bool) (circuit_period : Z)
  : list string :=
  [ "ExitNodes {" +:+ country inst +:+ "}";
    "StrictNodes 1";
    "NewCircuitPeriod " +:+ PyStr.of_int circuit_period;
    "MaxCircuitDirtiness 300";
    "CircuitBuildTimeout " +:+ (if use_bridges then "120" else "60");
    "LearnCircuitBuildTimeout 0";
    "NumEntryGuards 3";
    "UseEntryGuards 1" ].

Definition torrc_lines (inst : TorInstance) (use_bridges : bool)
    (bridge_data : BridgeData) (circuit_period : Z) : list string :=
  head_lines inst ++ bridge_section use_bridges bridge_data
    ++ tail_lines inst use_bridges circuit_period.

(** *** Directives *)

(** The lines of a torrc text. *)
Definition directives (text : string) : list string :=
  PyStr.split "010"%char text.

Definition is_exit_restriction (line : string) : bool :=
  PyStr.startswith line "ExitNodes".

Definition is_transport_plugin (line : string) : bool :=
  PyStr.startswith line "ClientTransportPlugin".

Definition is_build_timeout (line : string) : bool :=
  PyStr.startswith line "CircuitBuildTimeout".

(** The four types with a transport plugin. *)
Definition known_bridge_type (bridge_type : string) : bool :=
  existsb (String.eqb bridge_type) ["obfs4"; "snowflake"; "meek-azure"; "webtunnel"].

(** A stored bridge line: one line of text that starts with [Bridge]. *)
Definition wf_bridge_line (line : string) : Prop :=
  PyStr.no_nl line = true /\ PyStr.startswith line "Bridge" = true.

Definition wf_bridge_data (bridge_data : BridgeData) : Prop :=
  match bridge_data with
  | Some (bridge_lines, _) => Forall wf_bridge_line bridge_lines
  | None => True
  end.

Definition obfs4_bridges : BridgeData :=
  Some (["Bridge obfs4 192.95.36.142:443 CDF2E852BF539B82BD549E1A2AC8D80FE2162864"], "obfs4").

(** ** Further vocabulary: requests, cascades that miss, a network that is down *)

(** An HTTP request. *)
Definition is_request (e : Event) : bool :=
  match e with
  | EGet _ _ _ => true
  | _ => false
  end.

(** [sends_at_most P n m]: whatever the environment, [m] only appends
    events that satisfy [P] to the log, at most [n] of them requests. *)
Definition sends_at_most {A} (P : Event -> Prop) (n : nat) (m : IO A) : Prop :=
  forall env h, exists evs,
    snd (m env h) = h ++ evs /\ Forall P evs /\
    (length (List.filter is_request evs) <= n)%nat.

(** What the IP loop for [port'] may log: clock readings, and requests to
    an IP service through the SOCKS proxy of the port with a time-out of
    15 s. *)
Definition ip_event (port' : Z) (e : Event) : Prop :=
  match e with
  | EClock => True
  | EGet url proxies timeout =>
      In url ip_services /\ proxies = ip_proxies port' /\ timeout = 15
  | _ => False
  end.

(** What the geolocation loop may log: requests without a proxy, with a
    time-out of 10 s. *)
Definition geo_event (e : Event) : Prop :=
  match e with
  | EGet url proxies timeout => proxies = [] /\ timeout = 10
  | _ => False
  end.

(** What the download loop for [port'] may log: clock readings, and
    requests for a test file through the SOCKS proxy of the port with a
    time-out of 12 s. *)
Definition download_event (port' : Z) (e : Event) : Prop :=
  match e with
  | EClock => True
  | EGet url proxies timeout =>
      In url (map fst test_data) /\ proxies = speed_proxies port' /\ timeout = 12
  | _ => False
  end.

(** What the fallback for [port'] may log: clock readings, and status
    checks through the SOCKS proxy of the port with a time-out of 8 s. *)
Definition check_event (port' : Z) (e : Event) : Prop :=
  match e with
  | EClock => True
  | EGet url proxies timeout =>
      url = status_url /\ proxies = speed_proxies port' /\ timeout = 8
  | _ => False
  end.

(** The latency, in whole milliseconds, the IP loop measures for a request
    to [service] started at log [h]. *)
Definition ip_ping (env : Env) (proxies : list (string * string)) (service : string)
    (h : Log) : Z :=
  PyNum.int ((time_time env ((h ++ [EClock]) ++ [EGet service proxies 15])
              - time_time env h) * 1000)%Q.

(** The IP loop runs over [services] from log [h] to log [h'] and no
    service gives a text that passes the test: each one raises, or answers
    and leaves its text and latency in the loop variables. *)
Inductive ip_missed (env : Env) (proxies : list (string * string))
  : list string -> option string * Z -> Log -> option string * Z -> Log -> Prop :=
| ip_missed_nil v h : ip_missed env proxies [] v h v h
| ip_missed_raised s rest v h v' h' :
    requests_get env (h ++ [EClock]) s proxies 15 = Raised ->
    ip_missed env proxies rest v ((h ++ [EClock]) ++ [EGet s proxies 15]) v' h' ->
    ip_missed env proxies (s :: rest) v h v' h'
| ip_missed_invalid s rest v h r v' h' :
    requests_get env (h ++ [EClock]) s proxies 15 = Returned r ->
    looks_like_ip (PyStr.strip (text r)) = false ->
    ip_missed env proxies rest
      (Some (PyStr.strip (text r)), ip_ping env proxies s h)
      (((h ++ [EClock]) ++ [EGet s proxies 15]) ++ [EClock]) v' h' ->
    ip_missed env proxies (s :: rest) v h v' h'.

(** The network is down: every request raises. *)
Definition offline (env : Env) : Prop :=
  forall h url proxies timeout, requests_get env h url proxies timeout = Raised.

(** The events of one request that raised, for each URL in turn. *)
Definition raised_requests (urls : list string) (proxies : list (string * string))
    (timeout : Z) : Log :=
  concat (map (fun url => [EClock; EGet url proxies timeout]) urls).

(** The network is down; every command succeeds. *)
Definition env_offline : Env := {|
  requests_get := fun _ _ _ _ => Raised;
  time_time := fun h => (1700000000 + inject_Z (Z.of_nat (length h)))%Q;
  run_returncode := fun _ _ => 0;
  random_randint := fun _ _ _ => 0
|}.

(** The first IP service times out, the second is rate limited, the
    others answer [198.51.100.4]; the first geolocation service answers
    500, the second places the address in Germany and names no city. *)
Definition env_detour : Env := {|
  requests_get := fun _ url proxies _ =>
    match proxies with
    | [] =>
        if String.eqb url "http://ip-api.com/json/198.51.100.4"
        then Returned {| status_code := 500; text := ""; content_len := 0; json := None |}
        else Returned {| status_code := 200; text := ""; content_len := 22;
                         json := Some (JObj (<["country_code" := JStr "de"]> ∅)) |}
    | _ =>
        if String.eqb url "http://api.ipify.org" then Raised
        else if String.eqb url "http://checkip.amazonaws.com"
        then Returned {| status_code := 429; text := "busy"; content_len := 4;
                         json := None |}
        else Returned {| status_code := 200; text := "198.51.100.4" +:+ PyStr.nl;
                         content_len := 13; json := None |}
    end;
  time_time := fun h => (inject_Z (Z.of_nat (length h)) * (1 # 4))%Q;
  run_returncode := fun _ _ => 0;
  random_randint := fun _ _ _ => 0
|}.

(** The log after the two IP services that give no address, after the
    third, and after the first geolocation service. *)
Definition log_detour_missed : Log :=
  Eval vm_compute in
    snd (discover_ip (ip_proxies 9050) (firstn 2 ip_services) None 9999 env_detour []).

Definition log_detour_ip : Log :=
  Eval vm_compute in
    snd (discover_ip (ip_proxies 9050) (firstn 3 ip_services) None 9999 env_detour []).

Definition log_detour_silent : Log :=
  Eval vm_compute in
    snd (locate (firstn 1 location_services) "198.51.100.4" env_detour log_detour_ip).

(** ** The skeleton of an attempt, what a pass may do *)

(** A command that is run, a process that is started, a pause. *)
Definition is_control_event (e : Event) : bool :=
  match e with
  | ERun _ | EPopen _ | ESleep _ => true
  | _ => false
  end.

(** The commands and pauses of one attempt, in their order: stop Tor and
    wait, clean the cache and the state, start Tor and wait for the
    circuit, and pause after the measurements. *)
Definition attempt_control (bridge_data : BridgeData) (inst : TorInstance)
    (use_bridges : bool) : Log :=
  [ ERun ("pkill -f 'tor -f " +:+ torrc inst +:+ "'");
    ESleep 2;
    ERun ("rm -rf " +:+ data_dir inst +:+ "/cached-*");
    ERun ("rm -rf " +:+ data_dir inst +:+ "/state");
    EPopen ("tor -f " +:+ torrc inst);
    ESleep (wait_time use_bridges bridge_data);
    ESleep 2 ].

(** What stays of an instance whatever is measured. *)
Definition configuration (inst : TorInstance)
  : string * string * Z * string * string * option string * Z :=
  (name inst, country inst, port inst, data_dir inst, torrc inst,
   bridge_type inst, bridge_count inst).

Definition fleet_configuration (instances : list (string * TorInstance))
  : list (string * (string * string * Z * string * string * option string * Z)) :=
  map (fun entry => (fst entry, configuration (snd entry))) instances.

(** What the re-test pass may log for a fleet: the liveness check of one of
    its instances, clock readings and requests. *)
Definition retest_event (instances : list (string * TorInstance)) (e : Event) : Prop :=
  match e with
  | ERun cmd => exists entry, In entry instances /\ cmd = pgrep_command (snd entry)
  | EGet _ _ _ | EClock => True
  | _ => False
  end.

(** An instance holds a result: it was searched for the country of the
    result, its observed fields are those of the result, and the result
    is one of its best results. *)
Definition holds_result (inst : TorInstance) (r : Result) : Prop :=
  country inst = r_country r /\
  ip inst = Some (r_ip r) /\
  city inst = Some (r_city r) /\
  ping inst = Some (r_ping r) /\
  speed inst = Some (r_speed r) /\
  In r (best_results inst).

(** The instance that an entry of the ranking refers to is the instance
    of that name, and it holds the ranked result. *)
Definition holds_ranked_result (instances : list (string * TorInstance)) (x : Ranked) : Prop :=
  exists inst,
    instances !! rk_inst x = Some (rk_name x, inst) /\ holds_result inst (rk_result x).

(** The exit is in France as in [env_france], but no Tor process is
    found: every command returns 1. *)
Definition env_stopped : Env := {|
  requests_get := requests_get env_france;
  time_time := time_time env_france;
  run_returncode := fun _ _ => 1;
  random_randint := fun _ _ _ => 0
|}.

(** ** Lines that are typed *)

(** The string has a character that is no white space. *)
Fixpoint has_text (s : string) : bool :=
  match s with
  | EmptyString => false
  | String c t => negb (PyStr.is_space c) || has_text t
  end.

(** The lines of a text that are not blank, each stripped. *)
Definition stripped_lines (lines : list string) : list string :=
  map PyStr.strip (List.filter (fun line => PyStr.truthy (PyStr.strip line)) lines).

(** A manager with the fleet of three instances and no bridges. *)
Definition manager_fleet : Manager.t := {|
  Manager.instances := fleet;
  Manager.bridge_data := None;
  Manager.max_country_retries := 5;
  Manager.test_schedule := None;
  Manager.attempts_per_country := 3
|}.

(** What is typed to configure two bridges: a blank line, the two lines,
    a blank line, and a line that is not read. *)
Definition typed_bridges : list string :=
  [ "  ";
    " obfs4 192.95.36.142:443 CDF2E852BF539B82BD549E1A2AC8D80FE2162864";
    "Bridge obfs4 192.0.2.3:80 2B280B23E1107BB62ABFC40DDCC8824814F80A72 ";
    "";
    "5" ].

(** A stand-in for [pickle.dumps] in the scenarios: it records the names
    of the instances and the number of bridge lines. *)
Definition pickle_names (config : Config) : string :=
  unlines (map fst (c_instances config)) +:+
  match c_bridge_data config with
  | Some (Some bridge_lines, _) => PyStr.of_int (Z.of_nat (length bridge_lines))
  | _ => "-"
  end.

(** The manager after the two bridges were configured. *)
Definition manager_bridged : Manager.t :=
  set_bridge_data manager_fleet
    (Some (Some [ "Bridge obfs4 192.95.36.142:443 CDF2E852BF539B82BD549E1A2AC8D80FE2162864";
                  "Bridge obfs4 192.0.2.3:80 2B280B23E1107BB62ABFC40DDCC8824814F80A72" ],
           Some "obfs4")).

(** ** Counting characters *)

(** How often a character occurs in a string. *)
Fixpoint count_char (c : ascii) (s : string) : nat :=
  match s with
  | EmptyString => O
  | String d t => (if Ascii.eqb d c then 1 else 0) + count_char c t
  end.

(** ** The skeleton of a full run *)

(** The commands and pauses of a full run: for each instance of the
    fleet, in order, those of its attempts. *)
Definition run_control (bridge_data : BridgeData) (attempts_per_country : Z)
    (instances : list (string * TorInstance)) : Log :=
  concat (map (fun entry =>
                 concat (repeat (attempt_control bridge_data (snd entry)
                                   (bridges_active bridge_data))
                           (Z.to_nat attempts_per_country)))
            instances).

(** ** Ties in a ranking *)

Section Stable.
Context {A : Type}.
Variable pos : A -> nat.

(** [q] may follow [p] when a list whose positions increase is sorted
    stably: the key of [q] is not less, and when the keys are equal [q]
    has the greater position. *)
Definition stable_le (p q : (Q * Z) * A) : Prop :=
  key_lt (fst q) (fst p) = false /\
  (key_lt (fst p) (fst q) = false -> (pos (snd p) < pos (snd q))%nat).

(** The same, seen through the key function. *)
Definition key_stable (key : A -> option (Q * Z)) (x y : A) : Prop :=
  exists kx ky,
    key x = Some kx /\ key y = Some ky /\
    (key_lt kx ky = false -> key_lt ky kx = false -> (pos x < pos y)%nat).

End Stable.

(** Two neighbours of the ranking of a full run that have the same speed
    and the same ping are in the order of the fleet. *)
Definition tie_in_fleet_order (a b : Ranked) : Prop :=
  (r_speed (rk_result a) == r_speed (rk_result b))%Q ->
  r_ping (rk_result a) = r_ping (rk_result b) ->
  (rk_inst a < rk_inst b)%nat.

(** The same for the ranking of a re-test pass, read through the
    instance objects. *)
Definition retest_tie_in_fleet_order (instances : list (string * TorInstance))
    (i j : nat) : Prop :=
  forall a b,
    observed instances i = Some a -> observed instances j = Some b ->
    (fst a == fst b)%Q -> snd a = snd b -> (i < j)%nat.
(** * Properties *)

(** ** The Python helpers on examples *)

Example round_two_decimals : (PyNum.round (314159 # 100000) 2 == 314 # 100)%Q.
Proof. reflexivity. Qed.

Example round_tie_to_even : (PyNum.round (1 # 8) 2 == 12 # 100)%Q.
Proof. reflexivity. Qed.

Example int_truncates : PyNum.int (-(7 # 2)) = -3.
Proof. reflexivity. Qed.

Example split_dotted : PyStr.split "."%char "10.0.0.1" = ["10"; "0"; "0"; "1"].
Proof. reflexivity. Qed.

Example strip_line : PyStr.strip ("  1.2.3.4 " +:+ PyStr.nl) = "1.2.3.4".
Proof. reflexivity. Qed.

Example format_url :
  PyStr.format_ip "1.2.3.4" 0 "https://ipapi.co/{ip}/json/" = "https://ipapi.co/1.2.3.4/json/".
Proof. reflexivity. Qed.

(** ** The log *)

Lemma emits_ret {A} P (a : A) : emits P (ret a).
Proof. intros env h. exists []. simpl. rewrite app_nil_r. auto. Qed.

Lemma emits_bind {A B} P (m : IO A) (k : A -> IO B) :
  emits P m -> (forall a, emits P (k a)) -> emits P (bind m k).
Proof.
  intros Hm Hk env h. unfold bind.
  destruct (Hm env h) as [evs1 [E1 F1]].
  destruct (m env h) as [a h1]. simpl in E1. subst h1.
  destruct (Hk a env (h ++ evs1)) as [evs2 [E2 F2]].
  exists (evs1 ++ evs2). rewrite E2, app_assoc. split; [reflexivity|].
  apply Forall_app; auto.
Qed.

Lemma emits_one {A} (P : Event -> Prop) (f : Env -> Log -> A) (e : Event) :
  P e -> emits P (fun env h => (f env h, h ++ [e])).
Proof. intros He env h. exists [e]. simpl. auto. Qed.

Lemma emits_http_get P u p t : P (EGet u p t) -> emits P (http_get u p t).
Proof. apply emits_one. Qed.

Lemma emits_now P : P EClock -> emits P now.
Proof. apply emits_one. Qed.

Lemma emits_sleep P n : P (ESleep n) -> emits P (sleep n).
Proof. apply (emits_one P (fun _ _ => tt)). Qed.

Lemma emits_run P c : P (ERun c) -> emits P (run c).
Proof. apply emits_one. Qed.

Lemma emits_popen P c : P (EPopen c) -> emits P (popen c).
Proof. apply (emits_one P (fun _ _ => tt)). Qed.

Lemma emits_randint P lo hi : P (ERandint lo hi) -> emits P (randint lo hi).
Proof. apply emits_one. Qed.

Lemma emits_mkdir P p : P (EMkdir p) -> emits P (mkdir p).
Proof. apply (emits_one P (fun _ _ => tt)). Qed.

Lemma emits_write_file P p c : P (EWrite p c) -> emits P (write_file p c).
Proof. apply (emits_one P (fun _ _ => tt)). Qed.

Lemma emits_discover_ip (P : Event -> Prop) proxies services ip ping_time :
  P EClock -> (forall s, In s services -> P (EGet s proxies 15)) ->
  emits P (discover_ip proxies services ip ping_time).
Proof.
  intros Hc. revert ip ping_time.
  induction services as [|s rest IH]; intros ip ping_time Hg; simpl.
  - apply emits_ret.
  - apply emits_bind; [apply emits_now; exact Hc|]. intros start_time.
    apply emits_bind; [apply emits_http_get, Hg; left; reflexivity|].
    intros [|resp].
    + apply IH. intros s' Hs'. apply Hg. right. exact Hs'.
    + apply emits_bind; [apply emits_now; exact Hc|]. intros t.
      destruct (looks_like_ip _).
      * apply emits_ret.
      * apply IH. intros s' Hs'. apply Hg. right. exact Hs'.
Qed.

Lemma emits_locate (P : Event -> Prop) services ip' :
  (forall s, In s services -> P (EGet (geo_url s ip') [] 10)) ->
  emits P (locate services ip').
Proof.
  induction services as [|s rest IH]; intros Hg; simpl.
  - apply emits_ret.
  - apply emits_bind; [apply emits_http_get, Hg; left; reflexivity|].
    intros o. destruct (geo_answer s o).
    + apply emits_ret.
    + apply IH. intros s' Hs'. apply Hg. right. exact Hs'.
Qed.

Lemma geo_url_not_throughput s ip' :
  In s location_services -> is_throughput_request (EGet (geo_url s ip') [] 10) = false.
Proof.
  intros Hs. simpl in Hs.
  destruct Hs as [<-|[<-|[<-|[<-|[]]]]]; vm_compute; reflexivity.
Qed.

Lemma ip_service_not_throughput s p :
  In s ip_services -> is_throughput_request (EGet s p 15) = false.
Proof.
  intros Hs. simpl in Hs.
  destruct Hs as [<-|[<-|[<-|[<-|[<-|[]]]]]]; reflexivity.
Qed.

(** Identity resolution never sends a request of the throughput probe. *)
Lemma emits_get_ip_and_location port' :
  emits (fun e => is_throughput_request e = false) (get_ip_and_location port').
Proof.
  unfold get_ip_and_location.
  apply emits_bind.
  - apply emits_discover_ip; [reflexivity|]. intros s Hs.
    apply ip_service_not_throughput, Hs.
  - intros [[ip'|] ping_time]; [|apply emits_ret].
    destruct (negb (PyStr.truthy ip')); [apply emits_ret|].
    apply emits_bind.
    + apply emits_locate. intros s Hs. apply geo_url_not_throughput, Hs.
    + intros [[c ci]|]; apply emits_ret.
Qed.

(** Launching an instance sends no HTTP request at all. *)
Lemma emits_launch bridge_data inst use_bridges :
  emits (fun e => is_throughput_request e = false) (launch bridge_data inst use_bridges).
Proof.
  unfold launch, stop_instance, create_torrc.
  repeat first
    [ apply emits_bind; [|intros ?]
    | apply emits_run | apply emits_sleep | apply emits_popen
    | apply emits_randint | apply emits_mkdir | apply emits_write_file
    | reflexivity ].
Qed.

(** ** IdentityResolver *)

Lemma locate_exhausted env ip' services h h' :
  geo_exhausted env ip' services h h' -> locate services ip' env h = (None, h').
Proof.
  induction 1 as [h|s rest h h' Hans _ IH]; [reflexivity|].
  simpl. unfold bind, http_get. rewrite Hans. exact IH.
Qed.

Lemma length_upper x : String.length (PyStr.upper x) = String.length x.
Proof.
  unfold PyStr.upper. induction x as [|a x IH]; simpl; [reflexivity|].
  rewrite IH. reflexivity.
Qed.

(** A usable answer is an HTTP 200 whose JSON object holds, under the
    country key of the service, a string of two characters. *)
Lemma geo_answer_Some s o c ci :
  geo_answer s o = Some (c, ci) ->
  exists r data raw,
    o = Returned r /\ status_code r = 200 /\ json r = Some (JObj data) /\
    data !! country_key s = Some (JStr raw) /\ String.length raw = 2%nat /\
    c = PyStr.upper raw /\ ci = default (JStr "Unknown") (data !! city_key s).
Proof.
  unfold geo_answer. destruct o as [|r]; [discriminate|].
  destruct (status_code r =? 200) eqn:Hst; [|discriminate].
  destruct (json r) as [[| | | | |data]|] eqn:Hj; try discriminate.
  destruct (data !! country_key s) as [[| | |raw| |]|] eqn:Hc; simpl; try discriminate.
  destruct (PyStr.truthy (PyStr.upper raw) && _) eqn:Hlen; [|discriminate].
  intros [= <- <-]. exists r, data, raw.
  apply andb_prop in Hlen as [_ Hlen].
  rewrite length_upper in Hlen.
  apply Z.eqb_eq in Hst, Hlen.
  repeat split; try reflexivity; try assumption. lia.
Qed.

(** When no service left a non-empty text, resolution fails on the spot:
    the log ends where the IP loop ended. *)
Lemma resolution_fails_without_text env port' h :
  let found := discover_ip (ip_proxies port') ip_services None 9999 env h in
  fst (fst found) = None \/ fst (fst found) = Some "" ->
  get_ip_and_location port' env h = ((None, "Error", JStr "No IP", 9999), snd found).
Proof.
  unfold get_ip_and_location, bind. cbv zeta.
  destruct (discover_ip (ip_proxies port') ip_services None 9999 env h)
    as [[ip' ping_time] h1].
  simpl. intros [->| ->]; reflexivity.
Qed.

(** The IP loop sends no geolocation request. *)
Lemma discover_ip_no_geolocation port' ip' ping_time :
  emits (fun e => is_geolocation_request e = false)
    (discover_ip (ip_proxies port') ip_services ip' ping_time).
Proof. apply emits_discover_ip; reflexivity. Qed.

(** C3 (the code at the failing input): no IP service returns a text that
    passes the dotted-quad test, yet [get_ip_and_location] does not fail:
    the text of the last service that answered is kept as the address, the
    four geolocation services are queried with it, and it is returned. *)
Theorem invalid_answers_reach_geolocation :
  looks_like_ip (PyStr.strip "Too Many Requests") = false /\
  id_ip (fst (get_ip_and_location 9050 env_rate_limited [])) = Some "Too Many Requests" /\
  id_country (fst (get_ip_and_location 9050 env_rate_limited [])) = "Unknown" /\
  List.filter is_geolocation_request (snd (get_ip_and_location 9050 env_rate_limited []))
  = [ EGet "http://ip-api.com/json/Too Many Requests" [] 10;
      EGet "https://ipapi.co/Too Many Requests/json/" [] 10;
      EGet "http://ipwho.is/Too Many Requests" [] 10;
      EGet "http://www.geoplugin.net/json.gp?ip=Too Many Requests" [] 10 ].
Proof. vm_compute. repeat split. Qed.

(** C8: when the IP loop ends with a non-empty address and no geolocation
    service gives a usable answer (an HTTP 200 carrying a two-character
    country), the result is the discovered address and its latency with
    the country and the city both ["Unknown"]. *)
Theorem geolocation_exhausted_keeps_address env port' h ip' ping_time h1 h2 :
  discover_ip (ip_proxies port') ip_services None 9999 env h = ((Some ip', ping_time), h1) ->
  PyStr.truthy ip' = true ->
  geo_exhausted env ip' location_services h1 h2 ->
  get_ip_and_location port' env h
  = ((Some ip', "Unknown", JStr "Unknown", ping_time), h2).
Proof.
  intros Hd Ht Hg. unfold get_ip_and_location, bind.
  rewrite Hd. cbv beta iota. rewrite Ht. cbv beta iota delta [negb].
  rewrite (locate_exhausted _ _ _ _ _ Hg). reflexivity.
Qed.

Lemma geolocation_exhausted_keeps_address_witness :
  get_ip_and_location 9050 env_geo_silent []
  = ((Some "203.0.113.7", "Unknown", JStr "Unknown", 600), log_geo_silent).
Proof.
  apply (geolocation_exhausted_keeps_address env_geo_silent 9050 [] "203.0.113.7" 600
           log_geo_silent_ip log_geo_silent).
  - vm_compute. reflexivity.
  - reflexivity.
  - repeat (apply geo_exhausted_cons; [vm_compute; reflexivity|]).
    apply geo_exhausted_nil.
Defined.

(** ** AttemptRunner *)

Lemma accepted_false inst id :
  id_ip id = None \/ id_country id <> country inst -> accepted inst id = false.
Proof.
  destruct id as [[[ip' c] ci] p]. unfold id_ip, id_country. simpl.
  intros [->|Hc]; [reflexivity|].
  destruct ip' as [ip'|]; [|reflexivity].
  destruct (String.eqb_spec c (country inst)) as [E|_]; [contradiction|].
  apply andb_false_r.
Qed.

(** C4 (amended): when identity resolution fails, or the resolved country
    is not the country of the instance, the attempt records nothing (the
    results collected so far are returned unchanged) and [test_speed] is
    not invoked: after the resolution the attempt only sleeps, and no
    request of the throughput probe is sent during the whole attempt. *)
Theorem rejected_attempt_skips_speed_test env bridge_data inst use_bridges results h :
  let h1 := snd (launch bridge_data inst use_bridges env h) in
  let id := fst (get_ip_and_location (port inst) env h1) in
  let h2 := snd (get_ip_and_location (port inst) env h1) in
  id_ip id = None \/ id_country id <> country inst ->
  attempt bridge_data inst use_bridges results env h = (results, h2 ++ [ESleep 2]) /\
  exists evs, h2 ++ [ESleep 2] = h ++ evs /\
              Forall (fun e => is_throughput_request e = false) evs.
Proof.
  intros h1 id h2 Hrej. apply accepted_false in Hrej.
  destruct (emits_launch bridge_data inst use_bridges env h) as [evs1 [E1 F1]].
  fold h1 in E1.
  destruct (emits_get_ip_and_location (port inst) env h1) as [evs2 [E2 F2]].
  fold h2 in E2.
  split.
  - unfold attempt, probe, bind.
    destruct (launch bridge_data inst use_bridges env h) as [[] h1'] eqn:Hl.
    simpl in h1. subst h1.
    destruct (get_ip_and_location (port inst) env h1') as [id' h2'] eqn:Hg.
    simpl in id, h2. subst id h2.
    destruct id' as [[[ip' c] ci] p]. rewrite Hrej. reflexivity.
  - exists (evs1 ++ evs2 ++ [ESleep 2]).
    rewrite E2, E1, <- !app_assoc. split; [reflexivity|].
    repeat (apply Forall_app; split); auto.
Qed.

Lemma rejected_attempt_skips_speed_test_witness :
  attempt None inst_us false [] env_france [] = ([], log_france ++ [ESleep 2]) /\
  exists evs, log_france ++ [ESleep 2] = [] ++ evs /\
              Forall (fun e => is_throughput_request e = false) evs.
Proof.
  apply (rejected_attempt_skips_speed_test env_france None inst_us false [] []).
  right. vm_compute. discriminate.
Defined.

(** C4 (counterexample): in an attempt for a US instance whose exit
    resolves to FR, no result at all is recorded: the list of results is
    still empty after the attempt, so there is no entry marked as failed. *)
Lemma rejected_attempt_leaves_no_record :
  id_country (fst (get_ip_and_location 9050 env_france
                     (snd (launch None inst_us false env_france [])))) = "FR" /\
  country inst_us = "US" /\
  ~ exists r : Result, In r (fst (attempt None inst_us false [] env_france [])).
Proof.
  split; [vm_compute; reflexivity|]. split; [reflexivity|].
  intros [r Hr]. vm_compute in Hr. exact Hr.
Qed.

(** ** Numbers *)

Lemma ltb_lt a b : PyNum.ltb a b = true <-> (a < b)%Q.
Proof.
  unfold PyNum.ltb. rewrite negb_true_iff. split.
  - intros E. apply Qnot_le_lt. intros H. apply Qle_bool_iff in H. congruence.
  - intros H. destruct (Qle_bool b a) eqn:E; [|reflexivity].
    apply Qle_bool_iff in E. lra.
Qed.

Lemma ltb_ge a b : PyNum.ltb a b = false <-> (b <= a)%Q.
Proof.
  unfold PyNum.ltb. rewrite negb_false_iff. apply Qle_bool_iff.
Qed.

Lemma max_lower_bound a b : (a <= PyNum.max a b)%Q.
Proof.
  unfold PyNum.max. destruct (PyNum.ltb a b) eqn:E.
  - apply ltb_lt in E. lra.
  - lra.
Qed.


(** How [round_half_even] decides between the floor and its successor. *)
Lemma round_half_even_cases x :
  (PyNum.round_half_even x = Qfloor x /\ (x - inject_Z (Qfloor x) <= 1 # 2)%Q) \/
  (PyNum.round_half_even x = Qfloor x + 1 /\
   ((1 # 2) <= x - inject_Z (Qfloor x))%Q /\
   ((x - inject_Z (Qfloor x) == 1 # 2)%Q -> Z.even (Qfloor x) = false)).
Proof.
  unfold PyNum.round_half_even.
  destruct (Qcompare_spec (x - inject_Z (Qfloor x)) (1 # 2)) as [E|L|G].
  - destruct (Z.even (Qfloor x)) eqn:Hev.
    + left. split; [reflexivity|]. rewrite E. apply Qle_refl.
    + right. split; [reflexivity|]. split; [rewrite E; apply Qle_refl|].
      intros _. reflexivity.
  - left. split; [reflexivity|]. apply Qlt_le_weak, L.
  - right. split; [reflexivity|]. split; [apply Qlt_le_weak, G|].
    intros E. rewrite E in G. exfalso. revert G. apply Qlt_irrefl.
Qed.

Lemma round_half_even_mono x y :
  (x <= y)%Q -> PyNum.round_half_even x <= PyNum.round_half_even y.
Proof.
  intros Hxy.
  pose proof (Qfloor_resp_le x y Hxy) as Hf.
  destruct (round_half_even_cases x) as [[Ex Dx]|[Ex [Dx Ox]]];
  destruct (round_half_even_cases y) as [[Ey Dy]|[Ey [Dy Oy]]];
  rewrite Ex, Ey; try lia.
  destruct (Z.eq_dec (Qfloor x) (Qfloor y)) as [E|NE]; [|lia].
  exfalso. rewrite E in *.
  assert (Hd : (x - inject_Z (Qfloor y) == 1 # 2)%Q) by lra.
  assert (Hd' : (y - inject_Z (Qfloor y) == 1 # 2)%Q) by lra.
  specialize (Ox Hd).
  unfold PyNum.round_half_even in Ey.
  destruct (Qcompare_spec (y - inject_Z (Qfloor y)) (1 # 2)) as [E'|L|G]; try lra.
  rewrite Ox in Ey. lia.
Qed.

Lemma scale_pos n : (0 < inject_Z (10 ^ Z.of_nat n))%Q.
Proof.
  change 0%Q with (inject_Z 0). rewrite <- Zlt_Qlt. apply Z.pow_pos_nonneg; lia.
Qed.

(** [round(x, n)] is monotone in [x]. *)
Lemma round_mono x y n : (x <= y)%Q -> (PyNum.round x n <= PyNum.round y n)%Q.
Proof.
  intros Hxy. unfold PyNum.round.
  pose proof (scale_pos n) as Hs.
  apply Qmult_le_compat_r.
  - rewrite <- Zle_Qle. apply round_half_even_mono.
    apply Qmult_le_compat_r; [exact Hxy|apply Qlt_le_weak, Hs].
  - apply Qlt_le_weak, Qinv_lt_0_compat, Hs.
Qed.

(** The estimate of the fallback is at least the floor of 0.1 Mbps. *)
Lemma estimate_of_floor avg_ping : (1 # 10 <= estimate_of avg_ping)%Q.
Proof.
  unfold estimate_of.
  assert (E : (PyNum.round (1 # 10) 1 == 1 # 10)%Q) by reflexivity.
  rewrite <- E at 1. apply round_mono, max_lower_bound.
Qed.


(** ** ThroughputProbe *)










Example latencies_three_pings_values :
  Forall2 Qeq latencies_three_pings [100; 120; 110]%Q.
Proof. repeat constructor. Qed.



(** ** FleetOrchestrator: the best result of one instance *)

Lemma max_by_spec {A} (key : A -> Q) (rest : list A) (first : A) :
  In (max_by key first rest) (first :: rest) /\
  (key first <= key (max_by key first rest))%Q /\
  Forall (fun x => (key x <= key (max_by key first rest))%Q) rest.
Proof.
  unfold max_by. revert first.
  induction rest as [|x rest IH]; intros first; simpl.
  - split; [left; reflexivity|]. split; [apply Qle_refl|constructor].
  - destruct (PyNum.ltb (key first) (key x)) eqn:E.
    + apply ltb_lt in E. destruct (IH x) as [Hin [Hle Hall]].
      split; [right; exact Hin|]. split; [lra|]. constructor; assumption.
    + apply ltb_ge in E. destruct (IH first) as [Hin [Hle Hall]].
      split; [destruct Hin as [<-|Hin]; [left; reflexivity|right; right; exact Hin]|].
      split; [exact Hle|]. constructor; [lra|exact Hall].
Qed.

(** Every result collected by the attempts of an instance matched its
    country: only accepted attempts are recorded. *)
Lemma attempts_collect_accepted env bridge_data inst use_bridges n results h :
  Forall (fun r => r_country r = country inst) results ->
  Forall (fun r => r_country r = country inst)
    (fst (attempts bridge_data inst use_bridges n results env h)).
Proof.
  revert results h. induction n as [|n IH]; intros results h Hres; [exact Hres|].
  simpl. unfold bind at 1.
  destruct (attempt bridge_data inst use_bridges results env h) as [results' h1] eqn:Ha.
  apply IH.
  unfold attempt, probe, bind in Ha.
  destruct (launch bridge_data inst use_bridges env h) as [[] h0].
  destruct (get_ip_and_location (port inst) env h0) as [[[[ip' c] ci] p] h2].
  destruct (accepted inst (ip', c, ci, p)) eqn:Hacc.
  - destruct (test_speed (port inst) env h2) as [s h3].
    simpl in Ha. injection Ha as <- _.
    apply Forall_app. split; [exact Hres|]. constructor; [|constructor].
    simpl. unfold accepted in Hacc. destruct ip' as [ip'|]; [|discriminate].
    apply andb_prop in Hacc as [_ Hc]. apply String.eqb_eq, Hc.
  - simpl in Ha. injection Ha as <- _. exact Hres.
Qed.

(** C1: when the attempts of an instance collected at least one result,
    [find_fastest_ip_for_instance] returns a collected result whose speed
    no collected result exceeds, and the instance leaves with its [ip],
    [city], [ping] and [speed] taken from that result (and with the
    collected results as its [best_results]). *)
Theorem best_result_has_maximum_speed
    env bridge_data inst use_bridges max_attempts h results h' :
  attempts bridge_data inst use_bridges (Z.to_nat max_attempts) [] env h = (results, h') ->
  results <> [] ->
  exists best inst',
    find_fastest_ip_for_instance bridge_data inst use_bridges max_attempts env h
    = ((Some best, inst'), h') /\
    In best results /\
    Forall (fun r => (r_speed r <= r_speed best)%Q) results /\
    ip inst' = Some (r_ip best) /\ city inst' = Some (r_city best) /\
    ping inst' = Some (r_ping best) /\ speed inst' = Some (r_speed best) /\
    best_results inst' = results.
Proof.
  intros Hrun Hne. unfold find_fastest_ip_for_instance, bind. rewrite Hrun.
  destruct results as [|first rest]; [contradiction|].
  destruct (max_by_spec r_speed rest first) as [Hin [Hle Hall]].
  eexists. eexists. split; [reflexivity|].
  split; [exact Hin|]. split; [constructor; assumption|].
  repeat split.
Qed.

Example results_usa_speeds :
  Forall2 Qeq (map r_speed results_usa) [69 # 100; 80 # 100; 69 # 100]%Q.
Proof. repeat constructor. Qed.

Lemma best_result_has_maximum_speed_witness :
  exists best inst',
    find_fastest_ip_for_instance None inst_us false 3 env_usa []
    = ((Some best, inst'), log_usa) /\
    In best results_usa /\
    Forall (fun r => (r_speed r <= r_speed best)%Q) results_usa /\
    ip inst' = Some (r_ip best) /\ city inst' = Some (r_city best) /\
    ping inst' = Some (r_ping best) /\ speed inst' = Some (r_speed best) /\
    best_results inst' = results_usa.
Proof.
  apply (best_result_has_maximum_speed env_usa None inst_us false 3 [] results_usa log_usa).
  - vm_compute. reflexivity.
  - discriminate.
Defined.

(** ** FleetOrchestrator: the ranking *)

Lemma key_lt_false_ranked sa pa sb pb :
  key_lt ((- sb)%Q, pb) ((- sa)%Q, pa) = false -> ranked_before (sa, pa) (sb, pb).
Proof.
  unfold key_lt, ranked_before, PyNum.eqb. simpl.
  destruct (Qeq_bool (- sb) (- sa)) eqn:E.
  - apply Qeq_bool_iff in E. intros H. right. split; [lra|].
    destruct (pb =? pa) eqn:Ep; [apply Z.eqb_eq in Ep; lia|].
    apply Z.ltb_ge in H. exact H.
  - apply Qeq_bool_neq in E. intros H. apply ltb_ge in H. left.
    destruct (Qlt_le_dec sb sa) as [L|G]; [exact L|].
    exfalso. apply E. lra.
Qed.

Lemma key_lt_asym a b : key_lt a b = true -> key_lt b a = false.
Proof.
  unfold key_lt, PyNum.eqb.
  destruct (Qeq_bool (fst a) (fst b)) eqn:E.
  - apply Qeq_bool_iff in E.
    assert (E' : Qeq_bool (fst b) (fst a) = true) by (apply Qeq_bool_iff; lra).
    rewrite E'. rewrite (Z.eqb_sym (snd b)).
    destruct (snd a =? snd b); [discriminate|].
    intros H. apply Z.ltb_lt in H. apply Z.ltb_ge. lia.
  - apply Qeq_bool_neq in E.
    destruct (Qeq_bool (fst b) (fst a)) eqn:E'.
    + apply Qeq_bool_iff in E'. exfalso. apply E. lra.
    + intros H. apply ltb_lt in H. apply ltb_ge. lra.
Qed.

Section SortFacts.
Context {A : Type}.

Lemma insert_keyed_hd (a x : (Q * Z) * A) l :
  HdRel keyed_le a l -> keyed_le a x -> HdRel keyed_le a (insert_keyed x l).
Proof.
  intros Hl Hx. destruct l as [|y l]; simpl; [constructor; exact Hx|].
  destruct (key_lt (fst y) (fst x)); constructor; [|exact Hx].
  inversion Hl; assumption.
Qed.

Lemma insert_keyed_sorted (x : (Q * Z) * A) l :
  Sorted keyed_le l -> Sorted keyed_le (insert_keyed x l).
Proof.
  induction 1 as [|y l Hs IH Hhd]; simpl.
  - repeat constructor.
  - destruct (key_lt (fst y) (fst x)) eqn:E.
    + constructor; [exact IH|]. apply insert_keyed_hd; [exact Hhd|].
      apply key_lt_asym, E.
    + constructor; [constructor; assumption|]. constructor. exact E.
Qed.

Lemma sort_keyed_sorted (l : list ((Q * Z) * A)) : Sorted keyed_le (sort_keyed l).
Proof.
  induction l as [|x l IH]; simpl; [constructor|]. apply insert_keyed_sorted, IH.
Qed.

Lemma insert_keyed_perm (x : (Q * Z) * A) l : Permutation (insert_keyed x l) (x :: l).
Proof.
  induction l as [|y l IH]; simpl; [reflexivity|].
  destruct (key_lt (fst y) (fst x)); [|reflexivity].
  rewrite IH. apply perm_swap.
Qed.

Lemma sort_keyed_perm (l : list ((Q * Z) * A)) : Permutation (sort_keyed l) l.
Proof.
  induction l as [|x l IH]; simpl; [reflexivity|].
  rewrite insert_keyed_perm, IH. reflexivity.
Qed.

Lemma sorted_undecorate (key : A -> option (Q * Z)) (l : list ((Q * Z) * A)) :
  Forall (fun p => key (snd p) = Some (fst p)) l ->
  Sorted keyed_le l -> Sorted (key_sorted key) (map snd l).
Proof.
  intros Hkeys Hs. induction Hs as [|x l Hs IH Hhd]; simpl; [constructor|].
  inversion Hkeys as [|? ? Hx Hl]; subst.
  constructor; [apply IH, Hl|].
  destruct Hhd as [|y l Hxy]; simpl; constructor.
  inversion Hl as [|? ? Hy _]; subst.
  exists (fst x), (fst y). auto.
Qed.

Lemma decorate_spec (key : A -> option (Q * Z)) (l : list A) keyed :
  mapM (fun x => k ← key x; Some (k, x)) l = Some keyed ->
  map snd keyed = l /\ Forall (fun p => key (snd p) = Some (fst p)) keyed.
Proof.
  intros H. apply mapM_Some in H.
  induction H as [|x p l keyed Hx _ IH]; [split; constructor|].
  destruct IH as [IH1 IH2].
  destruct (key x) as [k|] eqn:Hk; simpl in Hx; [|discriminate].
  injection Hx as <-. simpl. split; [f_equal; exact IH1|].
  constructor; [exact Hk|exact IH2].
Qed.

(** [list.sort]: the result is a rearrangement of the list, and each
    element's key is not less than the key of the element before it. *)
Lemma list_sort_spec (key : A -> option (Q * Z)) (l l' : list A) :
  list_sort key l = Some l' ->
  Permutation l' l /\ Sorted (key_sorted key) l'.
Proof.
  unfold list_sort. intros H.
  destruct (mapM _ l) as [keyed|] eqn:Hm; simpl in H; [|discriminate].
  injection H as <-.
  destruct (decorate_spec key l keyed Hm) as [Hl Hkeys].
  split.
  - rewrite <- Hl. apply Permutation_map, sort_keyed_perm.
  - apply sorted_undecorate; [|apply sort_keyed_sorted].
    eapply Permutation_Forall; [|exact Hkeys].
    symmetry. apply sort_keyed_perm.
Qed.

(** The sort raises only if some key cannot be computed. *)
Lemma list_sort_total (key : A -> option (Q * Z)) (l : list A) :
  Forall (fun x => is_Some (key x)) l -> is_Some (list_sort key l).
Proof.
  intros H. unfold list_sort.
  assert (Hm : is_Some (mapM (fun x => k ← key x; Some (k, x)) l)).
  { apply mapM_is_Some. eapply Forall_impl; [exact H|].
    intros x [k Hk]. exists (k, x). cbv beta. rewrite Hk. reflexivity. }
  destruct Hm as [keyed Hm]. rewrite Hm. eexists. reflexivity.
Qed.

End SortFacts.

Lemma retest_key_observed instances i :
  retest_key instances i = (fun a => ((- fst a)%Q, snd a)) <$> observed instances i.
Proof.
  unfold retest_key, observed.
  destruct (instances !! i) as [entry|]; simpl; [|reflexivity].
  destruct (speed (snd entry)); simpl; [|reflexivity].
  destruct (ping (snd entry)); reflexivity.
Qed.

(** Identity resolution returns an address only if it is not empty. *)
Lemma get_ip_and_location_truthy env port' h ip' c ci p h' :
  get_ip_and_location port' env h = ((Some ip', c, ci, p), h') -> PyStr.truthy ip' = true.
Proof.
  unfold get_ip_and_location, bind.
  destruct (discover_ip _ _ _ _ env h) as [[[ip0|] pt] h1]; [|discriminate].
  destruct (PyStr.truthy ip0) eqn:Ht; cbv beta iota delta [negb]; [|discriminate].
  destruct (locate location_services ip0 env h1) as [[[c0 ci0]|] h2];
    intros H; inversion H; subst; exact Ht.
Qed.

(** What one step of the re-test loop does to the instance and to
    [results], whatever the country that was resolved. *)
Lemma test_instance_cases env inst i results h :
  let r := test_instance inst i results env h in
  (fst r = (inst, results)) \/
  (exists ip' ci p s, fst r = (set_observed inst ip' ci p s, results ++ [i])).
Proof.
  unfold test_instance, check_instance_running, run, bind, ret. simpl.
  destruct (run_returncode env h _ =? 0); [|left; reflexivity].
  destruct (get_ip_and_location (port inst) env _) as [[[[ip' c] ci] p] h2].
  destruct ip' as [ip'|]; [|left; reflexivity].
  destruct (PyStr.truthy ip'); [|left; reflexivity].
  destruct (test_speed (port inst) env h2) as [s h3].
  right. exists ip', ci, p, s. reflexivity.
Qed.

(** The loop keeps the results it was given and appends positions of
    instances whose speed and ping are set when the loop ends. *)
Lemma test_loop_appends env items i results h items' results' h' :
  test_loop items i results env h = ((items', results'), h') ->
  length items' = length items /\
  exists new,
    results' = results ++ new /\
    Forall (fun j => exists k, j = (i + k)%nat /\ is_Some (observed items' k)) new.
Proof.
  revert i results h items' results' h'.
  induction items as [|[name' inst] rest IH]; intros i results h items' results' h' Hrun.
  - injection Hrun as <- <- _. split; [reflexivity|]. exists []. rewrite app_nil_r. auto.
  - simpl in Hrun. unfold bind at 1 in Hrun.
    pose proof (test_instance_cases env inst i results h) as Hstep.
    destruct (test_instance inst i results env h) as [[inst1 results1] h1].
    simpl in Hstep. unfold bind at 1 in Hrun.
    destruct (test_loop rest (S i) results1 env h1) as [[rest' results2] h2] eqn:Htail.
    injection Hrun as <- <- _.
    destruct (IH _ _ _ _ _ _ Htail) as [Hlen [new [Hres Hnew]]].
    split; [simpl; f_equal; exact Hlen|].
    assert (Hshift : Forall (fun j => exists k, j = (i + k)%nat /\
              is_Some (observed ((name', inst1) :: rest') k)) new).
    { eapply Forall_impl; [exact Hnew|]. intros j [k [-> Hk]].
      exists (S k). split; [lia|exact Hk]. }
    destruct Hstep as [E|[ip' [ci [p [s E]]]]]; injection E as -> ->.
    + exists new. split; [exact Hres|exact Hshift].
    + exists (i :: new). rewrite Hres, <- app_assoc. split; [reflexivity|].
      constructor; [|exact Hshift].
      exists 0%nat. split; [lia|]. eexists. reflexivity.
Qed.

Lemma Sorted_weaken {A} (R R' : A -> A -> Prop) (l : list A) :
  (forall x y, R x y -> R' x y) -> Sorted R l -> Sorted R' l.
Proof.
  intros HR. induction 1 as [|x l Hs IH Hhd]; constructor; [exact IH|].
  destruct Hhd; constructor. apply HR. assumption.
Qed.


Lemma retest_key_sorted instances i j :
  key_sorted (retest_key instances) i j -> retest_before instances i j.
Proof.
  intros [kx [ky [Hx [Hy Hlt]]]]. rewrite retest_key_observed in Hx, Hy.
  destruct (observed instances i) as [[sa pa]|] eqn:Ha; [|discriminate].
  destruct (observed instances j) as [[sb pb]|] eqn:Hb; [|discriminate].
  simpl in Hx, Hy. injection Hx as <-. injection Hy as <-.
  exists (sa, pa), (sb, pb).
  split; [exact Ha|]. split; [exact Hb|]. apply key_lt_false_ranked, Hlt.
Qed.


(** A full run of the fleet, two attempts each: [tor3] wants a French
    exit and is left out, [tor2] is faster and comes first. *)
Example fleet_full_run :
  option_map (map (fun x => (rk_name x, rk_inst x)))
    (snd (fst (start_all_instances_with_best_ips None 2 fleet env_fleet [])))
  = Some [("tor2", 1%nat); ("tor1", 0%nat)].
Proof. vm_compute. reflexivity. Qed.

(** A re-test pass over the same fleet: all three are ranked, the two
    equally fast ones in the order of the fleet. *)
Example fleet_retest :
  snd (fst (test_all_instances fleet env_fleet [])) = Some [1%nat; 2%nat; 0%nat].
Proof. vm_compute. reflexivity. Qed.

(** ** The re-test pass *)

(** The ranking of the pass, from the outcome of its loop: the positions
    the loop collected, rearranged and sorted. *)
Lemma test_all_instances_ranking env instances h instances' results h' :
  test_loop instances 0 [] env h = ((instances', results), h') ->
  exists ranking,
    test_all_instances instances env h = ((instances', Some ranking), h') /\
    Permutation ranking results /\
    Sorted (retest_before instances') ranking.
Proof.
  intros Hrun. unfold test_all_instances, bind. rewrite Hrun.
  destruct (test_loop_appends _ _ _ _ _ _ _ _ Hrun) as [_ [new [Hres Hnew]]].
  simpl in Hres. subst new.
  destruct results as [|i results].
  - exists []. split; [reflexivity|]. split; constructor.
  - destruct (list_sort_total (retest_key instances') (i :: results)) as [ranking Hsort].
    { eapply Forall_impl; [exact Hnew|]. intros j [k [-> Hk]]. simpl.
      rewrite retest_key_observed. destruct Hk as [a ->]. eexists. reflexivity. }
    exists ranking. unfold ret. rewrite Hsort. split; [reflexivity|].
    apply list_sort_spec in Hsort as [Hperm Hsorted].
    split; [exact Hperm|].
    eapply Sorted_weaken; [|exact Hsorted]. apply retest_key_sorted.
Qed.

Lemma test_loop_app env pre post i results h :
  test_loop (pre ++ post) i results env h =
  let '((pre', results1), h1) := test_loop pre i results env h in
  let '((post', results2), h2) := test_loop post (i + length pre) results1 env h1 in
  ((pre' ++ post', results2), h2).
Proof.
  revert i results h. induction pre as [|[name' inst] pre IH]; intros i results h.
  - simpl. rewrite Nat.add_0_r.
    destruct (test_loop post i results env h) as [[post' results2] h2]. reflexivity.
  - simpl. unfold bind.
    destruct (test_instance inst i results env h) as [[inst1 results1] h1].
    rewrite IH, Nat.add_succ_r.
    destruct (test_loop pre (S i) results1 env h1) as [[pre' results2] h2].
    simpl.
    destruct (test_loop post (S (i + length pre)) results2 env h2) as [[post' results3] h3].
    reflexivity.
Qed.

(** C10: in the re-test pass, an instance that is running and for which
    identity resolution returns an address is given the resolved [ip],
    [city] and [ping] and the measured [speed], and its position is in
    the ranking, whatever the resolved country is: the country of the
    instance is not compared with it. *)
Theorem retest_ignores_country env pre name' inst post h ip' country' city' ping' h2 :
  let instances := pre ++ (name', inst) :: post in
  let h0 := snd (test_loop pre 0 [] env h) in
  let speed' := fst (test_speed (port inst) env h2) in
  run_returncode env h0 (pgrep_command inst) = 0 ->
  get_ip_and_location (port inst) env (h0 ++ [ERun (pgrep_command inst)])
  = ((Some ip', country', city', ping'), h2) ->
  exists ranking,
    snd (fst (test_all_instances instances env h)) = Some ranking /\
    In (length pre) ranking /\
    fst (fst (test_all_instances instances env h)) !! length pre
    = Some (name', set_observed inst ip' city' ping' speed').
Proof.
  intros instances h0 speed' Hlive Hid.
  pose proof (get_ip_and_location_truthy _ _ _ _ _ _ _ _ Hid) as Htruthy.
  destruct (test_loop instances 0 [] env h) as [[instances' results] h'] eqn:Hrun.
  destruct (test_all_instances_ranking _ _ _ _ _ _ Hrun) as [ranking [Hall [Hperm _]]].
  exists ranking. rewrite Hall. simpl. split; [reflexivity|].
  unfold instances in Hrun. rewrite test_loop_app in Hrun.
  destruct (test_loop pre 0 [] env h) as [[pre' results1] h1] eqn:Hpre.
  simpl in h0. subst h0.
  destruct (test_loop_appends _ _ _ _ _ _ _ _ Hpre) as [Hlen _].
  simpl in Hrun. unfold bind at 1 in Hrun.
  assert (Hstep : test_instance inst (length pre) results1 env h1
                  = ((set_observed inst ip' city' ping' speed', results1 ++ [length pre]),
                     snd (test_speed (port inst) env h2))).
  { unfold test_instance, check_instance_running, run, bind, ret.
    rewrite Hlive. simpl. rewrite Hid, Htruthy.
    unfold speed'. destruct (test_speed (port inst) env h2). reflexivity. }
  rewrite Hstep in Hrun. unfold bind at 1 in Hrun.
  destruct (test_loop post (S (length pre)) (results1 ++ [length pre]) env _)
    as [[post' results2] h3] eqn:Hpost.
  destruct (test_loop_appends _ _ _ _ _ _ _ _ Hpost) as [_ [new [Hres _]]].
  injection Hrun as <- <- _. split.
  - eapply Permutation_in; [symmetry; exact Hperm|].
    rewrite Hres. apply in_or_app. left. apply in_or_app. right. left. reflexivity.
  - rewrite <- Hlen. apply list_lookup_middle. reflexivity.
Qed.

Lemma retest_ignores_country_witness :
  exists ranking,
    snd (fst (test_all_instances ([] ++ [("tor1", inst_us)]) env_france [])) = Some ranking /\
    In (length (@nil (string * TorInstance))) ranking /\
    fst (fst (test_all_instances ([] ++ [("tor1", inst_us)]) env_france []))
      !! length (@nil (string * TorInstance))
    = Some ("tor1",
            set_observed inst_us "203.0.113.7" (JStr "Paris") 500
              (fst (test_speed (port inst_us) env_france log_france_retest))).
Proof.
  apply (retest_ignores_country env_france [] "tor1" inst_us [] []
           "203.0.113.7" "FR" (JStr "Paris") 500 log_france_retest).
  - reflexivity.
  - vm_compute. reflexivity.
Defined.

(** ** Bridges *)

Lemma collect_bridges_spec lines bridge_lines bridge_types :
  collect_bridges lines bridge_lines bridge_types
  = (bridge_lines ++ map bridge_line_of lines,
     detected_types (map bridge_line_of lines) ∪ bridge_types).
Proof.
  revert bridge_lines bridge_types.
  induction lines as [|line lines IH]; intros bridge_lines bridge_types.
  - simpl. rewrite app_nil_r. f_equal. unfold detected_types. simpl. set_solver.
  - simpl. unfold detected_types. simpl.
    destruct (detect_bridge_type (bridge_line_of line)) as [t|];
      rewrite IH, <- app_assoc; simpl; f_equal; unfold detected_types; set_solver.
Qed.

Lemma detected_types_elem t bridge_lines :
  t ∈ detected_types bridge_lines <->
  exists line, In line bridge_lines /\ detect_bridge_type line = Some t.
Proof.
  unfold detected_types. rewrite elem_of_list_to_set, list_elem_of_omap.
  split; intros [line [Hin Hd]]; exists line; split; try exact Hd;
    apply list_elem_of_In; exact Hin.
Qed.

(** C9: for an input that holds a bridge line, [parse_bridge_input] keeps
    every line (stripped, and prefixed with [Bridge] where that is
    missing) and records one type: one of the detected types when the
    lines imply several, the detected type when they imply exactly one,
    and ['unknown'] when no line has a recognizable type.  [set_to_list]
    is the order in which Python enumerates the set of detected types. *)
Theorem parse_bridge_input_records_one_type
    (set_to_list : gset string -> list string) bridge_input :
  (forall s x, x ∈ set_to_list s <-> x ∈ s) ->
  PyStr.truthy (PyStr.strip bridge_input) = true ->
  let bridge_lines := map bridge_line_of (input_lines bridge_input) in
  exists bridge_type,
    parse_bridge_input set_to_list bridge_input = (Some bridge_lines, Some bridge_type) /\
    (1 < Z.of_nat (size (detected_types bridge_lines)) ->
     bridge_type ∈ detected_types bridge_lines) /\
    (forall t, detected_types bridge_lines = {[t]} -> bridge_type = t) /\
    (Forall (fun line => detect_bridge_type line = Some "unknown") bridge_lines ->
     bridge_type = "unknown").
Proof.
  intros Hlist Hinput bridge_lines.
  unfold parse_bridge_input. rewrite Hinput. simpl.
  rewrite collect_bridges_spec. fold bridge_lines. simpl.
  set (D := detected_types bridge_lines).
  assert (HD : D ∪ ∅ = D) by set_solver. rewrite HD.
  assert (Hunknown : Forall (fun line => detect_bridge_type line = Some "unknown") bridge_lines ->
                     forall y, y ∈ D -> y = "unknown").
  { intros Hall y Hy. apply detected_types_elem in Hy as [line [Hin Hd]].
    rewrite Forall_forall in Hall. rewrite (Hall line) in Hd; [congruence|].
    apply list_elem_of_In, Hin. }
  assert (Hhead : D <> ∅ -> exists y, head (set_to_list D) = Some y /\ y ∈ D).
  { intros Hne. apply set_choose_L in Hne as [x Hx].
    destruct (set_to_list D) as [|y l] eqn:E.
    - apply Hlist in Hx. rewrite E in Hx. inversion Hx.
    - exists y. split; [reflexivity|]. apply Hlist. rewrite E. left. }
  destruct (decide (D = ∅)) as [Hempty|Hne].
  - rewrite Hempty, size_empty. simpl. exists "unknown".
    split; [reflexivity|]. split; [intros H; lia|].
    split; [|reflexivity]. intros t Ht. exfalso. set_solver.
  - destruct (Hhead Hne) as [y [Hy HyD]]. exists y. rewrite Hy.
    split.
    { destruct (Z.of_nat (size D) =? 1) eqn:E1; [reflexivity|].
      destruct (1 <? Z.of_nat (size D)) eqn:E2; [reflexivity|].
      exfalso. apply Z.eqb_neq in E1. apply Z.ltb_ge in E2.
      assert (size D <> 0%nat) by (intros H0; apply size_empty_inv in H0; set_solver).
      lia. }
    split; [intros _; exact HyD|].
    split; [intros t Ht; rewrite Ht in HyD; set_solver|].
    intros Hall. apply (Hunknown Hall y HyD).
Qed.

Lemma parse_bridge_input_records_one_type_witness :
  exists bridge_type,
    parse_bridge_input elements mixed_bridges
    = (Some (map bridge_line_of (input_lines mixed_bridges)), Some bridge_type) /\
    (1 < Z.of_nat (size (detected_types (map bridge_line_of (input_lines mixed_bridges)))) ->
     bridge_type ∈ detected_types (map bridge_line_of (input_lines mixed_bridges))) /\
    (forall t, detected_types (map bridge_line_of (input_lines mixed_bridges)) = {[t]} ->
               bridge_type = t) /\
    (Forall (fun line => detect_bridge_type line = Some "unknown")
       (map bridge_line_of (input_lines mixed_bridges)) ->
     bridge_type = "unknown").
Proof.
  apply (parse_bridge_input_records_one_type elements mixed_bridges).
  - intros s x. apply elem_of_elements.
  - reflexivity.
Defined.

Example mixed_bridges_parsed :
  parse_bridge_input elements mixed_bridges
  = (Some [ "Bridge obfs4 192.95.36.142:443 CDF2E852BF539B82BD549E1A2AC8D80FE2162864";
            "Bridge snowflake 192.0.2.3:80 2B280B23E1107BB62ABFC40DDCC8824814F80A72" ],
     Some "obfs4").
Proof. vm_compute. reflexivity. Qed.

(** ** ConfigBuilder *)

(** *** Lines of a text *)

Lemma string_app_cons (x : ascii) (a b : string) :
  String x a +:+ b = String x (a +:+ b).
Proof. reflexivity. Qed.

Lemma string_app_assoc (a b c : string) : (a +:+ b) +:+ c = a +:+ b +:+ c.
Proof.
  induction a as [|x a IH]; [reflexivity|].
  rewrite !string_app_cons, IH. reflexivity.
Qed.

Lemma string_app_nil_r (a : string) : a +:+ "" = a.
Proof.
  induction a as [|x a IH]; [reflexivity|].
  rewrite string_app_cons, IH. reflexivity.
Qed.

Lemma no_nl_app (a b : string) : PyStr.no_nl (a +:+ b) = PyStr.no_nl a && PyStr.no_nl b.
Proof.
  induction a as [|x a IH]; [reflexivity|].
  rewrite string_app_cons. simpl. rewrite IH. apply andb_assoc.
Qed.

Lemma pretty_N_char_no_nl n : Ascii.eqb (pretty_N_char n) "010"%char = false.
Proof.
  destruct n as [|p]; [reflexivity|].
  do 4 (destruct p as [p|p|]; try reflexivity).
Qed.

Lemma pretty_N_go_no_nl x s :
  PyStr.no_nl s = true -> PyStr.no_nl (pretty_N_go x s) = true.
Proof.
  revert s. induction (N.lt_wf_0 x) as [x _ IH]. intros s Hs.
  destruct (decide (0 < x)%N) as [Hpos|Hzero].
  - rewrite pretty_N_go_step by exact Hpos.
    apply IH; [apply N.div_lt; [exact Hpos|reflexivity]|].
    simpl. rewrite pretty_N_char_no_nl, Hs. reflexivity.
  - assert (x = 0%N) as -> by lia. exact Hs.
Qed.

(** A formatted integer holds no line feed. *)
Lemma of_int_no_nl n : PyStr.no_nl (PyStr.of_int n) = true.
Proof.
  unfold PyStr.of_int, pretty, pretty_Z.
  destruct n as [|p|p]; [reflexivity| |].
  - unfold pretty, pretty_positive, pretty, pretty_N.
    destruct (decide _); [reflexivity|]. apply pretty_N_go_no_nl. reflexivity.
  - rewrite no_nl_app. apply andb_true_intro. split; [reflexivity|].
    unfold pretty, pretty_positive, pretty, pretty_N.
    destruct (decide _); [reflexivity|]. apply pretty_N_go_no_nl. reflexivity.
Qed.

Lemma unlines_app l1 l2 : unlines (l1 ++ l2) = unlines l1 +:+ unlines l2.
Proof.
  induction l1 as [|x l1 IH]; simpl; [reflexivity|].
  rewrite IH, !string_app_assoc. reflexivity.
Qed.

Lemma split_line line rest :
  PyStr.no_nl line = true ->
  PyStr.split "010"%char (line +:+ PyStr.nl +:+ rest) = line :: PyStr.split "010"%char rest.
Proof.
  induction line as [|c line IH]; intros Hnl; [reflexivity|].
  simpl in Hnl. apply andb_prop in Hnl as [Hc Hline].
  apply negb_true_iff in Hc.
  rewrite string_app_cons. cbn [PyStr.split]. rewrite Hc, (IH Hline). reflexivity.
Qed.

(** Splitting the text at the line feeds gives the lines back, followed
    by the empty string after the last line feed. *)
Lemma split_unlines lines :
  Forall (fun line => PyStr.no_nl line = true) lines ->
  PyStr.split "010"%char (unlines lines) = lines ++ [""].
Proof.
  induction 1 as [|line lines Hline _ IH]; [reflexivity|].
  simpl. rewrite (split_line _ _ Hline), IH. reflexivity.
Qed.

Lemma add_bridges_unlines config bridge_lines :
  add_bridges config bridge_lines = config +:+ unlines bridge_lines.
Proof.
  revert config. induction bridge_lines as [|b rest IH]; intros config; simpl.
  - rewrite string_app_nil_r. reflexivity.
  - rewrite IH, !string_app_assoc. reflexivity.
Qed.

(** *** The torrc, line by line *)

Lemma transport_plugin_lines bridge_type :
  transport_plugin bridge_type = unlines (plugin_lines bridge_type).
Proof.
  unfold transport_plugin, plugin_lines.
  repeat destruct (String.eqb bridge_type _); reflexivity.
Qed.

Lemma torrc_text_unlines inst use_bridges bridge_data circuit_period :
  torrc_text inst use_bridges bridge_data circuit_period
  = unlines (torrc_lines inst use_bridges bridge_data circuit_period).
Proof.
  unfold torrc_text, torrc_lines. rewrite !unlines_app.
  assert (Hhead : "SocksPort " +:+ PyStr.of_int (port inst) +:+ PyStr.nl +:+
                  "DataDirectory " +:+ data_dir inst +:+ PyStr.nl
                  = unlines (head_lines inst)).
  { unfold head_lines. simpl. rewrite !string_app_assoc. reflexivity. }
  assert (Htail : "ExitNodes {" +:+ country inst +:+ "}" +:+ PyStr.nl +:+
                  "StrictNodes 1" +:+ PyStr.nl +:+
                  "NewCircuitPeriod " +:+ PyStr.of_int circuit_period +:+ PyStr.nl +:+
                  "MaxCircuitDirtiness 300" +:+ PyStr.nl +:+
                  "CircuitBuildTimeout " +:+ (if use_bridges then "120" else "60")
                    +:+ PyStr.nl +:+
                  "LearnCircuitBuildTimeout 0" +:+ PyStr.nl +:+
                  "NumEntryGuards 3" +:+ PyStr.nl +:+
                  "UseEntryGuards 1" +:+ PyStr.nl
                  = unlines (tail_lines inst use_bridges circuit_period)).
  { unfold tail_lines. simpl. rewrite !string_app_assoc. reflexivity. }
  rewrite Hhead, Htail.
  destruct use_bridges, bridge_data as [[bridge_lines bridge_type]|];
    try reflexivity.
  unfold bridge_section.
  rewrite add_bridges_unlines, transport_plugin_lines, !unlines_app, !string_app_assoc.
  reflexivity.
Qed.

(** *** Directives *)

Lemma bridge_line_is_no_directive line :
  PyStr.startswith line "Bridge" = true ->
  is_exit_restriction line = false /\ is_transport_plugin line = false /\
  is_build_timeout line = false.
Proof.
  unfold is_exit_restriction, is_transport_plugin, is_build_timeout, PyStr.startswith.
  destruct line as [|c line]; [discriminate|]. intros H.
  change (String.prefix "Bridge" (String c line))
    with (if ascii_dec "B" c then String.prefix "ridge" line else false) in H.
  destruct (ascii_dec "B" c) as [<-|_]; [|discriminate H].
  repeat split.
Qed.

Lemma plugin_lines_cases bridge_type :
  (known_bridge_type bridge_type = true /\
   exists line, plugin_lines bridge_type = [line] /\ PyStr.no_nl line = true /\
                is_transport_plugin line = true /\ is_exit_restriction line = false /\
                is_build_timeout line = false) \/
  (known_bridge_type bridge_type = false /\ plugin_lines bridge_type = []).
Proof.
  unfold known_bridge_type, plugin_lines. simpl.
  destruct (String.eqb bridge_type "obfs4");
    [left; split; [reflexivity|eexists; repeat split]|].
  destruct (String.eqb bridge_type "snowflake");
    [left; split; [reflexivity|eexists; repeat split]|].
  destruct (String.eqb bridge_type "meek-azure");
    [left; split; [reflexivity|eexists; repeat split]|].
  destruct (String.eqb bridge_type "webtunnel");
    [left; split; [reflexivity|eexists; repeat split]|].
  right. split; reflexivity.
Qed.

Lemma bridge_lines_directives bridge_lines :
  Forall wf_bridge_line bridge_lines ->
  Forall (fun line => PyStr.no_nl line = true) bridge_lines /\
  List.filter is_exit_restriction bridge_lines = [] /\
  List.filter is_build_timeout bridge_lines = [] /\
  existsb is_transport_plugin bridge_lines = false.
Proof.
  induction 1 as [|line rest [Hnl Hstart] _ [IH1 [IH2 [IH3 IH4]]]].
  - repeat split. constructor.
  - destruct (bridge_line_is_no_directive line Hstart) as [He [Ht Hb]].
    simpl. rewrite He, Ht, Hb, IH2, IH3, IH4.
    repeat split. constructor; assumption.
Qed.

Lemma bridge_section_directives use_bridges bridge_data :
  wf_bridge_data bridge_data ->
  Forall (fun line => PyStr.no_nl line = true) (bridge_section use_bridges bridge_data) /\
  List.filter is_exit_restriction (bridge_section use_bridges bridge_data) = [] /\
  List.filter is_build_timeout (bridge_section use_bridges bridge_data) = [] /\
  existsb is_transport_plugin (bridge_section use_bridges bridge_data)
  = use_bridges &&
    match bridge_data with
    | Some (_, bridge_type) => known_bridge_type bridge_type
    | None => false
    end.
Proof.
  intros Hwf.
  destruct use_bridges, bridge_data as [[bridge_lines bridge_type]|];
    try (repeat split; constructor).
  simpl in Hwf. destruct (bridge_lines_directives _ Hwf) as [H1 [H2 [H3 H4]]].
  unfold bridge_section.
  destruct (plugin_lines_cases bridge_type)
    as [[Hk [line [-> [Hnl [Ht [He Hb]]]]]]|[Hk ->]]; rewrite Hk.
  - simpl. fold (is_exit_restriction line). fold (is_build_timeout line).
    fold (is_transport_plugin line). rewrite He, Hb, Ht, H2, H3.
    repeat split. repeat constructor; assumption.
  - simpl. rewrite H2, H3, H4. repeat split. constructor; [reflexivity|exact H1].
Qed.

(** What [create_torrc] does: it draws the circuit period in 15..45,
    makes the data directory and writes [torrc_text] to the torrc. *)
Lemma create_torrc_writes env bridge_data inst use_bridges h :
  exists circuit_period,
    15 <= circuit_period <= 45 /\
    snd (create_torrc bridge_data inst use_bridges env h)
    = h ++ [ ERandint 15 45; EMkdir (data_dir inst);
             EWrite (torrc inst) (torrc_text inst use_bridges bridge_data circuit_period) ].
Proof.
  exists (15 + random_randint env h 15 45 mod (45 - 15 + 1)). split.
  - pose proof (Z.mod_pos_bound (random_randint env h 15 45) (45 - 15 + 1)). lia.
  - unfold create_torrc, bind, randint, mkdir, write_file. simpl.
    rewrite <- !app_assoc. reflexivity.
Qed.

(** C5: for an instance and bridge data whose strings are single lines
    (no line feed in the data directory, the country or a bridge line, and
    every bridge line starts with [Bridge], as [parse_bridge_input] stores
    them), the torrc written when bridges are used exactly if bridge data
    is present has exactly one [ExitNodes] directive, naming the country of
    the instance; it has a [ClientTransportPlugin] directive exactly when
    bridge data is present with one of the four known types; and its one
    [CircuitBuildTimeout] directive says 120 with bridge data and 60
    without. *)
Theorem torrc_exit_country_and_transport inst bridge_data circuit_period :
  PyStr.no_nl (data_dir inst) = true ->
  PyStr.no_nl (country inst) = true ->
  wf_bridge_data bridge_data ->
  let text := torrc_text inst (bridges_active bridge_data) bridge_data circuit_period in
  List.filter is_exit_restriction (directives text)
  = ["ExitNodes {" +:+ country inst +:+ "}"] /\
  (existsb is_transport_plugin (directives text) = true <->
   exists bridge_lines bridge_type,
     bridge_data = Some (bridge_lines, bridge_type) /\
     known_bridge_type bridge_type = true) /\
  List.filter is_build_timeout (directives text)
  = ["CircuitBuildTimeout " +:+ (if bridges_active bridge_data then "120" else "60")].
Proof.
  intros Hdir Hcountry Hwf text.
  destruct (bridge_section_directives (bridges_active bridge_data) bridge_data Hwf)
    as [Hnl [Hexit [Htimeout Hplugin]]].
  assert (Hlines : directives text
                   = torrc_lines inst (bridges_active bridge_data) bridge_data circuit_period
                       ++ [""]).
  { unfold directives, text. rewrite torrc_text_unlines. apply split_unlines.
    unfold torrc_lines. repeat (apply Forall_app; split); [|exact Hnl|].
    - repeat constructor; rewrite no_nl_app; [rewrite of_int_no_nl|rewrite Hdir]; reflexivity.
    - unfold tail_lines. repeat constructor; rewrite ?no_nl_app, ?of_int_no_nl, ?Hcountry;
        try reflexivity.
      destruct (bridges_active bridge_data); reflexivity. }
  rewrite Hlines. unfold torrc_lines.
  rewrite !List.filter_app, !existsb_app, Hexit, Htimeout, Hplugin.
  split; [reflexivity|]. split.
  - assert (Hhead : existsb is_transport_plugin (head_lines inst) = false) by reflexivity.
    assert (Htail : existsb is_transport_plugin
                      (tail_lines inst (bridges_active bridge_data) circuit_period) = false).
    { destruct (bridges_active bridge_data); reflexivity. }
    rewrite Hhead, Htail. simpl. rewrite !orb_false_r.
    destruct bridge_data as [[bridge_lines bridge_type]|]; simpl.
    + split; [intros Hk; exists bridge_lines, bridge_type; auto|].
      intros [bl [bt [[= <- <-] Hk]]]. exact Hk.
    + split; [discriminate|]. intros [bl [bt [Hbd _]]]. discriminate.
  - destruct (bridges_active bridge_data); reflexivity.
Qed.

Lemma torrc_exit_country_and_transport_witness :
  List.filter is_exit_restriction
    (directives (torrc_text inst_us (bridges_active obfs4_bridges) obfs4_bridges 30))
  = ["ExitNodes {" +:+ country inst_us +:+ "}"] /\
  (existsb is_transport_plugin
     (directives (torrc_text inst_us (bridges_active obfs4_bridges) obfs4_bridges 30)) = true <->
   exists bridge_lines bridge_type,
     obfs4_bridges = Some (bridge_lines, bridge_type) /\
     known_bridge_type bridge_type = true) /\
  List.filter is_build_timeout
    (directives (torrc_text inst_us (bridges_active obfs4_bridges) obfs4_bridges 30))
  = ["CircuitBuildTimeout " +:+ (if bridges_active obfs4_bridges then "120" else "60")].
Proof.
  apply (torrc_exit_country_and_transport inst_us obfs4_bridges 30).
  - reflexivity.
  - reflexivity.
  - simpl. repeat constructor.
Defined.

Example torrc_with_obfs4 :
  directives (torrc_text inst_us true obfs4_bridges 30)
  = [ "SocksPort 9050";
      "DataDirectory /root/tor/tor1";
      "UseBridges 1";
      "ClientTransportPlugin obfs4 exec /usr/bin/obfs4proxy";
      "Bridge obfs4 192.95.36.142:443 CDF2E852BF539B82BD549E1A2AC8D80FE2162864";
      "ExitNodes {US}";
      "StrictNodes 1";
      "NewCircuitPeriod 30";
      "MaxCircuitDirtiness 300";
      "CircuitBuildTimeout 120";
      "LearnCircuitBuildTimeout 0";
      "NumEntryGuards 3";
      "UseEntryGuards 1";
      "" ].
Proof. vm_compute. reflexivity. Qed.

(** *** The bridge lines that [parse_bridge_input] stores are well formed *)

Lemma split_no_nl s :
  Forall (fun piece => PyStr.no_nl piece = true) (PyStr.split "010"%char s).
Proof.
  induction s as [|c s IH]; simpl; [repeat constructor|].
  destruct (Ascii.eqb c "010") eqn:E; [constructor; [reflexivity|exact IH]|].
  destruct (PyStr.split "010" s) as [|w ws]; [repeat constructor; simpl; rewrite E; reflexivity|].
  inversion IH as [|? ? Hw Hws]; subst.
  constructor; [simpl; rewrite E, Hw; reflexivity|exact Hws].
Qed.

Lemma lstrip_no_nl s : PyStr.no_nl s = true -> PyStr.no_nl (PyStr.lstrip s) = true.
Proof.
  induction s as [|c s IH]; [reflexivity|]. intros H. simpl.
  destruct (PyStr.is_space c); [|exact H].
  simpl in H. apply andb_prop in H as [_ H]. apply IH, H.
Qed.

Lemma rstrip_no_nl s : PyStr.no_nl s = true -> PyStr.no_nl (PyStr.rstrip s) = true.
Proof.
  induction s as [|c s IH]; [reflexivity|]. intros H.
  simpl in H. apply andb_prop in H as [Hc Hs]. specialize (IH Hs). simpl.
  destruct (PyStr.rstrip s) as [|d t].
  - destruct (PyStr.is_space c); [reflexivity|]. simpl. rewrite Hc. reflexivity.
  - change (PyStr.no_nl (String c (String d t)))
      with (negb (Ascii.eqb c "010") && PyStr.no_nl (String d t)).
    rewrite Hc, IH. reflexivity.
Qed.

Lemma strip_no_nl s : PyStr.no_nl s = true -> PyStr.no_nl (PyStr.strip s) = true.
Proof. intros H. apply rstrip_no_nl, lstrip_no_nl, H. Qed.

Lemma bridge_line_of_wf line :
  PyStr.no_nl line = true -> wf_bridge_line (bridge_line_of line).
Proof.
  intros H. unfold bridge_line_of, wf_bridge_line.
  destruct (PyStr.startswith line "Bridge") eqn:E; simpl.
  - split; assumption.
  - split; [rewrite no_nl_app, H; reflexivity|reflexivity].
Qed.

Lemma input_lines_no_nl bridge_input :
  Forall (fun line => PyStr.no_nl line = true) (input_lines bridge_input).
Proof.
  unfold input_lines. apply Forall_forall. intros line Hin.
  apply list_elem_of_In, in_map_iff in Hin as [piece [<- Hin]].
  apply filter_In in Hin as [Hin _]. apply strip_no_nl.
  pose proof (split_no_nl (PyStr.strip bridge_input)) as Hall.
  rewrite Forall_forall in Hall. apply Hall, list_elem_of_In, Hin.
Qed.

(** Whatever the input and the enumeration order, the lines that
    [parse_bridge_input] returns satisfy the hypothesis of the torrc
    theorem. *)
Lemma parse_bridge_input_wf set_to_list bridge_input bridge_lines bridge_type :
  parse_bridge_input set_to_list bridge_input = (Some bridge_lines, Some bridge_type) ->
  wf_bridge_data (Some (bridge_lines, bridge_type)).
Proof.
  unfold parse_bridge_input.
  destruct (negb (PyStr.truthy (PyStr.strip bridge_input))); [discriminate|].
  rewrite collect_bridges_spec. simpl.
  assert (Hwf : Forall wf_bridge_line (map bridge_line_of (input_lines bridge_input))).
  { apply Forall_map. eapply Forall_impl; [apply input_lines_no_nl|].
    intros line. apply bridge_line_of_wf. }
  destruct (Z.of_nat (size _) =? 1); [intros [= <- _]; exact Hwf|].
  destruct (1 <? Z.of_nat (size _)); intros [= <- _]; exact Hwf.
Qed.

(** * Further properties of the code *)

(** ** Counting requests *)

Lemma sends_ret {A} P (a : A) : sends_at_most P 0 (ret a).
Proof. intros env h. exists []. simpl. rewrite app_nil_r. auto. Qed.

Lemma sends_bind {A B} P n1 n2 (m : IO A) (k : A -> IO B) :
  sends_at_most P n1 m -> (forall a, sends_at_most P n2 (k a)) ->
  sends_at_most P (n1 + n2) (bind m k).
Proof.
  intros Hm Hk env h. unfold bind.
  destruct (Hm env h) as [evs1 [E1 [F1 L1]]].
  destruct (m env h) as [a h1]. simpl in E1. subst h1.
  destruct (Hk a env (h ++ evs1)) as [evs2 [E2 [F2 L2]]].
  exists (evs1 ++ evs2). rewrite E2, app_assoc. split; [reflexivity|].
  split; [apply Forall_app; auto|].
  rewrite List.filter_app, length_app. lia.
Qed.

Lemma sends_weaken {A} P n n' (m : IO A) :
  (n <= n')%nat -> sends_at_most P n m -> sends_at_most P n' m.
Proof.
  intros Hn Hm env h. destruct (Hm env h) as [evs [E [F L]]].
  exists evs. repeat split; [exact E|exact F|lia].
Qed.

Lemma sends_http_get P u p t : P (EGet u p t) -> sends_at_most P 1 (http_get u p t).
Proof. intros H env h. exists [EGet u p t]. simpl. auto. Qed.

Lemma sends_now P : P EClock -> sends_at_most P 0 now.
Proof. intros H env h. exists [EClock]. simpl. auto. Qed.

Lemma sends_discover_ip (P : Event -> Prop) proxies services ip ping_time :
  P EClock -> (forall s, In s services -> P (EGet s proxies 15)) ->
  sends_at_most P (length services) (discover_ip proxies services ip ping_time).
Proof.
  intros Hc. revert ip ping_time.
  induction services as [|s rest IH]; intros ip ping_time Hg; simpl.
  - apply sends_ret.
  - apply (sends_bind P 0 (S (length rest))); [apply sends_now, Hc|]. intros start_time.
    apply (sends_bind P 1 (length rest)); [apply sends_http_get, Hg; left; reflexivity|].
    intros [|resp].
    + apply IH. intros s' Hs'. apply Hg. right. exact Hs'.
    + apply (sends_bind P 0 (length rest)); [apply sends_now, Hc|]. intros t.
      destruct (looks_like_ip _).
      * apply (sends_weaken P 0); [lia|apply sends_ret].
      * apply IH. intros s' Hs'. apply Hg. right. exact Hs'.
Qed.

Lemma sends_locate (P : Event -> Prop) services ip' :
  (forall s, In s services -> P (EGet (geo_url s ip') [] 10)) ->
  sends_at_most P (length services) (locate services ip').
Proof.
  induction services as [|s rest IH]; intros Hg; simpl.
  - apply sends_ret.
  - apply (sends_bind P 1 (length rest)); [apply sends_http_get, Hg; left; reflexivity|].
    intros o. destruct (geo_answer s o).
    + apply (sends_weaken P 0); [lia|apply sends_ret].
    + apply IH. intros s' Hs'. apply Hg. right. exact Hs'.
Qed.

Lemma sends_get_ip_and_location (P : Event -> Prop) port' :
  P EClock ->
  (forall s, In s ip_services -> P (EGet s (ip_proxies port') 15)) ->
  (forall s ip', In s location_services -> P (EGet (geo_url s ip') [] 10)) ->
  sends_at_most P 9 (get_ip_and_location port').
Proof.
  intros Hc Hi Hg. unfold get_ip_and_location.
  apply (sends_bind _ 5 4).
  - apply (sends_discover_ip _ _ ip_services); assumption.
  - intros [[ip'|] ping_time]; [|apply (sends_weaken _ 0); [lia|apply sends_ret]].
    destruct (negb (PyStr.truthy ip')); [apply (sends_weaken _ 0); [lia|apply sends_ret]|].
    replace 4%nat with (4 + 0)%nat by reflexivity.
    apply sends_bind.
    + apply (sends_locate _ location_services). intros s Hs. apply Hg, Hs.
    + intros [[c ci]|]; apply sends_ret.
Qed.

(** X1: identity resolution sends at most nine requests, whatever the
    services answer.  Its log is that of the IP loop followed by that of
    the geolocation loop.  The IP loop reads the clock and sends at most
    five requests, each to one of the IP services, through the SOCKS proxy
    of the port and with a time-out of 15 s.  The geolocation loop sends at
    most four requests, without a proxy and with a time-out of 10 s, and
    logs nothing else. *)
Theorem resolution_requests_bounded env port' h :
  exists ip_events geo_events,
    snd (get_ip_and_location port' env h) = h ++ ip_events ++ geo_events /\
    Forall (ip_event port') ip_events /\
    (length (List.filter is_request ip_events) <= 5)%nat /\
    Forall geo_event geo_events /\
    (length geo_events <= 4)%nat.
Proof.
  unfold get_ip_and_location, bind.
  destruct (sends_discover_ip (ip_event port') (ip_proxies port') ip_services None 9999
              I (fun s Hs => conj Hs (conj eq_refl eq_refl)) env h)
    as [evs1 [E1 [F1 L1]]].
  destruct (discover_ip _ _ _ _ env h) as [[ip0 pt] h1]. simpl in E1. subst h1.
  assert (Hnone : exists geo_events : Log,
            h ++ evs1 = h ++ evs1 ++ geo_events /\ Forall geo_event geo_events /\
            (length geo_events <= 4)%nat).
  { exists []. rewrite app_nil_r. repeat split; [constructor|simpl; lia]. }
  destruct ip0 as [ip0|];
    [|destruct Hnone as [g Hg]; exists evs1, g; simpl; tauto].
  destruct (negb (PyStr.truthy ip0));
    [destruct Hnone as [g Hg]; exists evs1, g; simpl; tauto|].
  assert (Hloc : forall services h0, exists evs2,
            snd (locate services ip0 env h0) = h0 ++ evs2 /\ Forall geo_event evs2 /\
            (length evs2 <= length services)%nat).
  { induction services as [|s rest IH]; intros h0; simpl.
    - exists []. rewrite app_nil_r. repeat split; [constructor|simpl; lia].
    - unfold bind, http_get.
      destruct (geo_answer s _).
      + exists [EGet (geo_url s ip0) [] 10]. simpl. repeat split; [|lia].
        repeat constructor.
      + destruct (IH (h0 ++ [EGet (geo_url s ip0) [] 10])) as [evs2 [E2 [F2 L2]]].
        exists (EGet (geo_url s ip0) [] 10 :: evs2). rewrite E2, <- app_assoc.
        split; [reflexivity|]. split; [|simpl; lia].
        constructor; [split; reflexivity|exact F2]. }
  destruct (Hloc location_services (h ++ evs1)) as [evs2 [E2 [F2 L2]]].
  destruct (locate location_services ip0 env (h ++ evs1)) as [[[c ci]|] h2];
    simpl in E2; subst h2; exists evs1, evs2; simpl; rewrite <- app_assoc; auto.
Qed.

(** ** IdentityResolver: the shape of the result, the first answers win *)

Lemma upper_char_idempotent c : PyStr.upper_char (PyStr.upper_char c) = PyStr.upper_char c.
Proof.
  destruct c as [[] [] [] [] [] [] [] []]; reflexivity.
Qed.

Lemma upper_idempotent x : PyStr.upper (PyStr.upper x) = PyStr.upper x.
Proof.
  unfold PyStr.upper. induction x as [|a x IH]; simpl; [reflexivity|].
  rewrite IH, upper_char_idempotent. reflexivity.
Qed.

(** A country that the geolocation loop returns came from a usable answer
    of one of the services. *)
Lemma locate_Some env services ip' h c ci h' :
  locate services ip' env h = (Some (c, ci), h') ->
  exists s o, In s services /\ geo_answer s o = Some (c, ci).
Proof.
  revert h. induction services as [|s rest IH]; intros h; simpl; [discriminate|].
  unfold bind, http_get.
  destruct (geo_answer s (requests_get env h (geo_url s ip') [] 10)) as [found|] eqn:Hans.
  - intros [= -> _]. exists s, (requests_get env h (geo_url s ip') [] 10). auto.
  - intros Hrest. destruct (IH _ Hrest) as [s' [o [Hin Ho]]]. exists s', o. auto.
Qed.

(** X2: identity resolution has two kinds of result only.  Either it
    fails, and then the result is exactly [(None, "Error", "No IP", 9999)];
    or it returns a non-empty address, and then the country is either the
    placeholder [Unknown] (with the city [Unknown]) or a code of exactly
    two characters in upper case. *)
Theorem resolution_result_shape env port' h :
  let id := fst (get_ip_and_location port' env h) in
  id = (None, "Error", JStr "No IP", 9999) \/
  exists ip', id_ip id = Some ip' /\ PyStr.truthy ip' = true /\
    ((id_country id = "Unknown" /\ id_city id = JStr "Unknown") \/
     (String.length (id_country id) = 2%nat /\
      PyStr.upper (id_country id) = id_country id)).
Proof.
  unfold get_ip_and_location, bind.
  destruct (discover_ip _ _ _ _ env h) as [[[ip0|] pt] h1]; [|left; reflexivity].
  destruct (PyStr.truthy ip0) eqn:Ht; cbv beta iota delta [negb]; [|left; reflexivity].
  destruct (locate location_services ip0 env h1) as [[[c0 ci0]|] h2] eqn:Hloc;
    right; exists ip0; (split; [reflexivity|]); (split; [exact Ht|]).
  - right. destruct (locate_Some _ _ _ _ _ _ _ Hloc) as [s [o [_ Hans]]].
    destruct (geo_answer_Some _ _ _ _ Hans) as [r [data [raw [_ [_ [_ [_ [Hlen [-> _]]]]]]]]].
    unfold id_country. simpl. rewrite length_upper, upper_idempotent. auto.
  - left. split; reflexivity.
Qed.

(** The IP loop passes over the services that give no valid address. *)
Lemma discover_ip_missed env proxies missed rest v h v' h' :
  ip_missed env proxies missed v h v' h' ->
  discover_ip proxies (missed ++ rest) (fst v) (snd v) env h
  = discover_ip proxies rest (fst v') (snd v') env h'.
Proof.
  induction 1 as [v h|s missed v h v' h' Hget _ IH|s missed v h r v' h' Hget Hbad _ IH].
  - reflexivity.
  - simpl. unfold bind at 1, now at 1. unfold bind at 1, http_get at 1.
    rewrite Hget. exact IH.
  - simpl. unfold bind at 1, now at 1. unfold bind at 1, http_get at 1.
    rewrite Hget. unfold bind at 1, now at 1. rewrite Hbad. exact IH.
Qed.

(** X3: the first answers win.  If the IP services before [service] give
    no valid address and [service] answers with a text [ip'] that passes
    the test, and the geolocation services before [geo] give no usable
    answer for [ip'] and [geo] gives the country and city, then identity
    resolution returns [ip'], that country and city and the latency of the
    request to [service]; the request to [geo] is the last one it sends, so
    no later service of either list is asked. *)
Theorem first_answers_settle_identity
    env port' h missed service later v1 h1 r silent geo unused h3 c ci :
  let proxies := ip_proxies port' in
  let ip' := PyStr.strip (text r) in
  let h2 := ((h1 ++ [EClock]) ++ [EGet service proxies 15]) ++ [EClock] in
  ip_services = missed ++ service :: later ->
  ip_missed env proxies missed (None, 9999) h v1 h1 ->
  requests_get env (h1 ++ [EClock]) service proxies 15 = Returned r ->
  looks_like_ip ip' = true ->
  location_services = silent ++ geo :: unused ->
  geo_exhausted env ip' silent h2 h3 ->
  geo_answer geo (requests_get env h3 (geo_url geo ip') [] 10) = Some (c, ci) ->
  get_ip_and_location port' env h
  = ((Some ip', c, ci, ip_ping env proxies service h1),
     h3 ++ [EGet (geo_url geo ip') [] 10]).
Proof.
  intros proxies ip' h2 Hips Hmissed Hget Hok Hgeos Hsilent Hans.
  unfold get_ip_and_location. unfold bind at 1.
  rewrite Hips.
  change (discover_ip (ip_proxies port') (missed ++ service :: later) None 9999 env h)
    with (discover_ip proxies (missed ++ service :: later)
            (fst (@None string, 9999)) (snd (@None string, 9999)) env h).
  rewrite (discover_ip_missed _ _ _ _ _ _ _ _ Hmissed).
  simpl discover_ip. unfold bind at 1, now at 1. unfold bind at 1, http_get at 1.
  rewrite Hget. unfold bind at 1, now at 1. fold ip'. rewrite Hok.
  unfold ret at 1. cbv beta iota.
  assert (Ht : PyStr.truthy ip' = true).
  { unfold looks_like_ip in Hok. apply andb_prop in Hok as [Ht _]. exact Ht. }
  rewrite Ht. cbv beta iota delta [negb]. unfold bind at 1.
  assert (Hloc : locate location_services ip' env h2
                 = (Some (c, ci), h3 ++ [EGet (geo_url geo ip') [] 10])).
  { rewrite Hgeos. clear Hgeos. induction Hsilent as [h0|s rest h0 h0' Hs _ IH].
    - simpl. unfold bind, http_get. rewrite Hans. reflexivity.
    - simpl. unfold bind at 1, http_get at 1. rewrite Hs. apply IH, Hans. }
  fold h2. rewrite Hloc. reflexivity.
Qed.

Lemma first_answers_settle_identity_witness :
  get_ip_and_location 9050 env_detour []
  = ((Some "198.51.100.4", "DE", JStr "Unknown", 500),
     log_detour_silent ++ [EGet "https://ipapi.co/198.51.100.4/json/" [] 10]).
Proof.
  apply (first_answers_settle_identity env_detour 9050 []
           (firstn 2 ip_services) "http://icanhazip.com" (skipn 3 ip_services)
           (Some "busy", 500) log_detour_missed
           {| status_code := 200; text := "198.51.100.4" +:+ PyStr.nl;
              content_len := 13; json := None |}
           (firstn 1 location_services)
           {| url := "https://ipapi.co/{ip}/json/";
              country_key := "country_code"; city_key := "city" |}
           (skipn 2 location_services) log_detour_silent "DE" (JStr "Unknown")).
  - reflexivity.
  - eapply ip_missed_raised; [reflexivity|].
    eapply (ip_missed_invalid _ _ _ _ _ _
              {| status_code := 429; text := "busy"; content_len := 4; json := None |});
      [reflexivity|reflexivity|].
    apply ip_missed_nil.
  - reflexivity.
  - reflexivity.
  - reflexivity.
  - eapply geo_exhausted_cons; [reflexivity|]. apply geo_exhausted_nil.
  - reflexivity.
Defined.

(** With the network down the IP loop asks every service and keeps its
    loop variables. *)
Lemma discover_ip_offline env proxies services ip' ping_time h :
  offline env ->
  discover_ip proxies services ip' ping_time env h
  = ((ip', ping_time), h ++ raised_requests services proxies 15).
Proof.
  intros Hoff. revert h. induction services as [|s rest IH]; intros h.
  - simpl. unfold ret, raised_requests. simpl. rewrite app_nil_r. reflexivity.
  - simpl. unfold bind at 1, now at 1. unfold bind at 1, http_get at 1.
    rewrite Hoff, IH. unfold raised_requests. simpl.
    rewrite <- !app_assoc. reflexivity.
Qed.

Lemma get_ip_and_location_offline env port' h :
  offline env ->
  get_ip_and_location port' env h
  = ((None, "Error", JStr "No IP", 9999),
     h ++ raised_requests ip_services (ip_proxies port') 15).
Proof.
  intros Hoff. unfold get_ip_and_location, bind.
  rewrite (discover_ip_offline _ _ _ _ _ _ Hoff). reflexivity.
Qed.

(** X4: when the network is down (every request raises), identity
    resolution fails with [(None, "Error", "No IP", 9999)] after asking each
    of the five IP services exactly once, in order; it sends no geolocation
    request. *)
Theorem offline_resolution_fails env port' h :
  offline env ->
  get_ip_and_location port' env h
  = ((None, "Error", JStr "No IP", 9999),
     h ++ raised_requests ip_services (ip_proxies port') 15).
Proof. apply get_ip_and_location_offline. Qed.

Lemma offline_resolution_fails_witness :
  get_ip_and_location 9050 env_offline []
  = ((None, "Error", JStr "No IP", 9999),
     [] ++ raised_requests ip_services (ip_proxies 9050) 15).
Proof.
  apply (offline_resolution_fails env_offline 9050 []).
  intros h url proxies timeout. reflexivity.
Defined.

(** ** IdentityResolver: what the test of an address checks *)

Lemma length_split sep s : length (PyStr.split sep s) = S (count_char sep s).
Proof.
  induction s as [|c t IH]; [reflexivity|]. simpl.
  destruct (Ascii.eqb c sep); simpl; [rewrite IH; reflexivity|].
  destruct (PyStr.split sep t) as [|w ws]; [discriminate|]. exact IH.
Qed.

(** X5: the test that ends the IP loop only counts dots.  A text is
    taken for an address exactly when it is not empty and holds exactly
    three dots; no part is checked to be a number.  So
    [not.an.ip.address] passes, and an IPv6 address does not. *)
Theorem looks_like_ip_counts_dots ip' :
  looks_like_ip ip' = PyStr.truthy ip' && (count_char "." ip' =? 3)%nat /\
  looks_like_ip "not.an.ip.address" = true /\
  looks_like_ip "2001:db8::1" = false.
Proof.
  split; [|split; reflexivity].
  unfold looks_like_ip. rewrite length_split. f_equal.
  destruct (Nat.eqb_spec (count_char "." ip') 3) as [E|E].
  - rewrite E. reflexivity.
  - apply Z.eqb_neq. lia.
Qed.

(** ** ThroughputProbe: sign of the result, work done, a network that is down *)

Lemma round_nonneg x n : (0 <= x)%Q -> (0 <= PyNum.round x n)%Q.
Proof.
  intros Hx.
  assert (E : (PyNum.round 0 n == 0)%Q).
  { unfold PyNum.round.
    assert (E0 : PyNum.round_half_even (0 * inject_Z (10 ^ Z.of_nat n)) = 0) by reflexivity.
    rewrite E0. pose proof (scale_pos n). field. lra. }
  rewrite <- E. apply round_mono, Hx.
Qed.

Lemma try_download_nonneg env proxies item h m h' :
  try_download proxies item env h = (Some m, h') -> (0 <= m)%Q.
Proof.
  destruct item as [test_url expected_size].
  unfold try_download, bind, now, http_get, ret.
  destruct (requests_get env _ _ _ _) as [|response]; [discriminate|].
  destruct (status_code response =? 200); [|discriminate].
  destruct (PyNum.ltb 0 _ && (1000 <? content_len response)) eqn:Hok; [|discriminate].
  intros [= <- _]. apply andb_prop in Hok as [Htime Hsize].
  apply ltb_lt in Htime. apply Z.ltb_lt in Hsize.
  unfold mbps_of. apply round_nonneg.
  apply Qle_shift_div_l; [lra|].
  assert (H0 : (0 <= inject_Z (content_len response * 8))%Q).
  { change 0%Q with (inject_Z 0). rewrite <- Zle_Qle. lia. }
  lra.
Qed.

Lemma download_loop_nonneg env proxies data h m h' :
  download_loop proxies data env h = (Some m, h') -> (0 <= m)%Q.
Proof.
  revert h. induction data as [|item rest IH]; intros h; simpl; [discriminate|].
  unfold bind at 1.
  destruct (try_download proxies item env h) as [[m0|] h1] eqn:Hitem.
  - intros [= <- _]. eapply try_download_nonneg, Hitem.
  - apply IH.
Qed.

Lemma fallback_floor env proxies h e h' :
  fallback proxies env h = (Some e, h') -> (1 # 10 <= e)%Q.
Proof.
  unfold fallback, bind.
  destruct (ping_loop proxies 3 [] env h) as [[[|p ps]|] h1]; try discriminate.
  destruct (PyNum.eqb _ 0); [discriminate|].
  intros [= <- _]. apply estimate_of_floor.
Qed.

Lemma test_speed_nonneg env port' h : (0 <= fst (test_speed port' env h))%Q.
Proof.
  unfold test_speed. unfold bind at 1.
  destruct (download_loop (speed_proxies port') test_data env h) as [[m|] h1] eqn:Hd.
  - simpl. eapply download_loop_nonneg, Hd.
  - unfold bind.
    destruct (fallback (speed_proxies port') env h1) as [[e|] h2] eqn:Hf; simpl.
    + pose proof (fallback_floor _ _ _ _ _ Hf) as He. lra.
    + lra.
Qed.

(** X6: the speed that [test_speed] returns is never negative, whatever
    the servers answer and whatever the clock does (a download measured
    over a duration that is not positive is skipped, and the fallback
    estimate is at least 0.1). *)
Theorem test_speed_never_negative env port' h :
  (0 <= fst (test_speed port' env h))%Q.
Proof. apply test_speed_nonneg. Qed.

Lemma sends_try_download (P : Event -> Prop) proxies item :
  P EClock -> P (EGet (fst item) proxies 12) -> sends_at_most P 1 (try_download proxies item).
Proof.
  intros Hc Hg. destruct item as [test_url expected_size]. unfold try_download.
  apply (sends_bind P 0 1); [apply sends_now, Hc|]. intros start_time.
  apply (sends_bind P 1 0); [apply sends_http_get, Hg|]. intros [|response].
  - apply sends_ret.
  - destruct (status_code response =? 200); [|apply sends_ret].
    apply (sends_bind P 0 0); [apply sends_now, Hc|]. intros t.
    destruct (_ && _); apply sends_ret.
Qed.

Lemma sends_download_loop (P : Event -> Prop) proxies data :
  P EClock -> (forall item, In item data -> P (EGet (fst item) proxies 12)) ->
  sends_at_most P (length data) (download_loop proxies data).
Proof.
  intros Hc. induction data as [|item rest IH]; intros Hg; simpl.
  - apply sends_ret.
  - apply (sends_bind P 1 (length rest)).
    + apply sends_try_download; [exact Hc|apply Hg; left; reflexivity].
    + intros [m|].
      * apply (sends_weaken P 0); [lia|apply sends_ret].
      * apply IH. intros i Hi. apply Hg. right. exact Hi.
Qed.

Lemma sends_ping_loop (P : Event -> Prop) proxies n ping_times :
  P EClock -> P (EGet status_url proxies 8) ->
  sends_at_most P n (ping_loop proxies n ping_times).
Proof.
  intros Hc Hg. revert ping_times. induction n as [|n IH]; intros ping_times; simpl.
  - apply sends_ret.
  - apply (sends_bind P 0 (S n)); [apply sends_now, Hc|]. intros start_time.
    apply (sends_bind P 1 n); [apply sends_http_get, Hg|]. intros [|response].
    + apply (sends_weaken P 0); [lia|apply sends_ret].
    + destruct (status_code response =? 200); [|apply IH].
      apply (sends_bind P 0 n); [apply sends_now, Hc|]. intros t. apply IH.
Qed.

Lemma sends_test_speed (P : Event -> Prop) port' :
  P EClock ->
  (forall item, In item test_data -> P (EGet (fst item) (speed_proxies port') 12)) ->
  P (EGet status_url (speed_proxies port') 8) ->
  sends_at_most P 6 (test_speed port').
Proof.
  intros Hc Hd Hs. unfold test_speed.
  apply (sends_bind P 3 3).
  - apply (sends_download_loop P _ test_data); assumption.
  - intros [m|]; [apply (sends_weaken P 0); [lia|apply sends_ret]|].
    apply (sends_bind P 3 0).
    + unfold fallback. apply (sends_bind P 3 0).
      * apply sends_ping_loop; assumption.
      * intros [[|p ps]|]; try apply sends_ret.
        destruct (PyNum.eqb _ 0); apply sends_ret.
    + intros [e|]; apply sends_ret.
Qed.

(** X7: one speed test sends at most six requests, whatever the servers
    answer.  Its log is that of the download loop followed by that of the
    fallback.  The download loop reads the clock and sends at most three
    requests, each for one of the test files, through the SOCKS proxy of
    the port and with a time-out of 12 s.  The fallback reads the clock and
    sends at most three status checks, through the same proxy and with a
    time-out of 8 s. *)
Theorem probe_requests_bounded env port' h :
  exists download_events check_events,
    snd (test_speed port' env h) = h ++ download_events ++ check_events /\
    Forall (download_event port') download_events /\
    (length (List.filter is_request download_events) <= 3)%nat /\
    Forall (check_event port') check_events /\
    (length (List.filter is_request check_events) <= 3)%nat.
Proof.
  unfold test_speed. unfold bind at 1.
  destruct (sends_download_loop (download_event port') (speed_proxies port') test_data I
              (fun item Hi => conj (in_map fst _ _ Hi) (conj eq_refl eq_refl)) env h)
    as [evs1 [E1 [F1 L1]]].
  destruct (download_loop (speed_proxies port') test_data env h) as [[m|] h1];
    simpl in E1; subst h1.
  - exists evs1, []. simpl. rewrite app_nil_r. repeat split; auto.
  - assert (Hfb : sends_at_most (check_event port') 3 (fallback (speed_proxies port'))).
    { unfold fallback. apply (sends_bind _ 3 0).
      - apply sends_ping_loop; [exact I|repeat split].
      - intros [[|p ps]|]; try apply sends_ret.
        destruct (PyNum.eqb _ 0); apply sends_ret. }
    unfold bind. destruct (Hfb env (h ++ evs1)) as [evs2 [E2 [F2 L2]]].
    destruct (fallback (speed_proxies port') env (h ++ evs1)) as [[e|] h2];
      simpl in E2; subst h2; exists evs1, evs2; simpl; rewrite <- app_assoc; auto.
Qed.

Lemma download_loop_offline env proxies data h :
  offline env ->
  download_loop proxies data env h
  = (None, h ++ raised_requests (map fst data) proxies 12).
Proof.
  intros Hoff. revert h. induction data as [|[test_url expected_size] rest IH]; intros h.
  - simpl. unfold ret, raised_requests. simpl. rewrite app_nil_r. reflexivity.
  - simpl. unfold bind at 1. unfold try_download, bind, now, http_get.
    rewrite Hoff. unfold ret at 1. rewrite IH. unfold raised_requests. simpl.
    rewrite <- !app_assoc. reflexivity.
Qed.

(** X8: when the network is down, [test_speed] returns 0 after trying
    each of the three downloads once and one status check: the first
    status check that raises ends the fallback. *)
Theorem offline_probe_reports_zero env port' h :
  offline env ->
  test_speed port' env h
  = (0%Q,
     h ++ raised_requests (map fst test_data) (speed_proxies port') 12
       ++ raised_requests [status_url] (speed_proxies port') 8).
Proof.
  intros Hoff. unfold test_speed. unfold bind at 1.
  rewrite (download_loop_offline _ _ _ _ Hoff).
  unfold bind, fallback, bind. simpl ping_loop. unfold bind, now, http_get.
  rewrite Hoff. unfold ret. unfold raised_requests. simpl.
  rewrite <- !app_assoc. reflexivity.
Qed.

Lemma offline_probe_reports_zero_witness :
  test_speed 9050 env_offline []
  = (0%Q,
     [] ++ raised_requests (map fst test_data) (speed_proxies 9050) 12
        ++ raised_requests [status_url] (speed_proxies 9050) 8).
Proof.
  apply (offline_probe_reports_zero env_offline 9050 []).
  intros h url proxies timeout. reflexivity.
Defined.

(** ** Bridges: letter case, and what is stored *)

Lemma lower_char_idempotent c : PyStr.lower_char (PyStr.lower_char c) = PyStr.lower_char c.
Proof.
  destruct c as [[] [] [] [] [] [] [] []]; reflexivity.
Qed.


Lemma lower_idempotent x : PyStr.lower (PyStr.lower x) = PyStr.lower x.
Proof.
  unfold PyStr.lower. induction x as [|a x IH]; simpl; [reflexivity|].
  rewrite IH, lower_char_idempotent. reflexivity.
Qed.





(** Stripping keeps the first character that is no white space. *)
Lemma rstrip_head s c t : PyStr.rstrip s = String c t -> exists t', s = String c t'.
Proof.
  destruct s as [|d s']; simpl; [discriminate|].
  destruct (PyStr.rstrip s'); [destruct (PyStr.is_space d)|];
    intros H; inversion H; subst; eauto.
Qed.

Lemma lstrip_head s c t : PyStr.lstrip s = String c t -> PyStr.is_space c = false.
Proof.
  induction s as [|d s' IH]; simpl; [discriminate|].
  destruct (PyStr.is_space d) eqn:E; [exact IH|].
  intros H. inversion H; subst. exact E.
Qed.

Lemma strip_head s c t : PyStr.strip s = String c t -> PyStr.is_space c = false.
Proof.
  unfold PyStr.strip. intros H. apply rstrip_head in H as [t' H].
  eapply lstrip_head, H.
Qed.

Lemma rstrip_truthy c t : PyStr.is_space c = false -> PyStr.truthy (PyStr.rstrip (String c t)) = true.
Proof.
  intros E. simpl. destruct (PyStr.rstrip t); [rewrite E|]; reflexivity.
Qed.

Lemma strip_truthy c t : PyStr.is_space c = false -> PyStr.truthy (PyStr.strip (String c t)) = true.
Proof.
  intros E. unfold PyStr.strip. simpl. rewrite E. apply rstrip_truthy, E.
Qed.

Lemma space_of_nl c : Ascii.eqb c "010" = true -> PyStr.is_space c = true.
Proof. intros E. apply Ascii.eqb_eq in E. subst c. reflexivity. Qed.

(** An input that is not blank holds a line that is not blank. *)
Lemma input_lines_nonempty bridge_input :
  PyStr.truthy (PyStr.strip bridge_input) = true -> input_lines bridge_input <> [].
Proof.
  unfold input_lines. destruct (PyStr.strip bridge_input) as [|c t] eqn:Hs; [discriminate|].
  intros _. pose proof (strip_head _ _ _ Hs) as Hc.
  simpl. destruct (Ascii.eqb c "010") eqn:E.
  - apply space_of_nl in E. congruence.
  - destruct (PyStr.split "010" t) as [|w ws]; simpl; rewrite strip_truthy by exact Hc;
      discriminate.
Qed.

Lemma wf_bridge_line_detected line : wf_bridge_line line -> detect_bridge_type line <> None.
Proof.
  intros [_ H]. destruct line as [|c t]; [discriminate|].
  unfold detect_bridge_type. simpl PyStr.truthy. cbv beta iota delta [negb].
  destruct (PyStr.contains "obfs4" _); [discriminate|].
  destruct (PyStr.contains "snowflake" _); [discriminate|].
  destruct (_ || _); [discriminate|].
  destruct (PyStr.contains "webtunnel" _); discriminate.
Qed.

(** ** Bridges: one stored line for each line typed *)

Lemma rstrip_has_text s : PyStr.truthy (PyStr.rstrip s) = has_text s.
Proof.
  induction s as [|c t IH]; [reflexivity|]. simpl.
  destruct (PyStr.rstrip t) as [|d t'].
  - simpl in IH. rewrite <- IH, orb_false_r. destruct (PyStr.is_space c); reflexivity.
  - simpl in IH. rewrite <- IH, orb_true_r. reflexivity.
Qed.

Lemma lstrip_has_text s : has_text (PyStr.lstrip s) = has_text s.
Proof.
  induction s as [|c t IH]; [reflexivity|]. simpl.
  destruct (PyStr.is_space c) eqn:Hc; [exact IH|]. simpl. rewrite Hc. reflexivity.
Qed.

Lemma strip_has_text s : PyStr.truthy (PyStr.strip s) = has_text s.
Proof. unfold PyStr.strip. rewrite rstrip_has_text. apply lstrip_has_text. Qed.



Lemma lstrip_blank s : has_text s = false -> PyStr.lstrip s = "".
Proof.
  induction s as [|c t IH]; [reflexivity|]. simpl. intros H.
  apply orb_false_elim in H as [Hc Ht]. apply negb_false_iff in Hc.
  rewrite Hc. apply IH, Ht.
Qed.

Lemma truthy_false s : PyStr.truthy s = false -> s = "".
Proof. destruct s; [reflexivity|discriminate]. Qed.

(** Stripping on the left and on the right commute. *)
Lemma strip_comm s : PyStr.rstrip (PyStr.lstrip s) = PyStr.lstrip (PyStr.rstrip s).
Proof.
  induction s as [|c t IH]; [reflexivity|].
  destruct (PyStr.is_space c) eqn:Hc.
  - change (PyStr.lstrip (String c t)) with (if PyStr.is_space c then PyStr.lstrip t else String c t).
    rewrite Hc, IH. simpl PyStr.rstrip at 2.
    destruct (PyStr.rstrip t) as [|d t'].
    + rewrite Hc. reflexivity.
    + simpl. rewrite Hc. reflexivity.
  - change (PyStr.lstrip (String c t)) with (if PyStr.is_space c then PyStr.lstrip t else String c t).
    rewrite Hc. simpl PyStr.rstrip.
    destruct (PyStr.rstrip t) as [|d t']; rewrite ?Hc; simpl; rewrite Hc; reflexivity.
Qed.

Lemma strip_of_rstrip a b : PyStr.rstrip a = PyStr.rstrip b -> PyStr.strip a = PyStr.strip b.
Proof. unfold PyStr.strip. rewrite !strip_comm. intros ->. reflexivity. Qed.

Lemma split_cons sep s : exists w ws, PyStr.split sep s = w :: ws.
Proof.
  induction s as [|c t [w [ws IH]]]; simpl; [eauto|].
  destruct (Ascii.eqb c sep); [eauto|]. rewrite IH. eauto.
Qed.

Lemma stripped_lines_cons line lines :
  stripped_lines (line :: lines)
  = (if PyStr.truthy (PyStr.strip line) then [PyStr.strip line] else []) ++ stripped_lines lines.
Proof.
  unfold stripped_lines. simpl. destruct (PyStr.truthy (PyStr.strip line)); reflexivity.
Qed.

(** Stripping a text on the left does not change its stripped lines. *)
Lemma stripped_lines_lstrip s :
  stripped_lines (PyStr.split "010" (PyStr.lstrip s)) = stripped_lines (PyStr.split "010" s).
Proof.
  induction s as [|c t IH]; [reflexivity|].
  change (PyStr.lstrip (String c t)) with (if PyStr.is_space c then PyStr.lstrip t else String c t).
  destruct (PyStr.is_space c) eqn:Hc; [|reflexivity].
  rewrite IH. simpl PyStr.split.
  destruct (Ascii.eqb c "010") eqn:E.
  - rewrite stripped_lines_cons. reflexivity.
  - destruct (split_cons "010" t) as [w [ws Hs]]. rewrite Hs.
    rewrite !stripped_lines_cons.
    assert (Hw : PyStr.strip (String c w) = PyStr.strip w).
    { unfold PyStr.strip. simpl. rewrite Hc. reflexivity. }
    rewrite Hw. reflexivity.
Qed.

Lemma rstrip_cons c a b :
  PyStr.rstrip a = PyStr.rstrip b -> PyStr.rstrip (String c a) = PyStr.rstrip (String c b).
Proof. intros H. simpl. rewrite H. reflexivity. Qed.

(** Stripping a text on the right: the first line changes by white space
    at its end only, the other lines that are not blank stay. *)
Lemma split_rstrip s :
  exists w ws w' ws',
    PyStr.split "010" s = w :: ws /\ PyStr.split "010" (PyStr.rstrip s) = w' :: ws' /\
    PyStr.rstrip w' = PyStr.rstrip w /\ stripped_lines ws' = stripped_lines ws.
Proof.
  induction s as [|c t IH].
  - exists "", [], "", []. auto.
  - destruct IH as [w0 [ws0 [w0' [ws0' [Hs [Hs' [Hw Hws]]]]]]].
    simpl PyStr.rstrip. simpl PyStr.split at 1. rewrite Hs.
    destruct (PyStr.rstrip t) as [|d t'] eqn:Hr.
    + simpl in Hs'. injection Hs' as <- <-.
      assert (Hblank : PyStr.strip w0 = "").
      { apply truthy_false. rewrite strip_has_text, <- rstrip_has_text, <- Hw. reflexivity. }
      destruct (PyStr.is_space c) eqn:Hc.
      * destruct (Ascii.eqb c "010") eqn:E.
        -- exists "", (w0 :: ws0), "", []. repeat split.
           rewrite stripped_lines_cons, Hblank, <- Hws. reflexivity.
        -- exists (String c w0), ws0, "", []. repeat split; [|exact Hws].
           simpl. rewrite <- Hw. simpl. rewrite Hc. reflexivity.
      * assert (E : Ascii.eqb c "010" = false).
        { destruct (Ascii.eqb c "010") eqn:E; [|reflexivity].
          apply space_of_nl in E. congruence. }
        rewrite E. exists (String c w0), ws0, (String c ""), []. simpl PyStr.split.
        rewrite E. repeat split; [|exact Hws].
        simpl. rewrite <- Hw. simpl. rewrite Hc. reflexivity.
    + rewrite <- Hr in Hs' |- *.
      change (PyStr.split "010" (String c (PyStr.rstrip t)))
        with (if Ascii.eqb c "010" then "" :: PyStr.split "010" (PyStr.rstrip t)
              else match PyStr.split "010" (PyStr.rstrip t) with
                   | [] => [String c ""]
                   | w :: ws => String c w :: ws
                   end).
      rewrite Hs'. destruct (Ascii.eqb c "010") eqn:E.
      * exists "", (w0 :: ws0), "", (w0' :: ws0'). repeat split.
        rewrite !stripped_lines_cons, Hws, (strip_of_rstrip _ _ Hw). reflexivity.
      * exists (String c w0), ws0, (String c w0'), ws0'. repeat split; [|exact Hws].
        apply rstrip_cons, Hw.
Qed.

Lemma stripped_lines_rstrip s :
  stripped_lines (PyStr.split "010" (PyStr.rstrip s)) = stripped_lines (PyStr.split "010" s).
Proof.
  destruct (split_rstrip s) as [w [ws [w' [ws' [Hs [Hs' [Hw Hws]]]]]]].
  rewrite Hs, Hs', !stripped_lines_cons, Hws, (strip_of_rstrip _ _ Hw). reflexivity.
Qed.

(** Stripping the whole input first changes nothing: the lines that
    [parse_bridge_input] works on are the lines of the input that are not
    blank, each stripped. *)
Lemma input_lines_stripped bridge_input :
  input_lines bridge_input = stripped_lines (PyStr.split "010" bridge_input).
Proof.
  unfold input_lines. fold (stripped_lines (PyStr.split "010" (PyStr.strip bridge_input))).
  unfold PyStr.strip at 1. rewrite stripped_lines_rstrip. apply stripped_lines_lstrip.
Qed.


Lemma parse_bridge_input_stores_bridge_lines_aux
    (set_to_list : gset string -> list string) bridge_input :
  match parse_bridge_input set_to_list bridge_input with
  | (None, bridge_type) => bridge_type = None /\ has_text bridge_input = false
  | (Some bridge_lines, _) =>
      has_text bridge_input = true /\
      bridge_lines <> [] /\
      bridge_lines
      = map bridge_line_of (stripped_lines (PyStr.split "010" bridge_input)) /\
      Forall (fun line => wf_bridge_line line /\ detect_bridge_type line <> None) bridge_lines
  end.
Proof.
  unfold parse_bridge_input. rewrite <- strip_has_text.
  destruct (PyStr.truthy (PyStr.strip bridge_input)) eqn:Hs; [|split; reflexivity].
  cbv beta iota delta [negb].
  rewrite collect_bridges_spec. simpl app.
  assert (Hne : input_lines bridge_input <> []) by (apply input_lines_nonempty, Hs).
  assert (Hwf : Forall (fun line => wf_bridge_line line /\ detect_bridge_type line <> None)
                  (map bridge_line_of (input_lines bridge_input))).
  { apply Forall_map. eapply Forall_impl; [apply input_lines_no_nl|].
    intros line Hline. simpl. pose proof (bridge_line_of_wf line Hline) as Hw.
    split; [exact Hw|apply wf_bridge_line_detected, Hw]. }
  assert (Hmap : map bridge_line_of (input_lines bridge_input) <> []).
  { destruct (input_lines bridge_input); [congruence|discriminate]. }
  rewrite <- input_lines_stripped.
  destruct (Z.of_nat (size _) =? 1); [repeat split; assumption|].
  destruct (1 <? Z.of_nat (size _)); repeat split; assumption.
Qed.



(** ** ConfigBuilder: the whole torrc *)

(** X11: what [create_torrc] leaves behind.  For an instance and bridge
    data whose strings are single lines, it draws a circuit period between
    15 and 45, makes the data directory and writes one file, the torrc of
    the instance.  The lines of that file are, in this order: [SocksPort]
    and [DataDirectory]; when bridges are used and bridge data is present,
    [UseBridges 1], the transport plugin of a known bridge type and the
    stored bridge lines, unchanged and in their order; then [ExitNodes],
    [StrictNodes 1], [NewCircuitPeriod] with the period drawn,
    [MaxCircuitDirtiness 300], [CircuitBuildTimeout],
    [LearnCircuitBuildTimeout 0], [NumEntryGuards 3] and [UseEntryGuards 1].
    The text ends with a line feed. *)
Theorem create_torrc_writes_directives env bridge_data inst use_bridges h :
  PyStr.no_nl (data_dir inst) = true ->
  PyStr.no_nl (country inst) = true ->
  wf_bridge_data bridge_data ->
  exists circuit_period text,
    15 <= circuit_period <= 45 /\
    snd (create_torrc bridge_data inst use_bridges env h)
    = h ++ [ERandint 15 45; EMkdir (data_dir inst); EWrite (torrc inst) text] /\
    directives text
    = [ "SocksPort " +:+ PyStr.of_int (port inst);
        "DataDirectory " +:+ data_dir inst ]
      ++ match use_bridges, bridge_data with
         | true, Some (bridge_lines, bridge_type) =>
             ["UseBridges 1"] ++ plugin_lines bridge_type ++ bridge_lines
         | _, _ => []
         end
      ++ [ "ExitNodes {" +:+ country inst +:+ "}";
           "StrictNodes 1";
           "NewCircuitPeriod " +:+ PyStr.of_int circuit_period;
           "MaxCircuitDirtiness 300";
           "CircuitBuildTimeout " +:+ (if use_bridges then "120" else "60");
           "LearnCircuitBuildTimeout 0";
           "NumEntryGuards 3";
           "UseEntryGuards 1";
           "" ].
Proof.
  intros Hdir Hcountry Hwf.
  destruct (create_torrc_writes env bridge_data inst use_bridges h)
    as [circuit_period [Hrange Hlog]].
  exists circuit_period, (torrc_text inst use_bridges bridge_data circuit_period).
  split; [exact Hrange|]. split; [exact Hlog|].
  destruct (bridge_section_directives use_bridges bridge_data Hwf) as [Hnl _].
  unfold directives. rewrite torrc_text_unlines, split_unlines.
  - unfold torrc_lines, head_lines, bridge_section, tail_lines.
    rewrite <- !app_assoc. reflexivity.
  - unfold torrc_lines. repeat (apply Forall_app; split); [|exact Hnl|].
    + repeat constructor; rewrite no_nl_app; [rewrite of_int_no_nl|rewrite Hdir]; reflexivity.
    + unfold tail_lines. repeat constructor; rewrite ?no_nl_app, ?of_int_no_nl, ?Hcountry;
        try reflexivity.
      destruct use_bridges; reflexivity.
Qed.

Lemma create_torrc_writes_directives_witness :
  exists circuit_period text,
    15 <= circuit_period <= 45 /\
    snd (create_torrc obfs4_bridges inst_us true env_offline [])
    = [] ++ [ERandint 15 45; EMkdir (data_dir inst_us); EWrite (torrc inst_us) text] /\
    directives text
    = [ "SocksPort " +:+ PyStr.of_int (port inst_us);
        "DataDirectory " +:+ data_dir inst_us ]
      ++ match true, obfs4_bridges with
         | true, Some (bridge_lines, bridge_type) =>
             ["UseBridges 1"] ++ plugin_lines bridge_type ++ bridge_lines
         | _, _ => []
         end
      ++ [ "ExitNodes {" +:+ country inst_us +:+ "}";
           "StrictNodes 1";
           "NewCircuitPeriod " +:+ PyStr.of_int circuit_period;
           "MaxCircuitDirtiness 300";
           "CircuitBuildTimeout " +:+ (if true then "120" else "60");
           "LearnCircuitBuildTimeout 0";
           "NumEntryGuards 3";
           "UseEntryGuards 1";
           "" ].
Proof.
  apply (create_torrc_writes_directives env_offline obfs4_bridges inst_us true []).
  - reflexivity.
  - reflexivity.
  - simpl. repeat constructor.
Defined.

(** ** AttemptRunner: what is collected, the skeleton of the attempts *)

Lemma accepted_true inst ip' c ci p :
  accepted inst (ip', c, ci, p) = true ->
  exists a, ip' = Some a /\ PyStr.truthy a = true /\ c = country inst.
Proof.
  unfold accepted. destruct ip' as [a|]; [|discriminate].
  intros H. apply andb_prop in H as [Ht Hc]. apply String.eqb_eq in Hc.
  exists a. auto.
Qed.

(** One attempt appends at most one result: an address that is not empty,
    the country of the instance, a speed that is not negative. *)
Lemma attempt_cases env bridge_data inst use_bridges results h :
  let results' := fst (attempt bridge_data inst use_bridges results env h) in
  results' = results \/
  exists r, results' = results ++ [r] /\
            r_country r = country inst /\ PyStr.truthy (r_ip r) = true /\
            (0 <= r_speed r)%Q.
Proof.
  unfold attempt, probe, bind.
  destruct (launch bridge_data inst use_bridges env h) as [[] h0].
  destruct (get_ip_and_location (port inst) env h0) as [[[[ip' c] ci] p] h2].
  destruct (accepted inst (ip', c, ci, p)) eqn:Hacc; [|left; reflexivity].
  pose proof (test_speed_nonneg env (port inst) h2) as Hs.
  destruct (test_speed (port inst) env h2) as [s h3]. simpl in Hs.
  destruct (accepted_true inst ip' c ci p Hacc) as [a [-> [Ht ->]]].
  right. eexists. split; [reflexivity|]. simpl. auto.
Qed.

Lemma attempts_results env bridge_data inst use_bridges n results h :
  exists new,
    fst (attempts bridge_data inst use_bridges n results env h) = results ++ new /\
    (length new <= n)%nat /\
    Forall (fun r => r_country r = country inst /\ PyStr.truthy (r_ip r) = true /\
                     (0 <= r_speed r)%Q) new.
Proof.
  revert results h. induction n as [|n IH]; intros results h.
  - exists []. simpl. rewrite app_nil_r. auto.
  - simpl. unfold bind at 1.
    pose proof (attempt_cases env bridge_data inst use_bridges results h) as Hstep.
    destruct (attempt bridge_data inst use_bridges results env h) as [results1 h1].
    simpl in Hstep. destruct (IH results1 h1) as [new [E [Hlen Hall]]].
    destruct Hstep as [->|[r [-> Hr]]].
    + exists new. split; [exact E|]. split; [lia|exact Hall].
    + exists (r :: new). rewrite E, <- app_assoc. split; [reflexivity|].
      split; [simpl; lia|]. constructor; assumption.
Qed.

(** X12: the results that [find_fastest_ip_for_instance] collects.  There
    are at most as many as attempts, each one has an address that is not
    empty, the country of the instance and a speed that is not negative.
    When none was collected the search returns nothing and leaves the
    instance as it was; otherwise the collected results are stored as the
    best results of the instance. *)
Theorem collected_results_are_accepted env bridge_data inst use_bridges max_attempts h :
  let results := fst (attempts bridge_data inst use_bridges (Z.to_nat max_attempts) [] env h) in
  let found := fst (find_fastest_ip_for_instance bridge_data inst use_bridges
                      max_attempts env h) in
  (length results <= Z.to_nat max_attempts)%nat /\
  Forall (fun r => r_country r = country inst /\ PyStr.truthy (r_ip r) = true /\
                   (0 <= r_speed r)%Q) results /\
  (results = [] -> found = (None, inst)) /\
  (results <> [] -> fst found <> None /\ best_results (snd found) = results).
Proof.
  intros results found.
  destruct (attempts_results env bridge_data inst use_bridges (Z.to_nat max_attempts) [] h)
    as [new [E [Hlen Hall]]].
  fold results in E. simpl in E. subst new.
  split; [exact Hlen|]. split; [exact Hall|].
  unfold found, find_fastest_ip_for_instance, bind.
  unfold results.
  destruct (attempts bridge_data inst use_bridges (Z.to_nat max_attempts) [] env h)
    as [[|first rest] h1]; simpl.
  - split; [reflexivity|]. intros H. contradiction.
  - split; [discriminate|]. intros _. split; [discriminate|reflexivity].
Qed.

Lemma filter_none {A} (f : A -> bool) (l : list A) :
  Forall (fun x => f x = false) l -> List.filter f l = [].
Proof.
  induction 1 as [|x l Hx _ IH]; [reflexivity|]. simpl. rewrite Hx. exact IH.
Qed.

(** The commands and pauses of one attempt, and the requests it sends. *)
Lemma attempt_trace env bridge_data inst use_bridges results h :
  exists evs,
    snd (attempt bridge_data inst use_bridges results env h) = h ++ evs /\
    List.filter is_control_event evs = attempt_control bridge_data inst use_bridges /\
    (length (List.filter is_request evs) <= 15)%nat.
Proof.
  set (P := fun e => is_control_event e = false).
  assert (Hid : sends_at_most P 9 (get_ip_and_location (port inst))).
  { apply sends_get_ip_and_location; intros; reflexivity. }
  assert (Hsp : sends_at_most P 6 (test_speed (port inst))).
  { apply sends_test_speed; intros; reflexivity. }
  unfold attempt, probe, launch, stop_instance, create_torrc.
  unfold bind, run, sleep, randint, mkdir, write_file, popen.
  match goal with
  | |- context [get_ip_and_location (port inst) env ?h0] =>
      destruct (Hid env h0) as [evs1 [E1 [F1 L1]]];
      destruct (get_ip_and_location (port inst) env h0) as [[[[ip' c] ci] p] h2]
  end.
  simpl in E1. subst h2.
  destruct (accepted inst (ip', c, ci, p)).
  - match goal with
    | |- context [test_speed (port inst) env ?h0] =>
        destruct (Hsp env h0) as [evs2 [E2 [F2 L2]]];
        destruct (test_speed (port inst) env h0) as [s h3]
    end.
    simpl in E2. subst h3. unfold ret. simpl.
    eexists. split; [rewrite <- !app_assoc; reflexivity|].
    simpl. rewrite !List.filter_app, !length_app.
    rewrite (filter_none _ _ F1), (filter_none _ _ F2). simpl.
    split; [reflexivity|]. lia.
  - unfold ret. simpl.
    eexists. split; [rewrite <- !app_assoc; reflexivity|].
    simpl. rewrite !List.filter_app, !length_app.
    rewrite (filter_none _ _ F1). simpl.
    split; [reflexivity|]. lia.
Qed.

Lemma find_fastest_trace env bridge_data inst use_bridges max_attempts h :
  exists evs,
    snd (find_fastest_ip_for_instance bridge_data inst use_bridges max_attempts env h)
    = h ++ evs /\
    List.filter is_control_event evs
    = concat (repeat (attempt_control bridge_data inst use_bridges) (Z.to_nat max_attempts)) /\
    (length (List.filter is_request evs) <= 15 * Z.to_nat max_attempts)%nat.
Proof.
  assert (Hloop : forall n results h0, exists evs,
            snd (attempts bridge_data inst use_bridges n results env h0) = h0 ++ evs /\
            List.filter is_control_event evs
            = concat (repeat (attempt_control bridge_data inst use_bridges) n) /\
            (length (List.filter is_request evs) <= 15 * n)%nat).
  { induction n as [|n IH]; intros results h0.
    - exists []. simpl. rewrite app_nil_r. auto.
    - simpl attempts. unfold bind at 1.
      destruct (attempt_trace env bridge_data inst use_bridges results h0)
        as [evs1 [E1 [C1 L1]]].
      destruct (attempt bridge_data inst use_bridges results env h0) as [results1 h1].
      simpl in E1. subst h1.
      destruct (IH results1 (h0 ++ evs1)) as [evs2 [E2 [C2 L2]]].
      exists (evs1 ++ evs2). rewrite E2, <- app_assoc. split; [reflexivity|].
      rewrite !List.filter_app, length_app, C1, C2. split; [reflexivity|]. lia. }
  unfold find_fastest_ip_for_instance, bind.
  destruct (Hloop (Z.to_nat max_attempts) [] h) as [evs [E [C L]]].
  destruct (attempts bridge_data inst use_bridges (Z.to_nat max_attempts) [] env h)
    as [[|first rest] h1]; simpl in E; subst h1; exists evs; auto.
Qed.


(** X13: the skeleton of a search.  Over [n] attempts the commands and
    pauses of [find_fastest_ip_for_instance] are [n] times the same
    sequence: stop Tor, wait 2 s, remove the cached files and the state,
    start Tor, wait for the circuit (30 s with obfs4 bridges, else 20 s),
    wait 2 s after the measurements.  So Tor is stopped before every
    start, and it is left running after the last attempt.  The search
    sends at most 15 requests per attempt. *)
Theorem attempts_stop_before_start env bridge_data inst use_bridges max_attempts h :
  exists evs,
    snd (find_fastest_ip_for_instance bridge_data inst use_bridges max_attempts env h)
    = h ++ evs /\
    List.filter is_control_event evs
    = concat (repeat (attempt_control bridge_data inst use_bridges) (Z.to_nat max_attempts)) /\
    (length (List.filter is_request evs) <= 15 * Z.to_nat max_attempts)%nat.
Proof. apply find_fastest_trace. Qed.

(** ** AttemptRunner: ties *)

(** [max] returns the first of the greatest: what comes before it is
    strictly smaller. *)
Lemma max_by_first {A} (key : A -> Q) (rest : list A) :
  forall (pre : list A) (best : A) (mid : list A),
    Forall (fun x => (key x < key best)%Q) pre ->
    Forall (fun x => (key x <= key best)%Q) mid ->
    exists earlier later,
      pre ++ best :: mid ++ rest = earlier ++ max_by key best rest :: later /\
      Forall (fun x => (key x < key (max_by key best rest))%Q) earlier /\
      Forall (fun x => (key x <= key (max_by key best rest))%Q) later.
Proof.
  induction rest as [|x rest IH]; intros pre best mid Hpre Hmid.
  - exists pre, mid. rewrite app_nil_r. auto.
  - unfold max_by. simpl. fold (max_by key (if PyNum.ltb (key best) (key x) then x else best) rest).
    destruct (PyNum.ltb (key best) (key x)) eqn:E.
    + apply ltb_lt in E.
      destruct (IH (pre ++ best :: mid) x []) as [earlier [later [Heq H]]].
      * apply Forall_app. split; [|constructor].
        -- eapply Forall_impl; [exact Hpre|]. intros y Hy. simpl in Hy. lra.
        -- exact E.
        -- eapply Forall_impl; [exact Hmid|]. intros y Hy. simpl in Hy. lra.
      * constructor.
      * exists earlier, later. split; [|exact H].
        rewrite <- Heq, <- !app_assoc. reflexivity.
    + apply ltb_ge in E.
      destruct (IH pre best (mid ++ [x])) as [earlier [later [Heq H]]].
      * exact Hpre.
      * apply Forall_app. split; [exact Hmid|]. constructor; [exact E|constructor].
      * exists earlier, later. split; [|exact H].
        rewrite <- Heq, <- !app_assoc. reflexivity.
Qed.

(** X14: ties between attempts.  The result that
    [find_fastest_ip_for_instance] returns is the first of the fastest:
    every result collected before it is strictly slower, and no result
    collected after it is faster.  So of two attempts with the same speed
    the earlier one is kept. *)
Theorem best_result_is_first_of_the_fastest env bridge_data inst use_bridges max_attempts h :
  let results := fst (attempts bridge_data inst use_bridges (Z.to_nat max_attempts) [] env h) in
  match fst (fst (find_fastest_ip_for_instance bridge_data inst use_bridges
                    max_attempts env h)) with
  | Some best =>
      exists earlier later,
        results = earlier ++ best :: later /\
        Forall (fun r => (r_speed r < r_speed best)%Q) earlier /\
        Forall (fun r => (r_speed r <= r_speed best)%Q) later
  | None => results = []
  end.
Proof.
  unfold find_fastest_ip_for_instance, bind.
  destruct (attempts _ _ _ _ _ env h) as [[|first rest] h1]; [reflexivity|].
  simpl. apply (max_by_first r_speed rest [] first []); constructor.
Qed.

(** ** FleetOrchestrator: a network that is down, what a run keeps *)

Lemma attempts_offline env bridge_data inst use_bridges n results h :
  offline env -> fst (attempts bridge_data inst use_bridges n results env h) = results.
Proof.
  intros Hoff. revert results h. induction n as [|n IH]; intros results h; [reflexivity|].
  simpl. unfold bind at 1.
  destruct (attempt bridge_data inst use_bridges results env h) as [results1 h1] eqn:Ha.
  rewrite IH. unfold attempt, probe, bind in Ha.
  destruct (launch bridge_data inst use_bridges env h) as [[] h0].
  rewrite (get_ip_and_location_offline _ _ _ Hoff) in Ha.
  simpl in Ha. injection Ha as <- _. reflexivity.
Qed.

Lemma find_fastest_offline env bridge_data inst use_bridges max_attempts h :
  offline env ->
  fst (find_fastest_ip_for_instance bridge_data inst use_bridges max_attempts env h)
  = (None, inst).
Proof.
  intros Hoff. unfold find_fastest_ip_for_instance, bind.
  pose proof (attempts_offline env bridge_data inst use_bridges
                (Z.to_nat max_attempts) [] h Hoff) as Hres.
  destruct (attempts _ _ _ _ _ env h) as [results h1]. simpl in Hres. subst results.
  reflexivity.
Qed.

Lemma start_loop_offline env bridge_data use_bridges attempts_per_country items i successful h :
  offline env ->
  fst (start_loop bridge_data use_bridges attempts_per_country items i successful env h)
  = (items, successful).
Proof.
  intros Hoff. revert i successful h.
  induction items as [|[name' inst] rest IH]; intros i successful h; [reflexivity|].
  simpl. unfold bind at 1.
  pose proof (find_fastest_offline env bridge_data inst use_bridges attempts_per_country h Hoff)
    as Hfound.
  destruct (find_fastest_ip_for_instance _ _ _ _ env h) as [[result inst1] h1].
  simpl in Hfound. injection Hfound as -> ->.
  unfold bind at 1. specialize (IH (S i) successful h1).
  destruct (start_loop _ _ _ rest (S i) successful env h1) as [[rest1 successful1] h2].
  simpl in IH. injection IH as -> ->. reflexivity.
Qed.

Lemma test_instance_offline env inst i results h :
  offline env -> fst (test_instance inst i results env h) = (inst, results).
Proof.
  intros Hoff. unfold test_instance, check_instance_running, run, bind, ret.
  destruct (run_returncode env h _ =? 0); [|reflexivity].
  rewrite (get_ip_and_location_offline _ _ _ Hoff). reflexivity.
Qed.

Lemma test_loop_offline env items i results h :
  offline env -> fst (test_loop items i results env h) = (items, results).
Proof.
  intros Hoff. revert i results h.
  induction items as [|[name' inst] rest IH]; intros i results h; [reflexivity|].
  simpl. unfold bind at 1.
  pose proof (test_instance_offline env inst i results h Hoff) as Hstep.
  destruct (test_instance inst i results env h) as [[inst1 results1] h1].
  simpl in Hstep. injection Hstep as -> ->.
  unfold bind at 1. specialize (IH (S i) results h1).
  destruct (test_loop rest (S i) results env h1) as [[rest1 results2] h2].
  simpl in IH. injection IH as -> ->. reflexivity.
Qed.

(** X15: when the network is down, a full run and a re-test pass leave
    every instance exactly as it was and return an empty ranking, for every
    fleet, whatever the number of attempts and whether or not Tor is
    running: no record of an earlier measurement is overwritten by a
    failure. *)
Theorem offline_runs_change_nothing env bridge_data attempts_per_country instances h :
  offline env ->
  fst (start_all_instances_with_best_ips bridge_data attempts_per_country instances env h)
  = (instances, match instances with [] => None | _ => Some [] end) /\
  fst (test_all_instances instances env h) = (instances, Some []).
Proof.
  intros Hoff. split.
  - unfold start_all_instances_with_best_ips.
    destruct instances as [|entry rest]; [reflexivity|].
    unfold bind.
    pose proof (start_loop_offline env bridge_data (bridges_active bridge_data)
                  attempts_per_country (entry :: rest) 0 [] h Hoff) as Hloop.
    destruct (start_loop _ _ _ (entry :: rest) 0 [] env h) as [[items successful] h1].
    simpl in Hloop. injection Hloop as -> ->. reflexivity.
  - unfold test_all_instances, bind.
    pose proof (test_loop_offline env instances 0 [] h Hoff) as Hloop.
    destruct (test_loop instances 0 [] env h) as [[items results] h1].
    simpl in Hloop. injection Hloop as -> ->. reflexivity.
Qed.

Lemma offline_runs_change_nothing_witness :
  fst (start_all_instances_with_best_ips None 3 fleet env_offline [])
  = (fleet, match fleet with [] => None | _ => Some [] end) /\
  fst (test_all_instances fleet env_offline []) = (fleet, Some []).
Proof.
  apply (offline_runs_change_nothing env_offline None 3 fleet []).
  intros h url proxies timeout. reflexivity.
Defined.

(** The search returns nothing and leaves the instance as it was, or it
    returns a result that the instance then holds; the configuration of
    the instance stays. *)
Lemma find_fastest_cases env bridge_data inst use_bridges max_attempts h :
  let found := fst (find_fastest_ip_for_instance bridge_data inst use_bridges
                      max_attempts env h) in
  found = (None, inst) \/
  exists best inst',
    found = (Some best, inst') /\ configuration inst' = configuration inst /\
    holds_result inst' best.
Proof.
  unfold find_fastest_ip_for_instance, bind.
  pose proof (attempts_collect_accepted env bridge_data inst use_bridges
                (Z.to_nat max_attempts) [] h (List.Forall_nil _)) as Hacc.
  destruct (attempts _ _ _ _ _ env h) as [[|first rest] h1]; [left; reflexivity|].
  right. simpl in Hacc. destruct (max_by_spec r_speed rest first) as [Hin _].
  eexists. eexists. split; [reflexivity|]. split; [reflexivity|].
  unfold holds_result. simpl.
  rewrite Forall_forall in Hacc.
  repeat split; try reflexivity.
  - symmetry. apply Hacc, list_elem_of_In, Hin.
  - exact Hin.
Qed.

Lemma start_loop_spec env bridge_data use_bridges attempts_per_country items :
  forall i successful h items' successful' h',
  start_loop bridge_data use_bridges attempts_per_country items i successful env h
  = ((items', successful'), h') ->
  fleet_configuration items' = fleet_configuration items /\
  exists new,
    successful' = successful ++ new /\
    sublist (map rk_inst new) (seq i (length items)) /\
    Forall (fun x => exists k inst,
              rk_inst x = (i + k)%nat /\ items' !! k = Some (rk_name x, inst) /\
              holds_result inst (rk_result x)) new.
Proof.
  induction items as [|[name' inst] rest IH]; intros i successful h items' successful' h' Hrun.
  - injection Hrun as <- <- _. split; [reflexivity|]. exists []. rewrite app_nil_r.
    split; [reflexivity|]. split; constructor.
  - simpl in Hrun. unfold bind at 1 in Hrun.
    pose proof (find_fastest_cases env bridge_data inst use_bridges attempts_per_country h)
      as Hfound.
    destruct (find_fastest_ip_for_instance _ _ _ _ env h) as [[result inst1] h1].
    simpl in Hfound. unfold bind at 1 in Hrun.
    match type of Hrun with
    | context [start_loop _ _ _ rest (S i) ?succ env h1] =>
        destruct (start_loop bridge_data use_bridges attempts_per_country rest (S i)
                    succ env h1) as [[rest1 successful1] h2] eqn:Htail
    end.
    injection Hrun as <- <- _.
    destruct (IH _ _ _ _ _ _ Htail) as [Hconf [new [Hnew [Hsub Hall]]]].
    assert (Hshift : Forall (fun x => exists k inst0,
                rk_inst x = (i + k)%nat /\
                ((name', inst1) :: rest1) !! k = Some (rk_name x, inst0) /\
                holds_result inst0 (rk_result x)) new).
    { eapply Forall_impl; [exact Hall|]. intros x [k [inst0 [Hk [Hl Hh]]]].
      exists (S k), inst0. split; [lia|]. split; [exact Hl|exact Hh]. }
    destruct Hfound as [E|[best [inst' [E [Hc Hh]]]]]; injection E as -> ->.
    + split; [simpl; f_equal; exact Hconf|].
      exists new. split; [exact Hnew|]. split; [|exact Hshift].
      simpl. apply sublist_cons. exact Hsub.
    + split; [simpl; rewrite Hc; f_equal; exact Hconf|].
      eexists (_ :: new). rewrite Hnew, <- app_assoc. split; [reflexivity|].
      split; [simpl; apply sublist_skip; exact Hsub|].
      constructor; [|exact Hshift].
      exists 0%nat, inst'. simpl. split; [lia|]. split; [reflexivity|exact Hh].
Qed.

(** The ranking that a sort returns has the members of the list sorted. *)
Lemma list_sort_members {A} (key : A -> option (Q * Z)) (l l' : list A) :
  list_sort key l = Some l' -> Permutation l' l.
Proof. intros H. apply (list_sort_spec key l l' H). Qed.

(** X16: what the ranking of a full run refers to.  Every entry names an
    instance of the fleet, by its position and its name; that instance was
    searched for the country of the ranked result, carries the address,
    city, ping and speed of that result and keeps it among its best
    results.  No instance is ranked twice, and there is no ranking only
    for an empty fleet. *)
Theorem ranking_refers_to_fleet env bridge_data attempts_per_country instances h :
  let done := fst (start_all_instances_with_best_ips bridge_data attempts_per_country
                     instances env h) in
  match snd done with
  | Some ranking =>
      NoDup (map rk_inst ranking) /\
      (length ranking <= length instances)%nat /\
      Forall (holds_ranked_result (fst done)) ranking
  | None => instances = []
  end.
Proof.
  unfold start_all_instances_with_best_ips.
  destruct instances as [|entry rest]; [reflexivity|].
  unfold bind.
  destruct (start_loop _ _ _ (entry :: rest) 0 [] env h) as [[items successful] h1] eqn:Hrun.
  destruct (start_loop_spec _ _ _ _ _ _ _ _ _ _ _ Hrun) as [_ [new [-> [Hsub Hall]]]].
  cbv zeta. simpl fst. simpl snd. simpl app.
  destruct (list_sort ranked_key new) as [ranking|] eqn:Hsort.
  - apply list_sort_members in Hsort.
    assert (Hnodup : NoDup (map rk_inst new)).
    { eapply sublist_NoDup; [apply NoDup_seq|exact Hsub]. }
    split; [|split].
    + assert (Hperm : map rk_inst ranking ≡ₚ map rk_inst new)
        by (apply Permutation_map, Hsort).
      rewrite Hperm. exact Hnodup.
    + rewrite (Permutation_length Hsort).
      apply sublist_length in Hsub. rewrite length_map, length_seq in Hsub. exact Hsub.
    + rewrite Hsort.
      eapply Forall_impl; [exact Hall|]. intros x [k [inst [Hk [Hl Hh]]]].
      exists inst. simpl in Hk. rewrite Hk. split; [exact Hl|exact Hh].
  - exfalso.
    destruct (list_sort_total ranked_key new) as [r Hr]; [|congruence].
    apply Forall_forall. intros x _. eexists. reflexivity.
Qed.

Lemma test_loop_spec env items :
  forall i results h items' results' h',
  test_loop items i results env h = ((items', results'), h') ->
  fleet_configuration items' = fleet_configuration items /\
  exists new, results' = results ++ new /\ sublist new (seq i (length items)).
Proof.
  induction items as [|[name' inst] rest IH]; intros i results h items' results' h' Hrun.
  - injection Hrun as <- <- _. split; [reflexivity|]. exists []. rewrite app_nil_r.
    split; [reflexivity|constructor].
  - simpl in Hrun. unfold bind at 1 in Hrun.
    pose proof (test_instance_cases env inst i results h) as Hstep.
    destruct (test_instance inst i results env h) as [[inst1 results1] h1].
    simpl in Hstep. unfold bind at 1 in Hrun.
    destruct (test_loop rest (S i) results1 env h1) as [[rest' results2] h2] eqn:Htail.
    injection Hrun as <- <- _.
    destruct (IH _ _ _ _ _ _ Htail) as [Hconf [new [Hres Hsub]]].
    destruct Hstep as [E|[ip' [ci [p [s E]]]]]; injection E as -> ->.
    + split; [simpl; f_equal; exact Hconf|].
      exists new. split; [exact Hres|]. simpl. apply sublist_cons, Hsub.
    + split; [simpl; f_equal; exact Hconf|].
      exists (i :: new). rewrite Hres, <- app_assoc. split; [reflexivity|].
      simpl. apply sublist_skip, Hsub.
Qed.

(** X17: a full run and a re-test pass never touch the configuration of
    the fleet: afterwards it has the same instances in the same order, and
    each one still has its name, country, port, data directory, torrc,
    bridge type and bridge count.  Only the observed address, city, ping
    and speed and the best results change. *)
Theorem runs_keep_configuration env bridge_data attempts_per_country instances h :
  fleet_configuration
    (fst (fst (start_all_instances_with_best_ips bridge_data attempts_per_country
                 instances env h)))
  = fleet_configuration instances /\
  fleet_configuration (fst (fst (test_all_instances instances env h)))
  = fleet_configuration instances.
Proof.
  split.
  - unfold start_all_instances_with_best_ips.
    destruct instances as [|entry rest]; [reflexivity|].
    unfold bind.
    destruct (start_loop _ _ _ (entry :: rest) 0 [] env h) as [[items successful] h1] eqn:Hrun.
    destruct (start_loop_spec _ _ _ _ _ _ _ _ _ _ _ Hrun) as [Hconf _]. exact Hconf.
  - unfold test_all_instances, bind.
    destruct (test_loop instances 0 [] env h) as [[items results] h1] eqn:Hrun.
    destruct (test_loop_spec _ _ _ _ _ _ _ _ Hrun) as [Hconf _].
    destruct results; exact Hconf.
Qed.

(** X18: the ranking of a re-test pass lists positions of the fleet, each
    at most once, and every instance listed has its speed and ping set. *)
Theorem retest_ranking_lists_measured_instances env instances h :
  let done := fst (test_all_instances instances env h) in
  exists ranking,
    snd done = Some ranking /\
    NoDup ranking /\
    (length ranking <= length instances)%nat /\
    Forall (fun i => is_Some (observed (fst done) i)) ranking.
Proof.
  destruct (test_loop instances 0 [] env h) as [[items results] h1] eqn:Hrun.
  destruct (test_all_instances_ranking _ _ _ _ _ _ Hrun) as [ranking [Hall [Hperm _]]].
  destruct (test_loop_spec _ _ _ _ _ _ _ _ Hrun) as [_ [new [Hnew Hsub]]].
  destruct (test_loop_appends _ _ _ _ _ _ _ _ Hrun) as [_ [new' [Hnew' Hobs]]].
  simpl in Hnew, Hnew'. subst new new'.
  cbv zeta. rewrite Hall. simpl. exists ranking. split; [reflexivity|].
  split; [|split].
  - rewrite Hperm. eapply sublist_NoDup; [apply NoDup_seq|exact Hsub].
  - rewrite (Permutation_length Hperm).
    apply sublist_length in Hsub. rewrite length_seq in Hsub. exact Hsub.
  - rewrite Hperm. eapply Forall_impl; [exact Hobs|].
    intros j [k [-> Hk]]. exact Hk.
Qed.

(** X19: a re-test pass passes over an instance whose Tor is not running
    (the liveness check returns a code other than 0): nothing is sent
    through its port, the instance is left exactly as it was, and its
    position is not in the ranking. *)
Theorem retest_skips_stopped_instance env pre name' inst post h :
  let instances := pre ++ (name', inst) :: post in
  let h0 := snd (test_loop pre 0 [] env h) in
  let results0 := snd (fst (test_loop pre 0 [] env h)) in
  run_returncode env h0 (pgrep_command inst) <> 0 ->
  test_instance inst (length pre) results0 env h0
  = ((inst, results0), h0 ++ [ERun (pgrep_command inst)]) /\
  fst (fst (test_all_instances instances env h)) !! length pre = Some (name', inst) /\
  exists ranking,
    snd (fst (test_all_instances instances env h)) = Some ranking /\
    ~ In (length pre) ranking.
Proof.
  intros instances h0 results0 Hstopped.
  assert (Hstep : test_instance inst (length pre) results0 env h0
                  = ((inst, results0), h0 ++ [ERun (pgrep_command inst)])).
  { unfold test_instance, check_instance_running, run, bind, ret.
    apply Z.eqb_neq in Hstopped. rewrite Hstopped. reflexivity. }
  split; [exact Hstep|].
  destruct (test_loop instances 0 [] env h) as [[items results] h3] eqn:Hrun.
  destruct (test_all_instances_ranking _ _ _ _ _ _ Hrun) as [ranking [Hall [Hperm _]]].
  rewrite Hall. simpl fst. simpl snd.
  unfold instances in Hrun. rewrite test_loop_app in Hrun.
  subst h0 results0.
  destruct (test_loop pre 0 [] env h) as [[pre' results1] h1] eqn:Hpre.
  simpl in Hstep. simpl test_loop in Hrun. unfold bind at 1 in Hrun.
  simpl in Hrun. rewrite Hstep in Hrun. unfold bind at 1 in Hrun.
  destruct (test_loop post (S (length pre)) results1 env _)
    as [[post' results2] h2] eqn:Hpost.
  injection Hrun as <- <- _.
  destruct (test_loop_appends _ _ _ _ _ _ _ _ Hpre) as [Hlen [new1 [Hnew1 Hobs1]]].
  destruct (test_loop_spec _ _ _ _ _ _ _ _ Hpost) as [_ [new2 [Hnew2 Hsub2]]].
  split.
  - rewrite lookup_app_r by lia. rewrite Hlen, Nat.sub_diag. reflexivity.
  - exists ranking. split; [reflexivity|]. intros Hin.
    apply (Permutation_in _ Hperm) in Hin. rewrite Hnew2, Hnew1 in Hin. simpl in Hin.
    apply in_app_or in Hin as [Hin|Hin].
    + rewrite Forall_forall in Hobs1. apply list_elem_of_In in Hin.
      destruct (Hobs1 _ Hin) as [k [Hk [entry Hentry]]].
      unfold observed in Hentry.
      destruct (pre' !! k) as [e|] eqn:Hlook; [|discriminate].
      apply lookup_lt_Some in Hlook. lia.
    + apply list_elem_of_In in Hin.
      pose proof (elem_of_sublist _ _ _ Hin Hsub2) as Hseq.
      apply elem_of_seq in Hseq. lia.
Qed.

Lemma retest_skips_stopped_instance_witness :
  test_instance inst_us (length (@nil (string * TorInstance)))
    (snd (fst (test_loop [] 0 [] env_stopped []))) env_stopped
    (snd (test_loop [] 0 [] env_stopped []))
  = ((inst_us, snd (fst (test_loop [] 0 [] env_stopped []))),
     snd (test_loop [] 0 [] env_stopped []) ++ [ERun (pgrep_command inst_us)]) /\
  fst (fst (test_all_instances ([] ++ [("tor1", inst_us)]) env_stopped []))
    !! length (@nil (string * TorInstance)) = Some ("tor1", inst_us) /\
  exists ranking,
    snd (fst (test_all_instances ([] ++ [("tor1", inst_us)]) env_stopped [])) = Some ranking /\
    ~ In (length (@nil (string * TorInstance))) ranking.
Proof.
  apply (retest_skips_stopped_instance env_stopped [] "tor1" inst_us [] []).
  simpl. discriminate.
Defined.

Lemma sends_run P c : P (ERun c) -> sends_at_most P 0 (run c).
Proof. intros H env h. exists [ERun c]. simpl. auto. Qed.

Lemma sends_test_instance (P : Event -> Prop) inst i results :
  P (ERun (pgrep_command inst)) -> P EClock -> (forall u p t, P (EGet u p t)) ->
  sends_at_most P 15 (test_instance inst i results).
Proof.
  intros Hr Hc Hg. unfold test_instance, check_instance_running.
  apply (sends_bind P 0 15).
  - replace 0%nat with (0 + 0)%nat by reflexivity.
    apply sends_bind; [apply sends_run, Hr|]. intros rc. apply sends_ret.
  - intros [|]; [|apply (sends_weaken P 0); [lia|apply sends_ret]].
    apply (sends_bind P 9 6).
    + apply sends_get_ip_and_location; [exact Hc|intros; apply Hg|intros; apply Hg].
    + intros [[[[ip'|] c] ci] p]; try (apply (sends_weaken P 0); [lia|apply sends_ret]).
      destruct (PyStr.truthy ip'); [|apply (sends_weaken P 0); [lia|apply sends_ret]].
      replace 6%nat with (6 + 0)%nat by reflexivity.
      apply sends_bind; [|intros s; apply sends_ret].
      apply sends_test_speed; [exact Hc|intros; apply Hg|apply Hg].
Qed.

Lemma sends_test_loop (P : Event -> Prop) items :
  (forall entry, In entry items -> P (ERun (pgrep_command (snd entry)))) ->
  P EClock -> (forall u p t, P (EGet u p t)) ->
  forall i results, sends_at_most P (15 * length items) (test_loop items i results).
Proof.
  intros Hr Hc Hg. induction items as [|[name' inst] rest IH]; intros i results.
  - apply sends_ret.
  - simpl test_loop. replace (15 * length ((name', inst) :: rest))%nat
      with (15 + 15 * length rest)%nat by (simpl; lia).
    apply sends_bind.
    + apply sends_test_instance; [apply (Hr (name', inst)); left; reflexivity|exact Hc|exact Hg].
    + intros [inst1 results1].
      replace (15 * length rest)%nat with (15 * length rest + 0)%nat by lia.
      apply sends_bind.
      * apply IH. intros entry Hin. apply Hr. right. exact Hin.
      * intros [rest1 results2]. apply sends_ret.
Qed.

(** X20: a re-test pass only observes.  Whatever the fleet and the
    environment, the only command it runs is the liveness check of an
    instance of the fleet; it stops, starts and reconfigures nothing,
    writes no file and never pauses; and it sends at most 15 requests per
    instance. *)
Theorem retest_only_observes instances :
  sends_at_most (retest_event instances) (15 * length instances)
    (test_all_instances instances).
Proof.
  unfold test_all_instances.
  replace (15 * length instances)%nat with (15 * length instances + 0)%nat by lia.
  apply sends_bind.
  - apply sends_test_loop.
    + intros entry Hin. exists entry. auto.
    + exact I.
    + intros u p t. exact I.
  - intros [items [|i results]]; apply sends_ret.
Qed.

(** ** FleetOrchestrator: the skeleton of a full run *)

Lemma start_loop_trace env bridge_data use_bridges attempts_per_country items :
  forall i successful h, exists evs,
    snd (start_loop bridge_data use_bridges attempts_per_country items i successful env h)
    = h ++ evs /\
    List.filter is_control_event evs
    = concat (map (fun entry =>
                     concat (repeat (attempt_control bridge_data (snd entry) use_bridges)
                               (Z.to_nat attempts_per_country)))
                items) /\
    (length (List.filter is_request evs)
     <= 15 * Z.to_nat attempts_per_country * length items)%nat.
Proof.
  induction items as [|[name' inst] rest IH]; intros i successful h.
  - exists []. simpl. rewrite app_nil_r. repeat split. lia.
  - simpl start_loop. unfold bind at 1.
    destruct (find_fastest_trace env bridge_data inst use_bridges attempts_per_country h)
      as [evs1 [E1 [C1 L1]]].
    destruct (find_fastest_ip_for_instance _ _ _ _ env h) as [[result inst1] h1].
    simpl in E1. subst h1. unfold bind at 1.
    match goal with
    | |- context [start_loop _ _ _ rest (S i) ?succ env (h ++ evs1)] =>
        destruct (IH (S i) succ (h ++ evs1)) as [evs2 [E2 [C2 L2]]];
        destruct (start_loop bridge_data use_bridges attempts_per_country rest (S i)
                    succ env (h ++ evs1)) as [[rest1 successful1] h2]
    end.
    simpl in E2. subst h2. simpl snd.
    exists (evs1 ++ evs2). rewrite <- app_assoc. split; [reflexivity|].
    rewrite !List.filter_app, length_app, C1, C2. split; [reflexivity|].
    simpl length. nia.
Qed.

(** X21: the skeleton of a full run.  The instances are searched in the
    order of the fleet, one after the other, each with the configured
    number of attempts; bridges are used in every attempt exactly when
    bridge data is present.  The commands and pauses of the run are those
    of the attempts, in that order, and nothing else; the run sends at
    most 15 requests for each attempt of each instance. *)
Theorem full_run_searches_in_fleet_order env bridge_data attempts_per_country instances h :
  exists evs,
    snd (start_all_instances_with_best_ips bridge_data attempts_per_country instances env h)
    = h ++ evs /\
    List.filter is_control_event evs
    = run_control bridge_data attempts_per_country instances /\
    (length (List.filter is_request evs)
     <= 15 * Z.to_nat attempts_per_country * length instances)%nat.
Proof.
  unfold start_all_instances_with_best_ips.
  destruct instances as [|entry rest].
  - exists []. simpl. rewrite app_nil_r. repeat split. lia.
  - unfold bind.
    destruct (start_loop_trace env bridge_data (bridges_active bridge_data)
                attempts_per_country (entry :: rest) 0 [] h) as [evs [E [C L]]].
    destruct (start_loop _ _ _ (entry :: rest) 0 [] env h) as [[items successful] h1].
    simpl in E. subst h1. exists evs. split; [reflexivity|]. split; [exact C|exact L].
Qed.

(** ** FleetOrchestrator: ties in a ranking *)

Section StableSort.
Context {A : Type}.
Variable pos : A -> nat.

Lemma insert_keyed_stable_hd (a x : (Q * Z) * A) l :
  HdRel (stable_le pos) a l -> stable_le pos a x ->
  HdRel (stable_le pos) a (insert_keyed x l).
Proof.
  intros Hl Hx. destruct l as [|y l]; simpl; [constructor; exact Hx|].
  destruct (key_lt (fst y) (fst x)); constructor; [|exact Hx].
  inversion Hl; assumption.
Qed.

(** Inserting an element that stood before all the others keeps the
    order of equal keys. *)
Lemma insert_keyed_stable (x : (Q * Z) * A) l :
  Sorted (stable_le pos) l ->
  Forall (fun y => (pos (snd x) < pos (snd y))%nat) l ->
  Sorted (stable_le pos) (insert_keyed x l).
Proof.
  induction 1 as [|y l Hs IH Hhd]; intros Hpos; simpl.
  - repeat constructor.
  - inversion Hpos as [|? ? Hy Hl]; subst.
    destruct (key_lt (fst y) (fst x)) eqn:E.
    + constructor; [apply IH, Hl|]. apply insert_keyed_stable_hd; [exact Hhd|].
      split; [apply key_lt_asym, E|]. intros H. congruence.
    + constructor; [constructor; assumption|]. constructor.
      split; [exact E|]. intros _. exact Hy.
Qed.

Lemma sort_keyed_stable (l : list ((Q * Z) * A)) :
  StronglySorted (fun p q => (pos (snd p) < pos (snd q))%nat) l ->
  Sorted (stable_le pos) (sort_keyed l).
Proof.
  induction 1 as [|x l Hs IH Hx]; simpl; [constructor|].
  apply insert_keyed_stable; [exact IH|].
  eapply Permutation_Forall; [|exact Hx]. symmetry. apply sort_keyed_perm.
Qed.

Lemma stable_undecorate (key : A -> option (Q * Z)) (l : list ((Q * Z) * A)) :
  Forall (fun p => key (snd p) = Some (fst p)) l ->
  Sorted (stable_le pos) l -> Sorted (key_stable pos key) (map snd l).
Proof.
  intros Hkeys Hs. induction Hs as [|x l Hs IH Hhd]; simpl; [constructor|].
  inversion Hkeys as [|? ? Hx Hl]; subst.
  constructor; [apply IH, Hl|].
  destruct Hhd as [|y l [_ Hxy]]; simpl; constructor.
  inversion Hl as [|? ? Hy _]; subst.
  exists (fst x), (fst y). split; [exact Hx|]. split; [exact Hy|].
  intros H _. apply Hxy, H.
Qed.

(** [list.sort] is stable: elements with equal keys keep their order. *)
Lemma list_sort_stable (key : A -> option (Q * Z)) (l l' : list A) :
  list_sort key l = Some l' ->
  StronglySorted (fun x y => (pos x < pos y)%nat) l ->
  Sorted (key_stable pos key) l'.
Proof.
  unfold list_sort. intros H Hinc.
  destruct (mapM _ l) as [keyed|] eqn:Hm; simpl in H; [|discriminate].
  injection H as <-.
  destruct (decorate_spec key l keyed Hm) as [Hl Hkeys].
  apply stable_undecorate.
  - eapply Permutation_Forall; [|exact Hkeys]. symmetry. apply sort_keyed_perm.
  - apply sort_keyed_stable. subst l. clear Hm Hkeys.
    induction keyed as [|p keyed IH]; [constructor|].
    simpl in Hinc. apply StronglySorted_inv in Hinc as [Hrest Hp].
    constructor; [apply IH, Hrest|].
    apply Forall_forall. intros q Hq. rewrite Forall_forall in Hp.
    apply Hp. apply list_elem_of_fmap. exists q. auto.
Qed.

End StableSort.

Lemma sublist_seq_increasing (l : list nat) n :
  forall i, sublist l (seq i n) -> StronglySorted lt l.
Proof.
  revert l. induction n as [|n IH]; intros l i Hsub.
  - apply sublist_nil_r in Hsub. subst l. constructor.
  - simpl in Hsub. apply sublist_cons_r in Hsub as [Hsub|[l' [-> Hsub]]].
    + apply (IH _ _ Hsub).
    + constructor; [apply (IH _ _ Hsub)|].
      apply Forall_forall. intros j Hj.
      pose proof (elem_of_sublist _ _ _ Hj Hsub) as Hseq.
      apply elem_of_seq in Hseq. lia.
Qed.

Lemma key_lt_tie (a b : Q * Z) : (fst a == fst b)%Q -> snd a = snd b -> key_lt a b = false.
Proof.
  intros Hq Hz. unfold key_lt, PyNum.eqb.
  apply Qeq_bool_iff in Hq. rewrite Hq. apply Z.eqb_eq in Hz. rewrite Hz. reflexivity.
Qed.

(** X22: ties in a ranking.  The sort of a ranking is stable: two
    neighbours of the ranking of a full run that have the same speed and
    the same ping stand in the order of the fleet, and so do two
    neighbours of the ranking of a re-test pass whose instances have the
    same speed and ping. *)
Theorem ties_keep_fleet_order env bridge_data attempts_per_country instances h :
  match snd (fst (start_all_instances_with_best_ips bridge_data attempts_per_country
                    instances env h)) with
  | Some ranking => Sorted tie_in_fleet_order ranking
  | None => instances = []
  end /\
  match snd (fst (test_all_instances instances env h)) with
  | Some ranking =>
      Sorted (retest_tie_in_fleet_order (fst (fst (test_all_instances instances env h))))
        ranking
  | None => False
  end.
Proof.
  split.
  - unfold start_all_instances_with_best_ips.
    destruct instances as [|entry rest]; [reflexivity|].
    unfold bind.
    destruct (start_loop _ _ _ (entry :: rest) 0 [] env h) as [[items successful] h1] eqn:Hrun.
    destruct (start_loop_spec _ _ _ _ _ _ _ _ _ _ _ Hrun) as [_ [new [-> [Hsub _]]]].
    simpl fst. simpl snd. simpl app.
    destruct (list_sort ranked_key new) as [ranking|] eqn:Hsort.
    + apply (list_sort_stable rk_inst) in Hsort.
      * eapply Sorted_weaken; [|exact Hsort].
        intros a b [ka [kb [Ha [Hb Hab]]]] Hspeed Hping.
        injection Ha as <-. injection Hb as <-.
        apply Hab; apply key_lt_tie; simpl; try lra; congruence.
      * apply sublist_seq_increasing in Hsub.
        clear -Hsub. induction new as [|x new IH]; [constructor|].
        simpl in Hsub. apply StronglySorted_inv in Hsub as [Hrest Hx].
        constructor; [apply IH, Hrest|].
        apply Forall_forall. intros y Hy. rewrite Forall_forall in Hx.
        apply Hx. apply list_elem_of_fmap. exists y. auto.
    + exfalso.
      destruct (list_sort_total ranked_key new) as [r Hr]; [|congruence].
      apply Forall_forall. intros x _. eexists. reflexivity.
  - unfold test_all_instances, bind.
    destruct (test_loop instances 0 [] env h) as [[items results] h1] eqn:Hrun.
    destruct (test_loop_spec _ _ _ _ _ _ _ _ Hrun) as [_ [new [Hnew Hsub]]].
    simpl in Hnew. subst new.
    destruct results as [|i results]; [simpl; constructor|].
    simpl fst. simpl snd.
    destruct (list_sort (retest_key items) (i :: results)) as [ranking|] eqn:Hsort.
    + apply (list_sort_stable (fun j => j)) in Hsort;
        [|apply (sublist_seq_increasing _ _ _ Hsub)].
      eapply Sorted_weaken; [|exact Hsort].
      intros a b [ka [kb [Ha [Hb Hab]]]] oa ob Hoa Hob Hspeed Hping.
      rewrite retest_key_observed, Hoa in Ha. rewrite retest_key_observed, Hob in Hb.
      injection Ha as <-. injection Hb as <-.
      apply Hab; apply key_lt_tie; simpl; try lra; congruence.
    + destruct (test_loop_appends _ _ _ _ _ _ _ _ Hrun) as [_ [new' [Hnew' Hobs]]].
      simpl in Hnew'. subst new'.
      destruct (list_sort_total (retest_key items) (i :: results)) as [r Hr]; [|congruence].
      eapply Forall_impl; [exact Hobs|]. intros j [k [-> Hk]].
      rewrite retest_key_observed. destruct Hk as [o Ho]. simpl. rewrite Ho.
      eexists. reflexivity.
Qed.

(** ** The manager: configuring bridges, removing an instance *)



(** The loop ends only with a text that is not blank. *)
Lemma read_bridges_has_text typed bridge_input collected rest :
  read_bridges typed bridge_input = Some (collected, rest) -> has_text collected = true.
Proof.
  revert bridge_input. induction typed as [|line typed IH]; intros bridge_input; [discriminate|].
  simpl. destruct (String.eqb (PyStr.strip line) ""); [|apply IH].
  destruct (PyStr.truthy (PyStr.strip bridge_input)) eqn:Ht; [|apply IH].
  intros [= <- _]. rewrite <- strip_has_text. exact Ht.
Qed.






(** X24: [configure_bridges] cannot clear the bridges.  Whatever is
    typed, when the method returns the manager holds at least one bridge
    line, every line held is a single line that starts with [Bridge], a
    type is recorded, and the configuration was saved once with this
    bridge data: the branch that resets the bridge data is never taken. *)
Theorem configure_bridges_never_clears
    config_file pickle_dumps (set_to_list : gset string -> list string)
    m typed env h m' rest :
  fst (configure_bridges config_file pickle_dumps set_to_list m typed env h)
  = Some (m', rest) ->
  (exists bridge_lines bridge_type,
     Manager.bridge_data m' = Some (Some bridge_lines, Some bridge_type) /\
     bridge_lines <> [] /\ Forall wf_bridge_line bridge_lines) /\
  Manager.instances m' = Manager.instances m /\
  snd (configure_bridges config_file pickle_dumps set_to_list m typed env h)
  = h ++ [EWrite config_file (pickle_dumps (config_of m'))].
Proof.
  unfold configure_bridges.
  destruct (read_bridges typed "") as [[bridge_input typed']|] eqn:Hread; [|discriminate].
  pose proof (read_bridges_has_text _ _ _ _ Hread) as Hink.
  rewrite strip_has_text, Hink.
  pose proof (parse_bridge_input_stores_bridge_lines_aux set_to_list bridge_input) as Hparse.
  destruct (parse_bridge_input set_to_list bridge_input) as [[bridge_lines|] bridge_type].
  - destruct Hparse as [_ [Hne [_ Hwf]]].
    destruct bridge_lines as [|line bridge_lines]; [congruence|].
    destruct bridge_type as [bridge_type|]; [|discriminate].
    simpl. intros [= <- <-]. split; [|split; reflexivity].
    exists (line :: bridge_lines), bridge_type. split; [reflexivity|].
    split; [discriminate|].
    eapply Forall_impl; [exact Hwf|]. intros l [H _]. exact H.
  - destruct Hparse as [_ Hblank]. congruence.
Qed.

Lemma configure_bridges_never_clears_witness :
  (exists bridge_lines bridge_type,
     Manager.bridge_data manager_bridged = Some (Some bridge_lines, Some bridge_type) /\
     bridge_lines <> [] /\ Forall wf_bridge_line bridge_lines) /\
  Manager.instances manager_bridged = Manager.instances manager_fleet /\
  snd (configure_bridges "/root/.tor_manager/config.pkl" pickle_names elements manager_fleet
         typed_bridges env_offline [])
  = [] ++ [EWrite "/root/.tor_manager/config.pkl" (pickle_names (config_of manager_bridged))].
Proof.
  apply (configure_bridges_never_clears
           "/root/.tor_manager/config.pkl" pickle_names elements manager_fleet
           typed_bridges env_offline [] manager_bridged ["5"]).
  vm_compute. reflexivity.
Defined.





